(** * Dwarn-Fortress: a shallow embedding of the tick-based civilization
      simulator and the verification of its specification.

    The Python sources embedded here are [src/cell.py], [src/world.py],
    [src/civilization.py], [src/events.py], [src/simulation.py] and the
    driver [main.py].

    Modelling conventions.
    - Python integers are [Z]; [//] and [%] are [Z.div] and [Z.modulo].
    - Python floats are idealised as exact rationals [Q]; [int(.)] is
      truncation toward zero.
    - The process-global [random] module is an explicit generator state
      threaded through every function that draws from it.
    - Objects that are mutated in place and shared (the grid cells, the
      civilizations held in [Simulation.civilizations]) live in one store;
      a reference to a civilization is its index in that list, a reference
      to a cell is its coordinate pair.
    - A raised exception is the [Raise] result. *)

From Stdlib Require Import ZArith QArith Qround Lia.
From stdpp Require Import base list strings gmap.

Open Scope Z_scope.

(** ** Exceptions *)

Inductive exn := ValueError | TypeError | IndexError | ZeroDivisionError.

Inductive Result (A : Type) :=
| Ok (a : A)
| Raise (e : exn).
Arguments Ok {A} a.
Arguments Raise {A} e.

Definition rbind {A B} (m : Result A) (k : A -> Result B) : Result B :=
  match m with
  | Ok a => k a
  | Raise e => Raise e
  end.

Notation "'do' x <- m ; k" := (rbind m (fun x => k))
  (at level 10, x pattern, m at level 100, k at level 200).

(** ** Rationals standing for floats *)

Definition Q_ltb (a b : Q) : bool := negb (Qle_bool b a).

(** [int(q)]: truncation toward zero. *)
Definition int_trunc (q : Q) : Z := Z.quot (Qnum q) (Zpos (Qden q)).

(** ** The [random] module *)

Module random.

(** The generator is a stream of raw words and a read position; every
    call of the module consumes one word. *)
Record RNG := { tape : nat -> Z; cursor : nat }.

Definition next_word (g : RNG) : Z * RNG :=
  (tape g (cursor g), {| tape := tape g; cursor := S (cursor g) |}).

(** [random.random()]: a rational in [0, 1). *)
Definition random (g : RNG) : Q * RNG :=
  let '(w, g') := next_word g in
  (Qmake (w mod 2 ^ 53) (2 ^ 53), g').

(** [random.randint(a, b)] on a non-empty range. *)
Definition randint (a b : Z) (g : RNG) : Z * RNG :=
  let '(w, g') := next_word g in
  (a + w mod (b - a + 1), g').

(** [random.randint(a, b)] where the range may be empty: Python raises
    [ValueError]. *)
Definition randint_checked (a b : Z) (g : RNG) : Result (Z * RNG) :=
  if b <? a then Raise ValueError else Ok (randint a b g).

(** [random.choice(seq)]; raises [IndexError] on an empty sequence. *)
Definition choice {A} (l : list A) (g : RNG) : Result (A * RNG) :=
  match l with
  | [] => Raise IndexError
  | d :: _ =>
      let '(w, g') := next_word g in
      Ok (nth (Z.to_nat (w mod Z.of_nat (length l))) l d, g')
  end.

(** [random.choice] on a literal non-empty list [d :: l]. *)
Definition choice_ne {A} (d : A) (l : list A) (g : RNG) : A * RNG :=
  let '(w, g') := next_word g in
  (nth (Z.to_nat (w mod Z.of_nat (length (d :: l)))) (d :: l) d, g').

(** [random.uniform(a, b)]. *)
Definition uniform (a b : Q) (g : RNG) : Q * RNG :=
  let '(u, g') := random g in
  ((a + (b - a) * u)%Q, g').

End random.

Abbreviation RNG := random.RNG.

(** ** cell.py *)

Inductive TerrainType := PLAINS | FOREST | MOUNTAIN | WATER | DESERT.

Inductive MineralType := NONE | IRON | GOLD | COPPER | STONE.

#[export] Instance TerrainType_eq_dec : EqDecision TerrainType.
Proof. solve_decision. Defined.

#[export] Instance MineralType_eq_dec : EqDecision MineralType.
Proof. solve_decision. Defined.

Record Cell := {
  cell_x : Z;
  cell_y : Z;
  altitude : Z;
  base_temperature : Z;
  temperature : Z;
  terrain : TerrainType;
  mineral : MineralType;
  food_resource : Z;
  max_food : Z;
  owner : option string
}.

Definition set_temperature (t : Z) (c : Cell) : Cell :=
  {| cell_x := cell_x c; cell_y := cell_y c; altitude := altitude c;
     base_temperature := base_temperature c; temperature := t;
     terrain := terrain c; mineral := mineral c;
     food_resource := food_resource c; max_food := max_food c;
     owner := owner c |}.

Definition set_food_resource (f : Z) (c : Cell) : Cell :=
  {| cell_x := cell_x c; cell_y := cell_y c; altitude := altitude c;
     base_temperature := base_temperature c; temperature := temperature c;
     terrain := terrain c; mineral := mineral c;
     food_resource := f; max_food := max_food c;
     owner := owner c |}.

Definition set_owner (o : option string) (c : Cell) : Cell :=
  {| cell_x := cell_x c; cell_y := cell_y c; altitude := altitude c;
     base_temperature := base_temperature c; temperature := temperature c;
     terrain := terrain c; mineral := mineral c;
     food_resource := food_resource c; max_food := max_food c;
     owner := o |}.

Module Cell.

Definition _generate_terrain (alt base_temp : Z) (g : RNG) : TerrainType * RNG :=
  if 80 <? alt then (MOUNTAIN, g)
  else if alt <? 10 then (WATER, g)
  else if 35 <? base_temp then (DESERT, g)
  else
    let '(r, g') := random.random g in
    if Q_ltb r (3 # 10) then (FOREST, g') else (PLAINS, g').

Definition _generate_mineral (t : TerrainType) (g : RNG) : MineralType * RNG :=
  match t with
  | MOUNTAIN => random.choice_ne IRON [GOLD; COPPER; STONE] g
  | PLAINS =>
      let '(r, g') := random.random g in
      if Q_ltb r (1 # 10) then (STONE, g') else (NONE, g')
  | _ => (NONE, g)
  end.

(** The dictionary literal evaluates its five [randint] calls in order
    before the lookup. *)
Definition _initial_food (t : TerrainType) (g : RNG) : Z * RNG :=
  let '(f_plains, g1) := random.randint 50 100 g in
  let '(f_forest, g2) := random.randint 80 150 g1 in
  let '(f_mountain, g3) := random.randint 10 30 g2 in
  let '(f_water, g4) := random.randint 60 120 g3 in
  let '(f_desert, g5) := random.randint 5 20 g4 in
  (match t with
   | PLAINS => f_plains
   | FOREST => f_forest
   | MOUNTAIN => f_mountain
   | WATER => f_water
   | DESERT => f_desert
   end, g5).

Definition __init__ (x y : Z) (g : RNG) : Cell * RNG :=
  let '(alt, g1) := random.randint 0 100 g in
  let '(bt, g2) := random.randint (-20) 40 g1 in
  let '(t, g3) := _generate_terrain alt bt g2 in
  let '(m, g4) := _generate_mineral t g3 in
  let '(f, g5) := _initial_food t g4 in
  ({| cell_x := x; cell_y := y; altitude := alt; base_temperature := bt;
      temperature := bt; terrain := t; mineral := m;
      food_resource := f; max_food := f; owner := None |}, g5).

Definition is_passable (c : Cell) : bool :=
  negb (bool_decide (terrain c = WATER) || bool_decide (terrain c = MOUNTAIN)).

Definition update_climate (season_modifier : Z) (c : Cell) : Cell :=
  set_temperature (base_temperature c + season_modifier) c.

Definition regenerate_food (rate : Q) (c : Cell) : Cell :=
  if bool_decide (terrain c <> WATER) then
    let growth := int_trunc (inject_Z (max_food c) * rate) in
    set_food_resource (Z.min (max_food c) (food_resource c + growth)) c
  else c.

(** Returns the mutated cell and the amount actually harvested. *)
Definition harvest_food (amount : Z) (c : Cell) : Cell * Z :=
  let harvested := Z.min amount (food_resource c) in
  (set_food_resource (food_resource c - harvested) c, harvested).

End Cell.

(** ** world.py *)

Record World := {
  width : Z;
  height : Z;
  grid : list (list Cell);
  current_day : Z;
  current_year : Z
}.

Definition set_grid (gr : list (list Cell)) (w : World) : World :=
  {| width := width w; height := height w; grid := gr;
     current_day := current_day w; current_year := current_year w |}.

Module World.

Definition DAYS_PER_YEAR : Z := 365.

(** [[Cell(x, y) for x in range(width)]]. *)
Fixpoint generate_row (xs : list nat) (y : Z) (g : RNG) : list Cell * RNG :=
  match xs with
  | [] => ([], g)
  | x :: xs' =>
      let '(c, g1) := Cell.__init__ (Z.of_nat x) y g in
      let '(cs, g2) := generate_row xs' y g1 in
      (c :: cs, g2)
  end.

(** [[[Cell(x, y) for x in range(width)] for y in range(height)]]. *)
Fixpoint generate_rows (w : Z) (ys : list nat) (g : RNG) : list (list Cell) * RNG :=
  match ys with
  | [] => ([], g)
  | y :: ys' =>
      let '(r, g1) := generate_row (seq 0 (Z.to_nat w)) (Z.of_nat y) g in
      let '(rs, g2) := generate_rows w ys' g1 in
      (r :: rs, g2)
  end.

Definition _generate_world (w h : Z) (g : RNG) : list (list Cell) * RNG :=
  generate_rows w (seq 0 (Z.to_nat h)) g.

Definition __init__ (w h : Z) (g : RNG) : World * RNG :=
  let '(gr, g') := _generate_world w h g in
  ({| width := w; height := h; grid := gr; current_day := 0; current_year := 1 |}, g').

Definition get_cell (w : World) (x y : Z) : option Cell :=
  if (0 <=? x) && (x <? width w) && (0 <=? y) && (y <? height w) then
    row ← grid w !! Z.to_nat y; row !! Z.to_nat x
  else None.

(** In-place mutation of the cell object stored at [(x, y)]. *)
Definition update_cell (x y : Z) (f : Cell -> Cell) (w : World) : World :=
  if (0 <=? x) && (x <? width w) && (0 <=? y) && (y <? height w) then
    set_grid (alter (alter f (Z.to_nat x)) (Z.to_nat y) (grid w)) w
  else w.

Definition neighbor_offsets : list (Z * Z) :=
  filter (fun d => negb ((d.1 =? 0) && (d.2 =? 0)))
         (dx ← [-1; 0; 1]; dy ← [-1; 0; 1]; [(dx, dy)]).

Definition get_neighbors (w : World) (x y : Z) : list Cell :=
  omap (fun d => get_cell w (x + d.1) (y + d.2)) neighbor_offsets.

Definition get_passable_neighbors (w : World) (x y : Z) : list Cell :=
  filter (fun c => Cell.is_passable c = true) (get_neighbors w x y).

(** [for row in self.grid: for cell in row: f(cell)]. *)
Definition map_cells (f : Cell -> Cell) (gr : list (list Cell)) : list (list Cell) :=
  (fun row : list Cell => f <$> row) <$> gr.

Definition get_season_modifier (w : World) : Z :=
  let day_of_year := current_day w mod DAYS_PER_YEAR in
  if day_of_year <? 91 then -15 + day_of_year / 6
  else if day_of_year <? 182 then (day_of_year - 91) / 6
  else if day_of_year <? 273 then 15 - (day_of_year - 182) / 6
  else - ((day_of_year - 273) / 6).

Definition update_climate (w : World) : World :=
  let modifier := get_season_modifier w in
  set_grid (map_cells (Cell.update_climate modifier) (grid w)) w.

Definition update_resources (w : World) : World :=
  let season_modifier := get_season_modifier w in
  let regen_rate := if -10 <? season_modifier then (1 # 10)%Q else (2 # 100)%Q in
  set_grid (map_cells (Cell.regenerate_food regen_rate) (grid w)) w.

Definition advance_day (w : World) : World :=
  let d := current_day w + 1 in
  {| width := width w; height := height w; grid := grid w;
     current_day := d;
     current_year := if d mod DAYS_PER_YEAR =? 0 then current_year w + 1
                     else current_year w |}.

Definition get_season_name (w : World) : string :=
  let day_of_year := current_day w mod DAYS_PER_YEAR in
  if day_of_year <? 91 then "Winter"
  else if day_of_year <? 182 then "Spring"
  else if day_of_year <? 273 then "Summer"
  else "Autumn".

(** [for row in self.grid: for cell in row: if ...: cells.append(cell)]. *)
Definition get_cells_by_owner (w : World) (owner_name : string) : list Cell :=
  row ← grid w; filter (fun cell => owner cell = Some owner_name) row.

Definition find_unowned_passable_cells (w : World) : list Cell :=
  row ← grid w;
  filter (fun cell => owner cell = None /\ Cell.is_passable cell = true) row.

End World.

(** ** Enumerations of civilization.py *)

Inductive CivilizationState :=
| IDLE | HUNTING | GATHERING | EXPANDING | DIPLOMACY | DEFENDING | COLLAPSED.

Inductive PersonalityTrait :=
| AGGRESSIVE | PEACEFUL | ISOLATIONIST | EXPANSIONIST | TRADING.

#[export] Instance CivilizationState_eq_dec : EqDecision CivilizationState.
Proof. solve_decision. Defined.

#[export] Instance PersonalityTrait_eq_dec : EqDecision PersonalityTrait.
Proof. solve_decision. Defined.

(** ** chronicle.py

    The chronicle is a sink.  A message is kept as its template and the
    values interpolated into it; console output is not modelled. *)

Inductive Message :=
| MsgFriendly (a b : string)
| MsgTensions (a b : string)
| MsgStarve (deaths : Z) (who : string)
| MsgCollapsed (who : string) (cause : string)
| MsgDrought (cx cy : Z)
| MsgBountiful (cx cy : Z)
| MsgPlague (who : string) (deaths : Z)
| MsgDiscovery (who : string) (what : string) (level : Z)
| MsgCrisis (what : string) (who : string) (loss : Z)
| MsgFounded (who : string) (sx sy : Z) (pop : Z) (trait : PersonalityTrait)
| MsgAllPerished.

Record Chronicle := {
  events : list (Z * Message);
  major_events : list (Z * Message);
  chronicle_verbose : bool
}.

Module Chronicle.

Definition __init__ (v : bool) : Chronicle :=
  {| events := []; major_events := []; chronicle_verbose := v |}.

Definition log_event (year : Z) (m : Message) (ch : Chronicle) : Chronicle :=
  {| events := events ch ++ [(year, m)]; major_events := major_events ch;
     chronicle_verbose := chronicle_verbose ch |}.

Definition log_major_event (year : Z) (m : Message) (ch : Chronicle) : Chronicle :=
  {| events := events ch; major_events := major_events ch ++ [(year, m)];
     chronicle_verbose := chronicle_verbose ch |}.

End Chronicle.

(** ** civilization.py *)

(** The [world] attribute of a civilization is a reference to the one
    world of the simulation; it is passed alongside instead of stored. *)
Record Civilization := {
  name : string;
  population : Z;
  food : Z;
  morale : Z;
  tech_level : Z;
  state : CivilizationState;
  personality : PersonalityTrait;
  capital : Z * Z;
  territory : list (Z * Z);
  relations : gmap string Z;
  is_alive : bool;
  death_cause : option string
}.

Definition set_population (v : Z) (c : Civilization) : Civilization :=
  {| name := name c; population := v; food := food c; morale := morale c;
     tech_level := tech_level c; state := state c;
     personality := personality c; capital := capital c;
     territory := territory c; relations := relations c;
     is_alive := is_alive c; death_cause := death_cause c |}.

Definition set_food (v : Z) (c : Civilization) : Civilization :=
  {| name := name c; population := population c; food := v;
     morale := morale c; tech_level := tech_level c; state := state c;
     personality := personality c; capital := capital c;
     territory := territory c; relations := relations c;
     is_alive := is_alive c; death_cause := death_cause c |}.

Definition set_morale (v : Z) (c : Civilization) : Civilization :=
  {| name := name c; population := population c; food := food c; morale := v;
     tech_level := tech_level c; state := state c;
     personality := personality c; capital := capital c;
     territory := territory c; relations := relations c;
     is_alive := is_alive c; death_cause := death_cause c |}.

Definition set_tech_level (v : Z) (c : Civilization) : Civilization :=
  {| name := name c; population := population c; food := food c;
     morale := morale c; tech_level := v; state := state c;
     personality := personality c; capital := capital c;
     territory := territory c; relations := relations c;
     is_alive := is_alive c; death_cause := death_cause c |}.

Definition set_state (v : CivilizationState) (c : Civilization) : Civilization :=
  {| name := name c; population := population c; food := food c;
     morale := morale c; tech_level := tech_level c; state := v;
     personality := personality c; capital := capital c;
     territory := territory c; relations := relations c;
     is_alive := is_alive c; death_cause := death_cause c |}.

Definition set_territory (v : list (Z * Z)) (c : Civilization) : Civilization :=
  {| name := name c; population := population c; food := food c;
     morale := morale c; tech_level := tech_level c; state := state c;
     personality := personality c; capital := capital c; territory := v;
     relations := relations c; is_alive := is_alive c;
     death_cause := death_cause c |}.

Definition set_relations (v : gmap string Z) (c : Civilization) : Civilization :=
  {| name := name c; population := population c; food := food c;
     morale := morale c; tech_level := tech_level c; state := state c;
     personality := personality c; capital := capital c;
     territory := territory c; relations := v; is_alive := is_alive c;
     death_cause := death_cause c |}.

Definition set_is_alive (v : bool) (c : Civilization) : Civilization :=
  {| name := name c; population := population c; food := food c;
     morale := morale c; tech_level := tech_level c; state := state c;
     personality := personality c; capital := capital c;
     territory := territory c; relations := relations c; is_alive := v;
     death_cause := death_cause c |}.

Definition set_death_cause (v : option string) (c : Civilization) : Civilization :=
  {| name := name c; population := population c; food := food c;
     morale := morale c; tech_level := tech_level c; state := state c;
     personality := personality c; capital := capital c;
     territory := territory c; relations := relations c;
     is_alive := is_alive c; death_cause := v |}.

(** ** The object store

    The attributes of [Simulation] (simulation.py) together with the state
    of the process-global [random] module.  The event manager holds a
    constant roster and is not stored. *)

Record Simulation := {
  world : World;
  civilizations : list Civilization;
  chronicle : Chronicle;
  running : bool;
  verbose : bool;
  random_state : RNG
}.

Definition set_world (v : World) (s : Simulation) : Simulation :=
  {| world := v; civilizations := civilizations s; chronicle := chronicle s;
     running := running s; verbose := verbose s; random_state := random_state s |}.

Definition set_civilizations (v : list Civilization) (s : Simulation) : Simulation :=
  {| world := world s; civilizations := v; chronicle := chronicle s;
     running := running s; verbose := verbose s; random_state := random_state s |}.

Definition set_chronicle (v : Chronicle) (s : Simulation) : Simulation :=
  {| world := world s; civilizations := civilizations s; chronicle := v;
     running := running s; verbose := verbose s; random_state := random_state s |}.

Definition set_running (v : bool) (s : Simulation) : Simulation :=
  {| world := world s; civilizations := civilizations s; chronicle := chronicle s;
     running := v; verbose := verbose s; random_state := random_state s |}.

Definition set_random_state (v : RNG) (s : Simulation) : Simulation :=
  {| world := world s; civilizations := civilizations s; chronicle := chronicle s;
     running := running s; verbose := verbose s; random_state := v |}.

(** Mutation of the civilization object referenced by index [i]. *)
Definition update_civ (i : nat) (f : Civilization -> Civilization) (s : Simulation)
  : Simulation :=
  set_civilizations (alter f i (civilizations s)) s.

Module Civilization.

Definition FOOD_STARVING : Z := 20.
Definition FOOD_LOW : Z := 50.
Definition FOOD_EXCESS : Z := 150.
Definition MORALE_CRITICAL : Z := 10.
Definition POPULATION_MIN : Z := 10.

Definition start_offsets : list (Z * Z) :=
  dx ← [-1; 0; 1]; dy ← [-1; 0; 1]; [(dx, dy)].

(** One iteration of the double loop of [_claim_starting_territory]. *)
Definition claim_step (x y : Z) (st : World * Civilization) (d : Z * Z)
  : World * Civilization :=
  let '(w, self) := st in
  match World.get_cell w (x + d.1) (y + d.2) with
  | Some cell =>
      if Cell.is_passable cell && bool_decide (owner cell = None) then
        (World.update_cell (x + d.1) (y + d.2) (set_owner (Some (name self))) w,
         set_territory (territory self ++ [(cell_x cell, cell_y cell)]) self)
      else st
  | None => st
  end.

Definition _claim_starting_territory (x y : Z) (st : World * Civilization)
  : World * Civilization :=
  foldl (claim_step x y) st start_offsets.

Definition __init__ (nm : string) (start_x start_y : Z) (w : World) (g : RNG)
  : World * Civilization * RNG :=
  let '(pop, g1) := random.randint 30 60 g in
  let '(mor, g2) := random.randint 70 90 g1 in
  let '(pers, g3) :=
    random.choice_ne AGGRESSIVE [PEACEFUL; ISOLATIONIST; EXPANSIONIST; TRADING] g2 in
  let self :=
    {| name := nm; population := pop; food := 200; morale := mor;
       tech_level := 1; state := IDLE; personality := pers;
       capital := (start_x, start_y); territory := []; relations := ∅;
       is_alive := true; death_cause := None |} in
  (_claim_starting_territory start_x start_y (w, self), g3).

Definition get_food_per_capita (self : Civilization) : Q :=
  if population self =? 0 then 0%Q
  else (inject_Z (food self) / inject_Z (population self))%Q.

(** The loop [for other in nearby: if other.name not in self.relations]. *)
Definition has_unmet (self : Civilization) (nearby : list Civilization) : bool :=
  existsb (fun other => bool_decide (relations self !! name other = None)) nearby.

Definition update_state (self : Civilization) (nearby : list Civilization) (g : RNG)
  : Civilization * RNG :=
  if negb (is_alive self) then (self, g)
  else
    let food_per_capita := get_food_per_capita self in
    if Q_ltb food_per_capita (inject_Z FOOD_STARVING) then (set_state HUNTING self, g)
    else if Q_ltb food_per_capita (inject_Z FOOD_LOW) then (set_state GATHERING self, g)
    else if negb (bool_decide (nearby = [])) && bool_decide (state self <> DIPLOMACY)
            && has_unmet self nearby
    then (set_state DIPLOMACY self, g)
    else if Q_ltb (inject_Z FOOD_EXCESS) food_per_capita
            && (Z.of_nat (length (territory self)) <? 30)
    then
      if bool_decide (personality self = EXPANSIONIST)
         || bool_decide (personality self = AGGRESSIVE)
      then (set_state EXPANDING self, g)
      else
        let '(r, g') := random.random g in
        if Q_ltb r (3 # 10) then (set_state EXPANDING self, g')
        else (set_state IDLE self, g')
    else (set_state IDLE self, g).

Definition _action_idle (self : Civilization) : Civilization :=
  let food_consumed := Z.max 1 (population self / 20) in
  let self1 := set_food (Z.max 0 (food self - food_consumed)) self in
  if FOOD_LOW <? food self1 then set_morale (Z.min 100 (morale self1 + 2)) self1
  else set_morale (Z.min 100 (morale self1 + 1)) self1.

(** The harvesting loop shared by [_action_hunt] and [_action_gather]:
    [for x, y in self.territory: ... cell.harvest_food(amount)]. *)
Definition harvest_step (amount : Z) (acc : World * Z) (xy : Z * Z) : World * Z :=
  let '(w, total_harvested) := acc in
  match World.get_cell w xy.1 xy.2 with
  | Some cell =>
      let '(cell', harvested) := Cell.harvest_food amount cell in
      (World.update_cell xy.1 xy.2 (fun _ => cell') w, total_harvested + harvested)
  | None => acc
  end.

Definition harvest_territory (amount : Z) (w : World) (terr : list (Z * Z)) : World * Z :=
  foldl (harvest_step amount) (w, 0) terr.

Definition _action_hunt (st : World * Civilization) : World * Civilization :=
  let '(w, self) := st in
  let '(w', total_harvested) := harvest_territory 20 w (territory self) in
  let food_consumed := Z.max 1 (population self / 30) in
  let self1 := set_food (Z.max 0 (food self + total_harvested - food_consumed)) self in
  (w', if 0 <? total_harvested then set_morale (Z.min 100 (morale self1 + 1)) self1
       else self1).

Definition _action_gather (st : World * Civilization) : World * Civilization :=
  let '(w, self) := st in
  let '(w', total_harvested) := harvest_territory 12 w (territory self) in
  let food_consumed := Z.max 1 (population self / 25) in
  let self1 := set_food (Z.max 0 (food self + total_harvested - food_consumed)) self in
  (w', if 0 <? total_harvested then set_morale (Z.min 100 (morale self1 + 1)) self1
       else self1).

(** The first unowned passable neighbour met by the double loop of
    [_action_expand], which returns at its first claim. *)
Fixpoint find_expansion (w : World) (terr : list (Z * Z)) : option Cell :=
  match terr with
  | [] => None
  | (x, y) :: rest =>
      match List.find (fun c => bool_decide (owner c = None))
                      (World.get_passable_neighbors w x y) with
      | Some cell => Some cell
      | None => find_expansion w rest
      end
  end.

Definition _action_expand (st : World * Civilization) : World * Civilization :=
  let '(w, self) := st in
  match find_expansion w (territory self) with
  | Some cell =>
      (World.update_cell (cell_x cell) (cell_y cell) (set_owner (Some (name self))) w,
       set_food (food self - 10)
         (set_territory (territory self ++ [(cell_x cell, cell_y cell)]) self))
  | None => st
  end.

Definition compatibility (a b : PersonalityTrait) : option Z :=
  match a, b with
  | PEACEFUL, PEACEFUL => Some 30
  | PEACEFUL, TRADING => Some 25
  | TRADING, TRADING => Some 20
  | AGGRESSIVE, AGGRESSIVE => Some (-30)
  | AGGRESSIVE, PEACEFUL => Some (-10)
  | EXPANSIONIST, EXPANSIONIST => Some (-20)
  | ISOLATIONIST, ISOLATIONIST => Some 10
  | _, _ => None
  end.

Definition modifier (a b : PersonalityTrait) : Z :=
  default (default 0 (compatibility b a)) (compatibility a b).

Definition _calculate_initial_relations (self other : Civilization) (g : RNG) : Z * RNG :=
  let base_score := 50 + modifier (personality self) (personality other) in
  let '(r, g') := random.randint (-15) 15 g in
  (Z.max 0 (Z.min 100 (base_score + r)), g').

Definition _action_defend (self : Civilization) : Civilization :=
  set_morale (Z.max 0 (morale self - 2)) self.

Definition collapse (cause : string) (self : Civilization) : Civilization :=
  set_death_cause (Some cause) (set_state COLLAPSED (set_is_alive false self)).

Definition process_population_changes (year : Z) (self : Civilization)
    (ch : Chronicle) (g : RNG) : Civilization * Chronicle * RNG :=
  if negb (is_alive self) then (self, ch, g)
  else
    let food_per_capita := get_food_per_capita self in
    let '(self1, ch1) :=
      if Q_ltb food_per_capita (3 # 10) then
        let deaths := int_trunc (inject_Z (population self) * (2 # 100)) in
        let s' := set_morale (Z.max 0 (morale self - 3))
                    (set_population (Z.max 0 (population self - deaths)) self) in
        (s', if 0 <? deaths then Chronicle.log_event year (MsgStarve deaths (name self)) ch
             else ch)
      else if Q_ltb 2 food_per_capita && (50 <? morale self) then
        let births := int_trunc (inject_Z (population self) * (1 # 100)) in
        (set_population (population self + Z.max 1 births) self, ch)
      else (self, ch) in
    let '(r, g1) := random.random g in
    let self2 :=
      if Q_ltb r (1 # 10) then
        let natural_deaths :=
          Z.max 0 (int_trunc (inject_Z (population self1) * (2 # 1000))) in
        set_population (Z.max 0 (population self1 - natural_deaths)) self1
      else self1 in
    if population self2 <? POPULATION_MIN then
      (collapse "population collapse" self2,
       Chronicle.log_major_event year (MsgCollapsed (name self2) "population collapse") ch1,
       g1)
    else if (morale self2 <? MORALE_CRITICAL) && is_alive self2 then
      let '(r2, g2) := random.random g1 in
      if Q_ltb r2 (5 # 1000) then
        (collapse "civil unrest" self2,
         Chronicle.log_major_event year (MsgCollapsed (name self2) "civil unrest") ch1,
         g2)
      else (self2, ch1, g2)
    else (self2, ch1, g1).

(** [_action_diplomacy]: [i] references [self], [nearby] holds references
    to the other civilization objects.  Both dictionaries are updated
    through the references, [self]'s first. *)
Fixpoint _action_diplomacy (i : nat) (nearby : list nat) (s : Simulation) : Simulation :=
  match nearby with
  | [] => update_civ i (set_state IDLE) s
  | j :: rest =>
      match civilizations s !! i, civilizations s !! j with
      | Some self, Some other =>
          if bool_decide (is_Some (relations self !! name other)) then
            _action_diplomacy i rest s
          else
            let '(relation_score, g') :=
              _calculate_initial_relations self other (random_state s) in
            let s1 := set_random_state g' s in
            let s2 := update_civ i (fun c =>
                        set_relations (<[name other := relation_score]> (relations c)) c) s1 in
            let s3 := update_civ j (fun c =>
                        set_relations (<[name self := relation_score]> (relations c)) c) s2 in
            let year := current_year (world s3) in
            if 50 <? relation_score then
              set_chronicle
                (Chronicle.log_event year (MsgFriendly (name self) (name other))
                   (chronicle s3)) s3
            else if relation_score <? 20 then
              set_chronicle
                (Chronicle.log_event year (MsgTensions (name self) (name other))
                   (chronicle s3)) s3
            else s3
      | _, _ => s
      end
  end.

(** Runs a method that mutates the world and [self] on the store. *)
Definition on_world_and_self (i : nat)
    (f : World * Civilization -> World * Civilization) (s : Simulation) : Simulation :=
  match civilizations s !! i with
  | Some self =>
      let '(w', self') := f (world s, self) in
      update_civ i (fun _ => self') (set_world w' s)
  | None => s
  end.

Definition execute_action (i : nat) (nearby : list nat) (s : Simulation) : Simulation :=
  match civilizations s !! i with
  | Some self =>
      if negb (is_alive self) then s
      else
        match state self with
        | IDLE => update_civ i _action_idle s
        | HUNTING => on_world_and_self i _action_hunt s
        | GATHERING => on_world_and_self i _action_gather s
        | EXPANDING => on_world_and_self i _action_expand s
        | DIPLOMACY => _action_diplomacy i nearby s
        | DEFENDING => update_civ i _action_defend s
        | COLLAPSED => update_civ i _action_idle s
        end
  | None => s
  end.

(** [civ.update_state(nearby)] on the store. *)
Definition update_state_at (i : nat) (nearby : list nat) (s : Simulation) : Simulation :=
  match civilizations s !! i with
  | Some self =>
      let others := omap (fun j => civilizations s !! j) nearby in
      let '(self', g') := update_state self others (random_state s) in
      set_random_state g' (update_civ i (fun _ => self') s)
  | None => s
  end.

(** [civ.process_population_changes(chronicle)] on the store. *)
Definition process_population_changes_at (i : nat) (s : Simulation) : Simulation :=
  match civilizations s !! i with
  | Some self =>
      let '(self', ch', g') :=
        process_population_changes (current_year (world s)) self
          (chronicle s) (random_state s) in
      set_random_state g' (set_chronicle ch' (update_civ i (fun _ => self') s))
  | None => s
  end.

End Civilization.

(** ** events.py *)

Inductive RandomEvent :=
| DroughtEvent
| BountifulHarvestEvent
| PlagueEvent
| TechnologicalDiscoveryEvent
| MoraleCrisisEvent.

Module Events.

Definition probability (e : RandomEvent) : Q :=
  match e with
  | DroughtEvent => 1 # 1000
  | BountifulHarvestEvent => 2 # 1000
  | PlagueEvent => 5 # 10000
  | TechnologicalDiscoveryEvent => 1 # 1000
  | MoraleCrisisEvent => 3 # 10000
  end.

Definition should_trigger (e : RandomEvent) (g : RNG) : bool * RNG :=
  let '(r, g') := random.random g in (Q_ltb r (probability e), g').

(** [[(dx, dy) for dx in range(-r, r + 1) for dy in range(-r, r + 1)]]. *)
Definition square_offsets (r : Z) : list (Z * Z) :=
  let span := (fun k => Z.of_nat k - r) <$> seq 0 (Z.to_nat (2 * r + 1)) in
  dx ← span; dy ← span; [(dx, dy)].

(** A loop [for dx ..: for dy ..: cell = world.get_cell(cx + dx, cy + dy);
    if cell: cell.food_resource = f(cell)]. *)
Definition affect_region (f : Cell -> Cell) (cx cy : Z) (offsets : list (Z * Z))
    (w : World) : World :=
  foldl (fun w d => World.update_cell (cx + d.1) (cy + d.2) f w) w offsets.

Definition drought_cell (c : Cell) : Cell :=
  set_food_resource (Z.max 0 (food_resource c - 30)) c.

Definition bountiful_cell (c : Cell) : Cell :=
  set_food_resource (Z.min (max_food c * 2) (food_resource c + 50)) c.

Definition drought_at (cx cy : Z) (w : World) : World :=
  affect_region drought_cell cx cy (square_offsets 3) w.

Definition bountiful_at (cx cy : Z) (w : World) : World :=
  affect_region bountiful_cell cx cy (square_offsets 2) w.

Definition draw_center (s : Simulation) : Result (Z * Z * RNG) :=
  do (center_x, g1) <- random.randint_checked 0 (width (world s) - 1) (random_state s);
  do (center_y, g2) <- random.randint_checked 0 (height (world s) - 1) g1;
  Ok (center_x, center_y, g2).

Definition DroughtEvent_execute (s : Simulation) : Result Simulation :=
  do (center_x, center_y, g) <- draw_center s;
  let w' := drought_at center_x center_y (world s) in
  Ok (set_chronicle
        (Chronicle.log_event (current_year w') (MsgDrought center_x center_y) (chronicle s))
        (set_world w' (set_random_state g s))).

Definition BountifulHarvestEvent_execute (s : Simulation) : Result Simulation :=
  do (center_x, center_y, g) <- draw_center s;
  let w' := bountiful_at center_x center_y (world s) in
  Ok (set_chronicle
        (Chronicle.log_event (current_year w') (MsgBountiful center_x center_y) (chronicle s))
        (set_world w' (set_random_state g s))).

(** [[c for c in civilizations if c.is_alive]], as references. *)
Definition living_civs (civs : list Civilization) : list nat :=
  omap (fun p : nat * Civilization => if is_alive p.2 then Some p.1 else None)
       (imap pair civs).

Definition PlagueEvent_execute (s : Simulation) : Result Simulation :=
  match living_civs (civilizations s) with
  | [] => Ok s
  | living =>
      do (target, g1) <- random.choice living (random_state s);
      match civilizations s !! target with
      | Some t =>
          let '(u, g2) := random.uniform (1 # 10) (3 # 10) g1 in
          let deaths := int_trunc (inject_Z (population t) * u) in
          let s1 := update_civ target (fun c =>
                      set_morale (Z.max 0 (morale c - 20))
                        (set_population (Z.max 10 (population c - deaths)) c))
                      (set_random_state g2 s) in
          Ok (set_chronicle
                (Chronicle.log_major_event (current_year (world s1))
                   (MsgPlague (name t) deaths) (chronicle s1)) s1)
      | None => Raise IndexError
      end
  end.

Definition TechnologicalDiscoveryEvent_execute (s : Simulation) : Result Simulation :=
  match living_civs (civilizations s) with
  | [] => Ok s
  | living =>
      do (target, g1) <- random.choice living (random_state s);
      match civilizations s !! target with
      | Some t =>
          let s1 := update_civ target (fun c =>
                      set_morale (Z.min 100 (morale c + 10))
                        (set_tech_level (tech_level c + 1) c)) s in
          let '(discovery, g2) :=
            random.choice_ne "improved farming techniques"%string
              ["better hunting tools"; "advanced construction methods";
               "new preservation methods"; "improved irrigation"]%string g1 in
          Ok (set_chronicle
                (Chronicle.log_event (current_year (world s1))
                   (MsgDiscovery (name t) discovery (tech_level t + 1)) (chronicle s1))
                (set_random_state g2 s1))
      | None => Raise IndexError
      end
  end.

Definition MoraleCrisisEvent_execute (s : Simulation) : Result Simulation :=
  match living_civs (civilizations s) with
  | [] => Ok s
  | living =>
      do (target, g1) <- random.choice living (random_state s);
      match civilizations s !! target with
      | Some t =>
          let '(morale_loss, g2) := random.randint 5 15 g1 in
          let s1 := update_civ target (fun c =>
                      set_morale (Z.max 0 (morale c - morale_loss)) c) s in
          let '(crisis, g3) :=
            random.choice_ne "religious schism"%string
              ["political scandal"; "failed harvest celebration";
               "disputed succession"]%string g2 in
          Ok (set_chronicle
                (Chronicle.log_event (current_year (world s1))
                   (MsgCrisis crisis (name t) morale_loss) (chronicle s1))
                (set_random_state g3 s1))
      | None => Raise IndexError
      end
  end.

Definition execute (e : RandomEvent) (s : Simulation) : Result Simulation :=
  match e with
  | DroughtEvent => DroughtEvent_execute s
  | BountifulHarvestEvent => BountifulHarvestEvent_execute s
  | PlagueEvent => PlagueEvent_execute s
  | TechnologicalDiscoveryEvent => TechnologicalDiscoveryEvent_execute s
  | MoraleCrisisEvent => MoraleCrisisEvent_execute s
  end.

(** [EventManager.events]. *)
Definition events : list RandomEvent :=
  [DroughtEvent; BountifulHarvestEvent; PlagueEvent;
   TechnologicalDiscoveryEvent; MoraleCrisisEvent].

Definition process_event (e : RandomEvent) (s : Simulation) : Result Simulation :=
  let '(fire, g') := should_trigger e (random_state s) in
  let s1 := set_random_state g' s in
  if fire then execute e s1 else Ok s1.

Fixpoint process_list (es : list RandomEvent) (s : Simulation) : Result Simulation :=
  match es with
  | [] => Ok s
  | e :: rest => do s1 <- process_event e s; process_list rest s1
  end.

Definition process_events (s : Simulation) : Result Simulation :=
  process_list events s.

End Events.

(** ** simulation.py *)

Module Simulation.

Definition __init__ (world_width world_height : Z) (v : bool) (g : RNG) : Simulation :=
  let '(w, g') := World.__init__ world_width world_height g in
  {| world := w; civilizations := []; chronicle := Chronicle.__init__ v;
     running := false; verbose := v; random_state := g' |}.

(** The inner loop [for civ in self.civilizations: ... if distance < 6]. *)
Definition too_close (x y : Z) (civs : list Civilization) : bool :=
  existsb (fun civ => Z.abs (x - (capital civ).1) + Z.abs (y - (capital civ).2) <? 6) civs.

(** A candidate passes the tests of the placement loop. *)
Definition acceptable (s : Simulation) (x y : Z) : bool :=
  match World.get_cell (world s) x y with
  | Some cell =>
      Cell.is_passable cell && bool_decide (owner cell = None)
      && negb (too_close x y (civilizations s))
  | None => false
  end.

(** The loop [while attempts < 100], counted down. *)
Fixpoint find_start (remaining : nat) (s : Simulation) (g : RNG)
  : Result (option (Z * Z) * RNG) :=
  match remaining with
  | O => Ok (None, g)
  | S n =>
      do (x, g1) <- random.randint_checked 2 (width (world s) - 3) g;
      do (y, g2) <- random.randint_checked 2 (height (world s) - 3) g1;
      if acceptable s x y then Ok (Some (x, y), g2)
      else find_start n s g2
  end.

(** The civilization object returned to the caller is the last one of
    the list of the resulting store. *)
Definition add_civilization (nm : string) (start_x start_y : option Z) (s : Simulation)
  : Result Simulation :=
  do (sx, sy, g1) <-
    match start_x, start_y with
    | Some _, Some _ => Ok (start_x, start_y, random_state s)
    | _, _ =>
        do (found, g') <- find_start 100 s (random_state s);
        match found with
        | Some (x, y) => Ok (Some x, Some y, g')
        | None =>
            match start_x with
            | None => Raise ValueError
            | Some _ => Ok (start_x, start_y, g')
            end
        end
    end;
  match sx, sy with
  | Some x, Some y =>
      let '(w', civ, g2) := Civilization.__init__ nm x y (world s) g1 in
      let s1 := set_random_state g2
                  (set_civilizations (civilizations s ++ [civ]) (set_world w' s)) in
      Ok (set_chronicle
            (Chronicle.log_major_event (current_year (world s1))
               (MsgFounded nm x y (population civ) (personality civ)) (chronicle s1)) s1)
  | _, _ => Raise TypeError
  end.

(** The two inner loops of [get_nearby_civilizations] for one [other],
    referenced by [j]. *)
Definition nearby_step (w : World) (j : nat) (other : Civilization)
    (nearby : list nat) (xy : Z * Z) : list nat :=
  if existsb (fun neighbor => bool_decide (owner neighbor = Some (name other)))
             (World.get_neighbors w xy.1 xy.2)
  then if bool_decide (j ∈ nearby) then nearby else nearby ++ [j]
  else nearby.

Definition get_nearby_civilizations (s : Simulation) (civ : Civilization) : list nat :=
  foldl (fun nearby (p : nat * Civilization) =>
           let '(j, other) := p in
           if bool_decide (name other = name civ) || negb (is_alive other) then nearby
           else foldl (nearby_step (world s) j other) nearby (territory civ))
        [] (imap pair (civilizations s)).

(** The body of the loop [for civ in self.civilizations] of step 3. *)
Definition civ_turn (s : Simulation) (i : nat) : Simulation :=
  match civilizations s !! i with
  | Some civ =>
      if negb (is_alive civ) then s
      else
        let nearby := get_nearby_civilizations s civ in
        let s1 := Civilization.update_state_at i nearby s in
        Civilization.execute_action i nearby s1
  | None => s
  end.

Definition all_civs (s : Simulation) : list nat := seq 0 (length (civilizations s)).

Definition civilization_actions (s : Simulation) : Simulation :=
  foldl civ_turn s (all_civs s).

Definition population_changes (s : Simulation) : Simulation :=
  foldl (fun s i => Civilization.process_population_changes_at i s) s (all_civs s).

Definition tick (s : Simulation) : Result Simulation :=
  let s1 := set_world (World.update_climate (world s)) s in
  let s2 := set_world (World.update_resources (world s1)) s1 in
  let s3 := civilization_actions s2 in
  do s4 <- Events.process_events s3;
  let s5 := population_changes s4 in
  Ok (set_world (World.advance_day (world s5)) s5).

(** The loop [for day in range(days)] of [run].  [display_status] only
    prints, but its guard divides by [display_interval].  [clock] is the
    wall-clock time, which [time.sleep(delay)] advances. *)
Fixpoint run_loop (start_tick display_interval : Z) (delay : Q) (days : nat)
    (s : Simulation) (clock : Q) : Result (Simulation * Q) :=
  match days with
  | O => Ok (s, clock)
  | S d =>
      if negb (running s) then Ok (s, clock)
      else
        do s1 <- tick s;
        match Events.living_civs (civilizations s1) with
        | [] =>
            Ok (set_chronicle
                  (Chronicle.log_major_event (current_year (world s1)) MsgAllPerished
                     (chronicle s1)) s1, clock)
        | _ =>
            if display_interval =? 0 then Raise ZeroDivisionError
            else
              let clock' := if Q_ltb 0 delay then (clock + delay)%Q else clock in
              run_loop start_tick display_interval delay d s1 clock'
        end
  end.

Definition run (days display_interval : Z) (delay : Q) (s : Simulation) (clock : Q)
  : Result (Simulation * Q) :=
  let s0 := set_running true s in
  do (s1, clock') <-
    run_loop (current_day (world s0)) display_interval delay (Z.to_nat days) s0 clock;
  Ok (set_running false s1, clock').

Definition stop (s : Simulation) : Simulation := set_running false s.

End Simulation.

(** ** main.py *)

Module Main.

Definition prefixes : list string :=
  ["The"; "Clan"; "House"; "Kingdom of"; "Tribe of"; "Order of"]%string.
Definition cultures : list string :=
  ["Elves"; "Dwarves"; "Humans"; "Orcs"; "Goblins"; "Gnomes"]%string.
Definition suffixes : list string :=
  ["of the North"; "of the Mountains"; "of the Plains"; "of the Forest";
   "the Brave"; "the Wise"]%string.

(** One iteration of the loop of [create_civilization_names]. *)
Definition name_step (acc : list string * list string * RNG)
  : Result (list string * list string * RNG) :=
  let '(names, used_cultures, g) := acc in
  do (culture, g1) <-
    random.choice (filter (fun c => c ∉ used_cultures) cultures) g;
  let '(r, g2) := random.random g1 in
  if Q_ltb r (1 # 2) then
    do (prefix, g3) <- random.choice prefixes g2;
    Ok (names ++ [(prefix ++ " " ++ culture)%string], culture :: used_cultures, g3)
  else
    do (suffix, g3) <- random.choice suffixes g2;
    Ok (names ++ [(culture ++ " " ++ suffix)%string], culture :: used_cultures, g3).

Definition create_civilization_names (g : RNG) : Result (list string * RNG) :=
  do acc1 <- name_step ([], [], g);
  do (names, _, g2) <- name_step acc1;
  Ok (names, g2).

Fixpoint add_all (names : list string) (s : Simulation) : Result Simulation :=
  match names with
  | [] => Ok s
  | nm :: rest => do s1 <- Simulation.add_civilization nm None None s; add_all rest s1
  end.

(** A whole run: the world is created, the civilizations are founded
    and [run] is called.  [g] is the generator state left by
    [random.seed]; [delay] is the [delay] argument of [run]; [clock] is
    the wall-clock time at the start. *)
Definition simulate (g : RNG) (map_size : Z) (quiet : bool) (years : Z) (delay : Q)
    (clock : Q) : Result (Simulation * Q) :=
  let sim := Simulation.__init__ map_size map_size (negb quiet) g in
  do (civ_names, g1) <- create_civilization_names (random_state sim);
  do sim1 <- add_all civ_names (set_random_state g1 sim);
  Simulation.run (years * 365) 365 delay sim1 clock.

(** [main] calls [run] without a delay. *)
Definition main (g : RNG) (map_size : Z) (quiet : bool) (years : Z) (clock : Q)
  : Result (Simulation * Q) :=
  simulate g map_size quiet years 0 clock.

End Main.

(** ** Driver scripts

    The states a program can observe between calls are those produced by
    a sequence of calls of the public interface on a fresh simulation. *)

Inductive Call :=
| CallAdd (nm : string) (start_x start_y : option Z)
| CallTick
| CallRun (days display_interval : Z) (delay : Q).

Definition call (c : Call) (s : Simulation) : Result Simulation :=
  match c with
  | CallAdd nm sx sy => Simulation.add_civilization nm sx sy s
  | CallTick => Simulation.tick s
  | CallRun days display_interval delay =>
      do (s', _) <- Simulation.run days display_interval delay s 0%Q; Ok s'
  end.

Fixpoint exec (cs : list Call) (s : Simulation) : Result Simulation :=
  match cs with
  | [] => Ok s
  | c :: rest => do s1 <- call c s; exec rest s1
  end.

(** The operations one tick is made of, in the order it performs them. *)
Inductive Op :=
| OpClimate
| OpResources
| OpCivTurn (i : nat)
| OpEvent (e : RandomEvent)
| OpPopulation (i : nat)
| OpAdvanceDay.

Definition exec_op (o : Op) (s : Simulation) : Result Simulation :=
  match o with
  | OpClimate => Ok (set_world (World.update_climate (world s)) s)
  | OpResources => Ok (set_world (World.update_resources (world s)) s)
  | OpCivTurn i => Ok (Simulation.civ_turn s i)
  | OpEvent e => Events.process_event e s
  | OpPopulation i => Ok (Civilization.process_population_changes_at i s)
  | OpAdvanceDay => Ok (set_world (World.advance_day (world s)) s)
  end.

Fixpoint exec_ops (os : list Op) (s : Simulation) : Result Simulation :=
  match os with
  | [] => Ok s
  | o :: rest => do s1 <- exec_op o s; exec_ops rest s1
  end.

Definition tick_ops (s : Simulation) : list Op :=
  [OpClimate; OpResources]
  ++ (OpCivTurn <$> Simulation.all_civs s)
  ++ (OpEvent <$> Events.events)
  ++ (OpPopulation <$> Simulation.all_civs s)
  ++ [OpAdvanceDay].

(** ** Specification predicates *)

(** The bounds of the food stock of a cell. *)
Definition food_ok (c : Cell) : Prop := 0 <= food_resource c <= 2 * max_food c.

(** A property of every cell object stored in the grid. *)
Definition all_cells (P : Cell -> Prop) (w : World) : Prop :=
  Forall (Forall P) (grid w).

(** The owner recorded at a coordinate: [None] outside the grid. *)
Definition owner_at (w : World) (x y : Z) : option (option string) :=
  owner <$> World.get_cell w x y.

#[global] Arguments floor : simpl never.
#[global] Arguments int_trunc : simpl never.
#[global] Arguments random.random : simpl never.
#[global] Arguments random.randint : simpl never.
#[global] Arguments random.choice : simpl never.
#[global] Arguments random.choice_ne : simpl never.
#[global] Arguments random.uniform : simpl never.

(** The square of half-width [r] around [(cx, cy)]. *)
Definition in_square (r cx cy x y : Z) : Prop :=
  Z.abs (x - cx) <= r /\ Z.abs (y - cy) <= r.

#[export] Instance in_square_dec r cx cy x y : Decision (in_square r cx cy x y).
Proof. unfold in_square. apply _. Defined.

#[export] Instance Q_lt_dec : RelDecision Qlt.
Proof.
  intros a b. destruct (Qlt_le_dec a b) as [H|H]; [left; exact H | right].
  intros H'. exact (Qlt_not_le _ _ H' H).
Defined.

(** Some civilization of [nearby] has no entry in the relations of [self]. *)
Definition unmet_neighbour (self : Civilization) (nearby : list Civilization) : Prop :=
  Exists (fun other => relations self !! name other = None) nearby.

(** The transition rules of [update_state] as the specification words
    them: the first rule that matches, in priority order, gives the new
    state.  [draw] is the random draw of the tick. *)
Definition next_state (self : Civilization) (nearby : list Civilization) (draw : Q)
  : CivilizationState :=
  let fpc := Civilization.get_food_per_capita self in
  if decide (fpc < 20)%Q then HUNTING
  else if decide (fpc < 50)%Q then GATHERING
  else if decide (unmet_neighbour self nearby /\ state self <> DIPLOMACY) then DIPLOMACY
  else if decide ((150 < fpc)%Q /\ (length (territory self) < 30)%nat) then
    if decide (personality self = EXPANSIONIST \/ personality self = AGGRESSIVE)
    then EXPANDING
    else if decide (draw < 3 # 10)%Q then EXPANDING else IDLE
  else IDLE.

(** The candidates drawn by the placement loop, in order. *)
Fixpoint candidates (n : nat) (s : Simulation) (g : RNG) : list (Z * Z) :=
  match n with
  | O => []
  | S n' =>
      let '(x, g1) := random.randint 2 (width (world s) - 3) g in
      let '(y, g2) := random.randint 2 (height (world s) - 3) g1 in
      (x, y) :: candidates n' s g2
  end.

(** Manhattan distance. *)
Definition manhattan (p q : Z * Z) : Z := Z.abs (p.1 - q.1) + Z.abs (p.2 - q.2).

(** A generator used to run the model on concrete inputs. *)
Definition demo_rng : RNG :=
  {| random.tape := fun n => ((Z.of_nat n + 1) * 6364136223846793005) mod 2 ^ 53;
     random.cursor := 0 |}.

(** Every cell object sits at the coordinates it carries. *)
Definition coords_ok (w : World) : Prop :=
  forall x y c, World.get_cell w x y = Some c -> cell_x c = x /\ cell_y c = y.

(** Territory and ownership agree: every listed coordinate is a cell
    owned by the name of the civilization listing it, no coordinate is
    listed twice, and no coordinate is listed by two civilizations. *)
Record land_ok (w : World) (civs : list Civilization) : Prop := {
  land_owned : forall i c xy,
    civs !! i = Some c -> xy ∈ territory c ->
    owner_at w xy.1 xy.2 = Some (Some (name c));
  land_nodup : forall i c, civs !! i = Some c -> NoDup (territory c);
  land_disjoint : forall i j ci cj xy,
    i <> j -> civs !! i = Some ci -> civs !! j = Some cj ->
    xy ∈ territory ci -> xy ∉ territory cj
}.

(** Stockpile and population are not negative. *)
Definition civ_ok (c : Civilization) : Prop := 0 <= food c /\ 0 <= population c.

(** A civilization is either alive with at least the minimum population,
    or collapsed with its cause recorded. *)
Definition settled (c : Civilization) : Prop :=
  (is_alive c = true /\ Civilization.POPULATION_MIN <= population c)
  \/ (is_alive c = false /\ state c = COLLAPSED /\ is_Some (death_cause c)).

(** What may happen to one civilization object between two moments: its
    identity is fixed, its territory only grows at the end, and once it is
    not alive nothing of it changes. *)
Definition evolves (c c' : Civilization) : Prop :=
  name c' = name c /\ personality c' = personality c /\ capital c' = capital c
  /\ territory c `prefix_of` territory c'
  /\ (is_alive c = false -> c' = c).

(** Every civilization object of the first list is still there, at the
    same index, and has evolved. *)
Definition advances (civs civs' : list Civilization) : Prop :=
  forall i c, civs !! i = Some c -> exists c', civs' !! i = Some c' /\ evolves c c'.

(** Names identify civilizations; relation scores are symmetric; only
    existing civilizations have a score. *)
Record rel_ok (civs : list Civilization) : Prop := {
  rel_names : NoDup (name <$> civs);
  rel_symmetric : forall i j ci cj,
    civs !! i = Some ci -> civs !! j = Some cj ->
    relations ci !! name cj = relations cj !! name ci;
  rel_known : forall i ci n,
    civs !! i = Some ci -> is_Some (relations ci !! n) -> n ∈ name <$> civs
}.

(** Relation scores that exist are kept. *)
Definition keeps_relations (civs civs' : list Civilization) : Prop :=
  forall i c, civs !! i = Some c ->
    exists c', civs' !! i = Some c' /\ relations c ⊆ relations c'.


(** The grid keeps its dimensions. *)
Definition same_size (w w' : World) : Prop :=
  width w' = width w /\ height w' = height w.

(** The invariant of the store. *)
Record Inv (s : Simulation) : Prop := {
  inv_coords : coords_ok (world s);
  inv_land : land_ok (world s) (civilizations s);
  inv_cells : all_cells food_ok (world s);
  inv_civs : Forall civ_ok (civilizations s);
  inv_settled : Forall settled (civilizations s)
}.

(** A transition of the store that keeps the invariant, lets every
    civilization object evolve and keeps the established relations. *)
Definition sound (s s' : Simulation) : Prop :=
  (Inv s -> Inv s')
  /\ same_size (world s) (world s')
  /\ Forall2 evolves (civilizations s) (civilizations s')
  /\ (rel_ok (civilizations s) ->
      rel_ok (civilizations s') /\ keeps_relations (civilizations s) (civilizations s')).

(** A sound transition that leaves every relations dictionary alone. *)
Definition quiet (s s' : Simulation) : Prop :=
  (Inv s -> Inv s')
  /\ same_size (world s) (world s')
  /\ Forall2 (fun c c' => evolves c c' /\ relations c' = relations c)
             (civilizations s) (civilizations s').

(** No change, or a change of a live civilization that touches neither
    its identity, its territory nor its relations. *)
Definition benign (c c' : Civilization) : Prop :=
  c' = c
  \/ (is_alive c = true
      /\ name c' = name c /\ personality c' = personality c /\ capital c' = capital c
      /\ territory c' = territory c /\ relations c' = relations c
      /\ (civ_ok c -> civ_ok c') /\ (settled c -> settled c')).

(** A change of the world that keeps coordinates, owners and food bounds. *)
Definition tame (w w' : World) : Prop :=
  same_size w w'
  /\ (coords_ok w -> coords_ok w')
  /\ (forall x y, owner_at w' x y = owner_at w x y)
  /\ (all_cells food_ok w -> all_cells food_ok w').

(** A change of a cell that keeps its coordinates, owner and food bounds. *)
Definition calm (f : Cell -> Cell) : Prop :=
  forall c, cell_x (f c) = cell_x c /\ cell_y (f c) = cell_y c
            /\ owner (f c) = owner c /\ (food_ok c -> food_ok (f c)).

(** No change, or a change of a live civilization that touches neither
    its identity nor its territory. *)
Definition mild (c c' : Civilization) : Prop :=
  c' = c
  \/ (is_alive c = true
      /\ name c' = name c /\ personality c' = personality c /\ capital c' = capital c
      /\ territory c' = territory c
      /\ (civ_ok c -> civ_ok c') /\ (settled c -> settled c')).

(** The references handed to a civilization as its neighbours: live
    civilizations other than itself. *)
Definition neighbours_ok (civs : list Civilization) (i : nat) (nearby : list nat) : Prop :=
  Forall (fun j => j <> i /\ exists other, civs !! j = Some other /\ is_alive other = true)
         nearby.

(** The assignment [c.relations[key] = v]. *)
Definition establish (key : string) (v : Z) (c : Civilization) : Civilization :=
  set_relations (<[key := v]> (relations c)) c.

(** The names of the civilizations, in founding order. *)
Definition names (s : Simulation) : list string := name <$> civilizations s.

(** What a sequence of calls may do to the store: the invariant is kept,
    every civilization object evolves, new ones are only added at the
    end, and while names stay distinct the relations stay symmetric and
    established scores are kept. *)
Definition grows (s s' : Simulation) : Prop :=
  (Inv s -> Inv s')
  /\ same_size (world s) (world s')
  /\ advances (civilizations s) (civilizations s')
  /\ names s `prefix_of` names s'
  /\ (NoDup (names s') -> rel_ok (civilizations s) ->
      rel_ok (civilizations s') /\ keeps_relations (civilizations s) (civilizations s')).

(** What the claiming loop keeps true of the world and the new
    civilization, the other civilizations being [civs]. *)
Definition founding (civs : list Civilization) (w0 : World) (self0 : Civilization)
    (st : World * Civilization) : Prop :=
  same_size w0 st.1
  /\ (coords_ok w0 -> all_cells food_ok w0 -> land_ok w0 civs ->
      coords_ok st.1 /\ all_cells food_ok st.1 /\ land_ok st.1 (civs ++ [st.2]))
  /\ name st.2 = name self0 /\ food st.2 = food self0
  /\ population st.2 = population self0 /\ is_alive st.2 = is_alive self0
  /\ state st.2 = state self0 /\ death_cause st.2 = death_cause self0
  /\ relations st.2 = relations self0.



(** A fresh 10 x 10 simulation and two founding calls, used to run the
    model on concrete inputs. *)
Abbreviation demo_init := (Simulation.__init__ 10 10 false demo_rng).

Definition demo_founding : list Call :=
  [CallAdd "A" (Some 3) (Some 3); CallAdd "B" (Some 6) (Some 3)].

Definition demo_ticks : list Call := [CallTick; CallTick; CallTick].

(** Whether a call returned rather than raised. *)
Definition succeeds {A} (r : Result A) : bool :=
  match r with
  | Ok _ => true
  | Raise _ => false
  end.

(** The store of a result, for results known to be [Ok]. *)
Definition the_store (r : Result Simulation) : Simulation :=
  match r with
  | Ok s => s
  | Raise _ => demo_init
  end.

(** The demonstration store after the two foundings, and after three
    further ticks. *)
Definition demo_founded : Simulation := the_store (exec demo_founding demo_init).

Definition demo_later : Simulation := the_store (exec demo_ticks demo_founded).

(** Operations of a tick under way on the demonstration store, and the
    store they leave. *)
Definition demo_ops : list Op :=
  [OpClimate; OpResources; OpCivTurn 0; OpCivTurn 1; OpEvent DroughtEvent; OpPopulation 0].

Definition demo_mid : Simulation := the_store (exec_ops demo_ops demo_founded).




(** * Verification *)

(** ** Arithmetic on rationals *)

Lemma Q_ltb_lt (a b : Q) : Q_ltb a b = true <-> (a < b)%Q.
Proof.
  unfold Q_ltb. rewrite negb_true_iff, <- not_true_iff_false, Qle_bool_iff.
  split; [apply Qnot_le_lt | apply Qlt_not_le].
Qed.

Lemma int_trunc_nonneg (q : Q) : (0 <= q)%Q -> 0 <= int_trunc q.
Proof.
  destruct q as [n d]. unfold Qle, int_trunc. simpl. intros H.
  apply Z.quot_pos; lia.
Qed.


Lemma scale_nonneg (m : Z) (r : Q) : 0 <= m -> (0 <= r)%Q -> (0 <= inject_Z m * r)%Q.
Proof.
  intros Hm Hr. apply Qmult_le_0_compat; [|done].
  unfold Qle. simpl. lia.
Qed.

(** Food per capita above a whole threshold, for a positive population. *)
Lemma ratio_gt (f p k : Z) :
  0 < p -> Q_ltb (inject_Z k) (inject_Z f / inject_Z p) = true -> k * p < f.
Proof.
  intros Hp. rewrite Q_ltb_lt. destruct p as [|pp|pp]; try lia.
  unfold Qlt, Qdiv, Qmult, Qinv, inject_Z. simpl. lia.
Qed.

(** ** The random module *)

Lemma randint_range (a b : Z) (g : RNG) :
  a <= b -> a <= (random.randint a b g).1 <= b.
Proof.
  intros H. unfold random.randint. simpl.
  pose proof (Z.mod_pos_bound (random.tape g (random.cursor g)) (b - a + 1)). lia.
Qed.

Lemma choice_elem {A} (l : list A) (g : RNG) x g' :
  random.choice l g = Ok (x, g') -> x ∈ l.
Proof.
  destruct l as [|d l]; [done|]. unfold random.choice.
  remember (d :: l) as k eqn:Hk.
  assert (0 < Z.of_nat (length k)) as Hlen by (subst k; simpl; lia).
  simpl. intros [= <- _]. apply list_elem_of_In, nth_In.
  pose proof (Z.mod_pos_bound (random.tape g (random.cursor g))
                (Z.of_nat (length k)) Hlen) as Hb.
  lia.
Qed.

(** ** Cells *)

Lemma regenerate_food_water (rate : Q) (c : Cell) :
  terrain c = WATER -> Cell.regenerate_food rate c = c.
Proof.
  intros H. unfold Cell.regenerate_food.
  rewrite bool_decide_eq_false_2; [done | intros Hn; by apply Hn].
Qed.

Lemma regenerate_food_ok (rate : Q) (c : Cell) :
  (0 <= rate)%Q -> food_ok c -> food_ok (Cell.regenerate_food rate c).
Proof.
  unfold food_ok, Cell.regenerate_food. intros Hr Hc.
  case_bool_decide; [|done]. simpl.
  assert (0 <= int_trunc (inject_Z (max_food c) * rate))
    by (apply int_trunc_nonneg, scale_nonneg; [lia | done]).
  lia.
Qed.

Lemma harvest_food_ok (amount : Z) (c : Cell) :
  0 <= amount -> food_ok c -> food_ok (Cell.harvest_food amount c).1.
Proof. unfold food_ok, Cell.harvest_food. simpl. lia. Qed.

Lemma harvest_food_amount (amount : Z) (c : Cell) :
  0 <= amount -> food_ok c -> 0 <= (Cell.harvest_food amount c).2.
Proof. unfold food_ok, Cell.harvest_food. simpl. lia. Qed.

Lemma drought_cell_ok (c : Cell) : food_ok c -> food_ok (Events.drought_cell c).
Proof. unfold food_ok, Events.drought_cell. simpl. lia. Qed.

Lemma bountiful_cell_ok (c : Cell) : food_ok c -> food_ok (Events.bountiful_cell c).
Proof. unfold food_ok, Events.bountiful_cell. simpl. lia. Qed.

Lemma update_climate_cell_ok (m : Z) (c : Cell) : food_ok c -> food_ok (Cell.update_climate m c).
Proof. done. Qed.

Lemma set_owner_ok (o : option string) (c : Cell) : food_ok c -> food_ok (set_owner o c).
Proof. done. Qed.

Lemma cell_init_ok (x y : Z) (g : RNG) : food_ok (Cell.__init__ x y g).1.
Proof.
  unfold Cell.__init__.
  destruct (random.randint 0 100 g) as [alt g1].
  destruct (random.randint (-20) 40 g1) as [bt g2].
  destruct (Cell._generate_terrain alt bt g2) as [t g3].
  destruct (Cell._generate_mineral t g3) as [m g4].
  unfold Cell._initial_food.
  pose proof (randint_range 50 100 g4 ltac:(lia)) as H1.
  destruct (random.randint 50 100 g4) as [f1 h1].
  pose proof (randint_range 80 150 h1 ltac:(lia)) as H2.
  destruct (random.randint 80 150 h1) as [f2 h2].
  pose proof (randint_range 10 30 h2 ltac:(lia)) as H3.
  destruct (random.randint 10 30 h2) as [f3 h3].
  pose proof (randint_range 60 120 h3 ltac:(lia)) as H4.
  destruct (random.randint 60 120 h3) as [f4 h4].
  pose proof (randint_range 5 20 h4 ltac:(lia)) as H5.
  destruct (random.randint 5 20 h4) as [f5 h5].
  unfold food_ok. simpl in *. destruct t; lia.
Qed.

(** ** The grid *)

Lemma get_cell_update_cell (w : World) (x y x' y' : Z) (f : Cell -> Cell) :
  World.get_cell (World.update_cell x y f w) x' y'
  = if decide (x = x' /\ y = y') then f <$> World.get_cell w x' y'
    else World.get_cell w x' y'.
Proof.
  unfold World.update_cell, World.get_cell.
  destruct ((0 <=? x) && (x <? width w) && (0 <=? y) && (y <? height w)) eqn:Hb.
  - simpl.
    destruct ((0 <=? x') && (x' <? width w) && (0 <=? y') && (y' <? height w)) eqn:Hb'.
    + rewrite !andb_true_iff in Hb, Hb'.
      rewrite list_lookup_alter.
      destruct (decide (Z.to_nat y = Z.to_nat y')) as [Hy|Hy].
      * assert (y = y') as -> by lia.
        destruct (grid w !! Z.to_nat y') as [row|]; simpl.
        -- rewrite list_lookup_alter.
           destruct (decide (Z.to_nat x = Z.to_nat x')) as [Hx|Hx].
           ++ assert (x = x') as -> by lia. by rewrite decide_True.
           ++ rewrite decide_False; [done | lia].
        -- by destruct (decide _).
      * rewrite decide_False; [done | lia].
    + by destruct (decide _).
  - destruct (decide (x = x' /\ y = y')) as [[-> ->]|]; [|done].
    unfold World.get_cell. by rewrite Hb.
Qed.

Lemma get_cell_update_cell_eq (w : World) (x y : Z) (f : Cell -> Cell) :
  World.get_cell (World.update_cell x y f w) x y = f <$> World.get_cell w x y.
Proof. rewrite get_cell_update_cell. by rewrite decide_True. Qed.

Lemma get_cell_update_cell_ne (w : World) (x y x' y' : Z) (f : Cell -> Cell) :
  (x, y) <> (x', y') ->
  World.get_cell (World.update_cell x y f w) x' y' = World.get_cell w x' y'.
Proof.
  intros H. rewrite get_cell_update_cell. rewrite decide_False; [done|].
  intros [-> ->]. by apply H.
Qed.

Lemma get_cell_map_cells (w : World) (f : Cell -> Cell) (x y : Z) :
  World.get_cell (set_grid (World.map_cells f (grid w)) w) x y
  = f <$> World.get_cell w x y.
Proof.
  unfold World.get_cell, World.map_cells. simpl.
  destruct (_ && _); [|done].
  rewrite list_lookup_fmap. destruct (grid w !! Z.to_nat y) as [row|]; [|done].
  simpl. by rewrite list_lookup_fmap.
Qed.

Lemma get_cell_advance_day (w : World) (x y : Z) :
  World.get_cell (World.advance_day w) x y = World.get_cell w x y.
Proof. done. Qed.

Lemma get_cell_elem (w : World) (x y : Z) (c : Cell) :
  World.get_cell w x y = Some c -> exists row, row ∈ grid w /\ c ∈ row.
Proof.
  unfold World.get_cell. destruct (_ && _); [|done].
  destruct (grid w !! Z.to_nat y) as [row|] eqn:Hr; [|done]. simpl.
  intros Hc. exists row. split; eapply list_elem_of_lookup_2; eauto.
Qed.

Lemma all_cells_get (P : Cell -> Prop) (w : World) (x y : Z) (c : Cell) :
  all_cells P w -> World.get_cell w x y = Some c -> P c.
Proof.
  intros Hall Hget. destruct (get_cell_elem _ _ _ _ Hget) as (row & Hr & Hc).
  unfold all_cells in Hall. rewrite Forall_forall in Hall.
  specialize (Hall row Hr). rewrite Forall_forall in Hall. by apply Hall.
Qed.

Lemma all_cells_update_cell (P : Cell -> Prop) (x y : Z) (f : Cell -> Cell) (w : World) :
  (forall c, P c -> P (f c)) -> all_cells P w -> all_cells P (World.update_cell x y f w).
Proof.
  intros Hf Hall. unfold World.update_cell. destruct (_ && _); [|done].
  unfold all_cells in *. simpl.
  apply Forall_alter; [done|]. intros row _ Hrow.
  apply Forall_alter; [done|]. intros c _. apply Hf.
Qed.

Lemma all_cells_map_cells (P : Cell -> Prop) (f : Cell -> Cell) (w : World) :
  (forall c, P c -> P (f c)) -> all_cells P w ->
  all_cells P (set_grid (World.map_cells f (grid w)) w).
Proof.
  intros Hf Hall. unfold all_cells, World.map_cells in *. simpl.
  apply Forall_fmap. eapply Forall_impl; [exact Hall|].
  intros row Hrow. simpl. apply Forall_fmap. eapply Forall_impl; [exact Hrow|].
  intros c. apply Hf.
Qed.

Lemma foldl_preserves {A B} (P : A -> Prop) (f : A -> B -> A) (l : list B) (a : A) :
  (forall a b, P a -> P (f a b)) -> P a -> P (foldl f a l).
Proof.
  intros Hf. revert a. induction l as [|b l IH]; intros a Ha; simpl; [done|].
  apply IH, Hf, Ha.
Qed.

Lemma the_store_ok (r : Result Simulation) : succeeds r = true -> r = Ok (the_store r).
Proof. by destruct r. Qed.

(** ** C10: what [regenerate_food] computes *)




(** ** C4: the transition function *)

Lemma has_unmet_iff (self : Civilization) (nearby : list Civilization) :
  Civilization.has_unmet self nearby = true <-> unmet_neighbour self nearby.
Proof.
  unfold Civilization.has_unmet, unmet_neighbour.
  rewrite existsb_exists, Exists_exists. split.
  - intros (o & Hin & Hb). exists o. split; [by apply list_elem_of_In|].
    by apply bool_decide_eq_true in Hb.
  - intros (o & Hin & Hb). exists o. split; [by apply list_elem_of_In|].
    by apply bool_decide_eq_true.
Qed.

Lemma Q_ltb_decide (a b : Q) : Q_ltb a b = bool_decide (a < b)%Q.
Proof.
  destruct (Q_ltb a b) eqn:H.
  - symmetry. apply bool_decide_eq_true. by apply Q_ltb_lt.
  - symmetry. apply bool_decide_eq_false. intros Hlt.
    apply Q_ltb_lt in Hlt. congruence.
Qed.

(** C4: on a live civilization [update_state] assigns the state given by
    the first matching rule, in the order Hunting (food per capita below
    20), Gathering (below 50), Diplomacy (a nearby civilization without a
    relation entry while not already in Diplomacy), Expanding (food per
    capita above 150 and fewer than 30 cells: always for expansionist and
    aggressive personalities, otherwise when the random draw is below
    0.3), Idle; on a civilization that is not alive it changes nothing. *)
Theorem C4_update_state_rules (self : Civilization) (nearby : list Civilization) (g : RNG) :
  (Civilization.update_state self nearby g).1
  = (if is_alive self
     then set_state (next_state self nearby (random.random g).1) self
     else self)
  /\ (if is_alive self then True
      else Civilization.update_state self nearby g = (self, g)).
Proof.
  unfold Civilization.update_state, next_state.
  destruct (is_alive self); simpl; [|done]. split; [|done].
  unfold Civilization.FOOD_STARVING, Civilization.FOOD_LOW, Civilization.FOOD_EXCESS.
  rewrite !Q_ltb_decide.
  change (inject_Z 20) with (20%Q). change (inject_Z 50) with (50%Q).
  change (inject_Z 150) with (150%Q).
  set (fpc := Civilization.get_food_per_capita self).
  destruct (decide (fpc < 20)%Q) as [H1|H1].
  { by rewrite bool_decide_eq_true_2. }
  rewrite (bool_decide_eq_false_2 _ H1).
  destruct (decide (fpc < 50)%Q) as [H2|H2].
  { by rewrite bool_decide_eq_true_2. }
  rewrite (bool_decide_eq_false_2 _ H2).
  destruct (decide (unmet_neighbour self nearby /\ state self <> DIPLOMACY)) as [[H3 H3']|H3].
  { rewrite (proj2 (has_unmet_iff _ _) H3), (bool_decide_eq_true_2 _ H3').
    rewrite bool_decide_eq_false_2; [done|].
    intros ->. unfold unmet_neighbour in H3. by apply Exists_nil in H3. }
  assert ((negb (bool_decide (nearby = [])) && bool_decide (state self <> DIPLOMACY)
           && Civilization.has_unmet self nearby) = false) as ->.
  { apply not_true_iff_false. rewrite !andb_true_iff.
    intros [[_ Ha] Hb]. apply H3. split; [by apply has_unmet_iff|].
    by apply bool_decide_eq_true in Ha. }
  destruct (decide ((150 < fpc)%Q /\ (length (territory self) < 30)%nat)) as [[H4 H4']|H4].
  - rewrite (bool_decide_eq_true_2 _ H4).
    assert ((Z.of_nat (length (territory self)) <? 30) = true) as -> by (apply Z.ltb_lt; lia).
    simpl.
    destruct (decide (personality self = EXPANSIONIST \/ personality self = AGGRESSIVE))
      as [[->| ->]|H5]; [done|done|].
    rewrite !bool_decide_eq_false_2 by tauto. simpl.
    unfold random.random. simpl.
    case_bool_decide; destruct (decide _); done.
  - assert ((bool_decide (150 < fpc)%Q && (Z.of_nat (length (territory self)) <? 30)) = false) as ->;
      [|done].
    apply not_true_iff_false. rewrite andb_true_iff, Z.ltb_lt.
    intros [Ha Hb]. apply H4. apply bool_decide_eq_true in Ha. split; [done | lia].
Qed.

(** ** C7: the footprint of a drought *)

Lemma drought_cell_amount (c : Cell) :
  Events.drought_cell c
  = set_food_resource (food_resource c - Z.min (food_resource c) 30) c.
Proof. unfold Events.drought_cell. f_equal. lia. Qed.

Lemma get_cell_affect_region (f : Cell -> Cell) (cx cy : Z) (offs : list (Z * Z))
    (w : World) (x y : Z) :
  NoDup offs ->
  World.get_cell (Events.affect_region f cx cy offs w) x y
  = if decide ((x - cx, y - cy) ∈ offs) then f <$> World.get_cell w x y
    else World.get_cell w x y.
Proof.
  unfold Events.affect_region. revert w.
  induction offs as [|[dx dy] offs IH]; intros w Hnd.
  - rewrite decide_False; [done | apply not_elem_of_nil].
  - apply NoDup_cons in Hnd as [Hnotin Hnd]. simpl.
    rewrite IH by done. rewrite get_cell_update_cell.
    destruct (decide (cx + dx = x /\ cy + dy = y)) as [[Hx Hy]|Hne].
    + assert ((x - cx, y - cy) = (dx, dy)) as -> by (f_equal; lia).
      rewrite decide_False by done. rewrite decide_True; [done | apply list_elem_of_here].
    + destruct (decide ((x - cx, y - cy) ∈ offs)) as [Hin|Hnin].
      * rewrite decide_True; [done | by apply list_elem_of_further].
      * rewrite decide_False; [done|].
        intros [Heq|Hin]%elem_of_cons; [|done].
        apply Hne. injection Heq. lia.
Qed.

Lemma elem_of_square_offsets (r dx dy : Z) :
  0 <= r -> (dx, dy) ∈ Events.square_offsets r <-> (- r <= dx <= r /\ - r <= dy <= r).
Proof.
  intros Hr. unfold Events.square_offsets.
  assert (forall k, k ∈ ((fun k => Z.of_nat k - r) <$> seq 0 (Z.to_nat (2 * r + 1)))
                    <-> - r <= k <= r) as Hspan.
  { intros k. rewrite list_elem_of_fmap. split.
    - intros (n & -> & Hn%elem_of_seq). lia.
    - intros Hk. exists (Z.to_nat (k + r)). split; [lia|]. apply elem_of_seq. lia. }
  rewrite list_elem_of_bind. split.
  - intros (a & Hin & Ha). apply list_elem_of_bind in Hin as (b & Hin & Hb).
    apply list_elem_of_singleton in Hin as [= -> ->].
    apply Hspan in Ha, Hb. lia.
  - intros [Hx Hy]. exists dx. split; [|by apply Hspan].
    apply list_elem_of_bind. exists dy. split; [apply list_elem_of_singleton; done | by apply Hspan].
Qed.

Lemma NoDup_square_offsets_3 : NoDup (Events.square_offsets 3).
Proof. apply (bool_decide_unpack _). vm_compute. exact I. Qed.

Lemma NoDup_square_offsets_2 : NoDup (Events.square_offsets 2).
Proof. apply (bool_decide_unpack _). vm_compute. exact I. Qed.

Lemma get_cell_drought_at (cx cy : Z) (w : World) (x y : Z) :
  World.get_cell (Events.drought_at cx cy w) x y
  = if decide (in_square 3 cx cy x y)
    then (fun c => set_food_resource (food_resource c - Z.min (food_resource c) 30) c)
           <$> World.get_cell w x y
    else World.get_cell w x y.
Proof.
  unfold Events.drought_at.
  rewrite get_cell_affect_region by apply NoDup_square_offsets_3.
  destruct (decide (in_square 3 cx cy x y)) as [Hin|Hnin]; unfold in_square in *.
  - rewrite decide_True by (apply elem_of_square_offsets; lia).
    destruct (World.get_cell w x y) as [c|]; [|done]. simpl. f_equal.
    apply drought_cell_amount.
  - rewrite decide_False; [done|]. rewrite elem_of_square_offsets by lia. lia.
Qed.

Lemma draw_center_ok (s : Simulation) :
  0 < width (world s) -> 0 < height (world s) ->
  exists cx cy g, Events.draw_center s = Ok (cx, cy, g)
    /\ 0 <= cx < width (world s) /\ 0 <= cy < height (world s).
Proof.
  intros Hw Hh. unfold Events.draw_center, random.randint_checked.
  assert ((width (world s) - 1 <? 0) = false) as -> by lia.
  pose proof (randint_range 0 (width (world s) - 1) (random_state s) ltac:(lia)) as H1.
  destruct (random.randint 0 (width (world s) - 1) (random_state s)) as [cx g1].
  cbn.
  assert ((height (world s) - 1 <? 0) = false) as -> by lia.
  pose proof (randint_range 0 (height (world s) - 1) g1 ltac:(lia)) as H2.
  destruct (random.randint 0 (height (world s) - 1) g1) as [cy g2].
  exists cx, cy, g2. cbn in *. split; [done | lia].
Qed.

(** C7: a drought executed on a non-empty grid draws a centre (cx, cy)
    inside the grid; every cell of the grid whose two coordinates are
    within 3 of the centre loses exactly min(food, 30) food; every other
    cell, and the whole list of civilizations (population, food, morale,
    territory and every other attribute), is unchanged. *)
Theorem C7_drought_footprint (s : Simulation) :
  0 < width (world s) -> 0 < height (world s) ->
  exists s' cx cy,
    Events.DroughtEvent_execute s = Ok s'
    /\ events (chronicle s')
       = events (chronicle s) ++ [(current_year (world s), MsgDrought cx cy)]
    /\ (0 <= cx < width (world s) /\ 0 <= cy < height (world s))
    /\ (forall x y,
          World.get_cell (world s') x y
          = if decide (in_square 3 cx cy x y)
            then (fun c => set_food_resource
                             (food_resource c - Z.min (food_resource c) 30) c)
                   <$> World.get_cell (world s) x y
            else World.get_cell (world s) x y)
    /\ civilizations s' = civilizations s.
Proof.
  intros Hw Hh. destruct (draw_center_ok s Hw Hh) as (cx & cy & g & Hd & Hcx & Hcy).
  unfold Events.DroughtEvent_execute. rewrite Hd. simpl.
  eexists _, cx, cy. split; [reflexivity|]. simpl.
  split.
  { f_equal. f_equal. f_equal. unfold Events.drought_at, Events.affect_region.
    apply (foldl_preserves (fun w => current_year w = current_year (world s))); [|done].
    intros w d H. unfold World.update_cell. by destruct (_ && _). }
  split; [done|]. split; [|done].
  intros x y. apply get_cell_drought_at.
Qed.

(** ** C8: the placement search of [add_civilization] *)

Lemma too_close_false (x y : Z) (civs : list Civilization) :
  Simulation.too_close x y civs = false
  <-> Forall (fun civ => 6 <= manhattan (x, y) (capital civ)) civs.
Proof.
  unfold Simulation.too_close, manhattan. simpl.
  induction civs as [|c civs IH]; simpl.
  - split; [constructor | done].
  - rewrite orb_false_iff, IH, Forall_cons, Z.ltb_ge. tauto.
Qed.

Lemma acceptable_iff (s : Simulation) (x y : Z) :
  Simulation.acceptable s x y = true
  <-> exists cell, World.get_cell (world s) x y = Some cell
        /\ Cell.is_passable cell = true /\ owner cell = None
        /\ Forall (fun civ => 6 <= manhattan (x, y) (capital civ)) (civilizations s).
Proof.
  unfold Simulation.acceptable.
  destruct (World.get_cell (world s) x y) as [cell|]; [|split; [done | by intros (? & ? & _)]].
  rewrite !andb_true_iff, negb_true_iff, too_close_false, bool_decide_eq_true.
  split.
  - intros [[H1 H2] H3]. by exists cell.
  - intros (c & [= <-] & H1 & H2 & H3). done.
Qed.

Lemma find_start_spec (n : nat) (s : Simulation) (g : RNG) :
  5 <= width (world s) -> 5 <= height (world s) ->
  exists g', Simulation.find_start n s g
             = Ok (List.find (fun p => Simulation.acceptable s p.1 p.2) (candidates n s g), g').
Proof.
  intros Hw Hh. revert g.
  induction n as [|n IH]; intros g; cbn [Simulation.find_start candidates].
  - eexists; reflexivity.
  - unfold random.randint_checked.
    assert ((width (world s) - 3 <? 2) = false) as -> by lia.
    destruct (random.randint 2 (width (world s) - 3) g) as [x g1]. cbn [rbind].
    assert ((height (world s) - 3 <? 2) = false) as -> by lia.
    destruct (random.randint 2 (height (world s) - 3) g1) as [y g2]. cbn [rbind].
    cbn [List.find fst snd].
    destruct (Simulation.acceptable s x y); [eexists; reflexivity | apply IH].
Qed.

Lemma find_start_small (n : nat) (s : Simulation) (g : RNG) :
  width (world s) < 5 \/ height (world s) < 5 ->
  Simulation.find_start (S n) s g = Raise ValueError.
Proof.
  intros Hsmall. cbn [Simulation.find_start]. unfold random.randint_checked.
  destruct (width (world s) - 3 <? 2) eqn:Hw; [done|].
  destruct (random.randint 2 (width (world s) - 3) g) as [x g1]. cbn [rbind].
  assert ((height (world s) - 3 <? 2) = true) as -> by lia. done.
Qed.

Lemma claim_step_identity (x y : Z) (st : World * Civilization) (d : Z * Z) :
  name (Civilization.claim_step x y st d).2 = name st.2
  /\ capital (Civilization.claim_step x y st d).2 = capital st.2.
Proof.
  unfold Civilization.claim_step. destruct st as [w self].
  destruct (World.get_cell _ _ _); [|done]. by destruct (_ && _).
Qed.

Lemma civilization_init_identity (nm : string) (x y : Z) (w : World) (g : RNG) :
  name (Civilization.__init__ nm x y w g).1.2 = nm
  /\ capital (Civilization.__init__ nm x y w g).1.2 = (x, y).
Proof.
  unfold Civilization.__init__.
  destruct (random.randint 30 60 g) as [pop g1].
  destruct (random.randint 70 90 g1) as [mor g2].
  destruct (random.choice_ne _ _ g2) as [pers g3]. cbn [fst snd].
  unfold Civilization._claim_starting_territory.
  apply (foldl_preserves
           (fun st : World * Civilization => name st.2 = nm /\ capital st.2 = (x, y)));
    [|done].
  intros st d [H1 H2]. destruct (claim_step_identity x y st d) as [-> ->]. done.
Qed.

(** C8: when [add_civilization] is called without coordinates, (1) a
    successful call founded the civilization on one of the at most 100
    candidates drawn, whose cell is passable and unclaimed and at Manhattan
    distance at least 6 from every existing capital; (2) if none of the
    100 candidates passes, or the grid is too small to draw a candidate,
    the call raises [ValueError] instead of retrying; (3) a candidate
    within distance 5 of an existing capital is never accepted; (4) a
    passable, unclaimed candidate at distance 6 or more from every capital
    is accepted, and the call succeeds when it is the first candidate
    drawn. *)
Theorem C8_placement_search (nm : string) (s : Simulation) :
  (forall s', Simulation.add_civilization nm None None s = Ok s' ->
     exists civ x y cell,
       civilizations s' = civilizations s ++ [civ]
       /\ name civ = nm /\ capital civ = (x, y)
       /\ (x, y) ∈ candidates 100 s (random_state s)
       /\ World.get_cell (world s) x y = Some cell
       /\ Cell.is_passable cell = true /\ owner cell = None
       /\ Forall (fun other => 6 <= manhattan (x, y) (capital other)) (civilizations s))
  /\ ((width (world s) < 5 \/ height (world s) < 5
       \/ Forall (fun p => Simulation.acceptable s p.1 p.2 = false)
                 (candidates 100 s (random_state s))) ->
      Simulation.add_civilization nm None None s = Raise ValueError)
  /\ (forall x y other, other ∈ civilizations s -> manhattan (x, y) (capital other) <= 5 ->
      Simulation.acceptable s x y = false)
  /\ (forall x y cell rest,
        World.get_cell (world s) x y = Some cell ->
        Cell.is_passable cell = true -> owner cell = None ->
        Forall (fun other => 6 <= manhattan (x, y) (capital other)) (civilizations s) ->
        Simulation.acceptable s x y = true
        /\ (5 <= width (world s) -> 5 <= height (world s) ->
            candidates 100 s (random_state s) = (x, y) :: rest ->
            exists s' civ, Simulation.add_civilization nm None None s = Ok s'
              /\ civilizations s' = civilizations s ++ [civ] /\ capital civ = (x, y))).
Proof.
  split; [|split; [|split]].
  - intros s' Hadd. unfold Simulation.add_civilization in Hadd.
    destruct (decide (5 <= width (world s) /\ 5 <= height (world s))) as [[Hw Hh]|Hsmall].
    + destruct (find_start_spec 100 s (random_state s) Hw Hh) as [g' Hfs].
      rewrite Hfs in Hadd. cbn [rbind] in Hadd.
      destruct (List.find _ _) as [[x y]|] eqn:Hfind; [|done]. cbn [rbind] in Hadd.
      apply find_some in Hfind as [Hin Hacc]. cbn [fst snd] in Hacc.
      apply acceptable_iff in Hacc as (cell & Hcell & Hpass & Hown & Hfar).
      pose proof (civilization_init_identity nm x y (world s) g') as [Hname Hcap].
      destruct (Civilization.__init__ nm x y (world s) g') as [[w' civ] g2].
      injection Hadd as <-. cbn [fst snd] in *.
      exists civ, x, y, cell. repeat split; try done. by apply list_elem_of_In.
    + rewrite find_start_small in Hadd by lia. done.
  - intros Hfail. unfold Simulation.add_civilization.
    destruct (decide (5 <= width (world s) /\ 5 <= height (world s))) as [[Hw Hh]|Hsmall].
    + destruct Hfail as [?|[?|Hall]]; [lia|lia|].
      destruct (find_start_spec 100 s (random_state s) Hw Hh) as [g' ->]. cbn [rbind].
      destruct (List.find _ _) as [[x y]|] eqn:Hfind; [|done].
      apply find_some in Hfind as [Hin Hacc]. rewrite Forall_forall in Hall.
      apply list_elem_of_In in Hin. specialize (Hall _ Hin). cbn [fst snd] in *. congruence.
    + rewrite find_start_small by lia. done.
  - intros x y other Hin Hnear. apply not_true_iff_false. intros Hacc.
    apply acceptable_iff in Hacc as (cell & _ & _ & _ & Hfar).
    rewrite Forall_forall in Hfar. specialize (Hfar _ Hin). cbn beta in Hfar. lia.
  - intros x y cell rest Hcell Hpass Hown Hfar.
    assert (Simulation.acceptable s x y = true) as Hacc
      by (apply acceptable_iff; by exists cell).
    split; [done|]. intros Hw Hh Hcand.
    unfold Simulation.add_civilization.
    destruct (find_start_spec 100 s (random_state s) Hw Hh) as [g' ->]. cbn [rbind].
    rewrite Hcand. cbn [List.find fst snd]. rewrite Hacc. cbn [rbind].
    pose proof (civilization_init_identity nm x y (world s) g') as [Hname Hcap].
    destruct (Civilization.__init__ nm x y (world s) g') as [[w' civ] g2].
    eexists _, civ. split; [reflexivity|]. done.
Qed.

(** ** Generic facts about the store *)

Lemma lookup_alter_Some {A} (f : A -> A) (l : list A) (i k : nat) (y : A) :
  alter f i l !! k = Some y ->
  exists x, l !! k = Some x /\ ((k <> i /\ y = x) \/ (k = i /\ y = f x)).
Proof.
  rewrite list_lookup_alter. destruct (decide (i = k)) as [->|Hne].
  - destruct (l !! k) as [x|]; [|done]. intros [= <-]. exists x. split; [done|]. by right.
  - intros H. exists y. split; [done|]. left. split; [congruence | done].
Qed.

Lemma lookup_alter_of {A} (f : A -> A) (l : list A) (i k : nat) (x : A) :
  l !! k = Some x ->
  alter f i l !! k = Some (if decide (i = k) then f x else x).
Proof.
  intros H. rewrite list_lookup_alter. destruct (decide (i = k)) as [->|]; [|done].
  by rewrite H.
Qed.

(** *** Evolution of civilization objects *)

Lemma evolves_refl (c : Civilization) : evolves c c.
Proof. unfold evolves. repeat split; done. Qed.

Lemma evolves_trans (a b c : Civilization) : evolves a b -> evolves b c -> evolves a c.
Proof.
  intros (H1 & H2 & H3 & H4 & H5) (K1 & K2 & K3 & K4 & K5).
  unfold evolves. repeat split; try congruence.
  - by etrans.
  - intros Hd. specialize (H5 Hd). subst b. by apply K5.
Qed.

Lemma advances_refl (civs : list Civilization) : advances civs civs.
Proof. intros i c H. exists c. split; [done | apply evolves_refl]. Qed.

Lemma advances_trans (a b c : list Civilization) :
  advances a b -> advances b c -> advances a c.
Proof.
  intros Hab Hbc i x Hx. destruct (Hab i x Hx) as (y & Hy & Hxy).
  destruct (Hbc i y Hy) as (z & Hz & Hyz). exists z. split; [done|].
  by eapply evolves_trans.
Qed.

Lemma advances_alter (f : Civilization -> Civilization) (i : nat) (civs : list Civilization) :
  (forall c, civs !! i = Some c -> evolves c (f c)) -> advances civs (alter f i civs).
Proof.
  intros Hf k c Hc. rewrite (lookup_alter_of f civs i k c Hc). eexists. split; [done|].
  destruct (decide (i = k)) as [->|]; [by apply Hf | apply evolves_refl].
Qed.

Lemma advances_app (civs extra : list Civilization) : advances civs (civs ++ extra).
Proof.
  intros i c Hc. exists c. split; [|apply evolves_refl].
  by apply lookup_app_l_Some.
Qed.

Lemma advances_length (civs civs' : list Civilization) :
  advances civs civs' -> (length civs <= length civs')%nat.
Proof.
  intros H. destruct (decide (length civs <= length civs')%nat) as [|Hn]; [done|].
  exfalso. destruct (lookup_lt_is_Some_2 civs (length civs')) as [c Hc]; [lia|].
  destruct (H _ _ Hc) as (c' & Hc' & _).
  apply lookup_lt_Some in Hc'. lia.
Qed.

(** *** Coordinates *)

Lemma coords_ok_update_cell (x y : Z) (f : Cell -> Cell) (w : World) :
  (forall c, cell_x (f c) = cell_x c /\ cell_y (f c) = cell_y c) ->
  coords_ok w -> coords_ok (World.update_cell x y f w).
Proof.
  intros Hf Hw x' y' c. rewrite get_cell_update_cell.
  destruct (decide _); [|apply Hw].
  destruct (World.get_cell w x' y') as [c0|] eqn:Hc0; [|done].
  intros [= <-]. destruct (Hf c0) as [-> ->]. by apply Hw.
Qed.

Lemma coords_ok_map_cells (f : Cell -> Cell) (w : World) :
  (forall c, cell_x (f c) = cell_x c /\ cell_y (f c) = cell_y c) ->
  coords_ok w -> coords_ok (set_grid (World.map_cells f (grid w)) w).
Proof.
  intros Hf Hw x y c. rewrite get_cell_map_cells.
  destruct (World.get_cell w x y) as [c0|] eqn:Hc0; [|done].
  intros [= <-]. destruct (Hf c0) as [-> ->]. by apply Hw.
Qed.

(** *** Ownership *)

Lemma owner_at_update_cell_frame (x y : Z) (f : Cell -> Cell) (w : World) (x' y' : Z) :
  (forall c, owner (f c) = owner c) ->
  owner_at (World.update_cell x y f w) x' y' = owner_at w x' y'.
Proof.
  intros Hf. unfold owner_at. rewrite get_cell_update_cell.
  destruct (decide _); [|done].
  destruct (World.get_cell w x' y'); [|done]. simpl. by rewrite Hf.
Qed.

Lemma owner_at_map_cells (f : Cell -> Cell) (w : World) (x y : Z) :
  (forall c, owner (f c) = owner c) ->
  owner_at (set_grid (World.map_cells f (grid w)) w) x y = owner_at w x y.
Proof.
  intros Hf. unfold owner_at. rewrite get_cell_map_cells.
  destruct (World.get_cell w x y); [|done]. simpl. by rewrite Hf.
Qed.

Lemma owner_at_set_owner (x y : Z) (o : option string) (w : World) (x' y' : Z) :
  owner_at (World.update_cell x y (set_owner o) w) x' y'
  = if decide (x = x' /\ y = y')
    then (fun _ => o) <$> owner_at w x' y'
    else owner_at w x' y'.
Proof.
  unfold owner_at. rewrite get_cell_update_cell.
  destruct (decide _); [|done]. by destruct (World.get_cell w x' y').
Qed.

(** *** Territory and ownership *)

Lemma land_ok_frame (w w' : World) (civs civs' : list Civilization) :
  land_ok w civs ->
  (forall x y, owner_at w' x y = owner_at w x y) ->
  (forall i c', civs' !! i = Some c' ->
     exists c, civs !! i = Some c /\ name c' = name c /\ territory c' = territory c) ->
  land_ok w' civs'.
Proof.
  intros [Ho Hn Hd] Hw Hc. split.
  - intros i c' xy Hi Hin. destruct (Hc i c' Hi) as (c & Hi' & Hname & Hterr).
    rewrite Hw, Hname. apply (Ho i); [done|]. by rewrite <- Hterr.
  - intros i c' Hi. destruct (Hc i c' Hi) as (c & Hi' & _ & ->). by apply (Hn i).
  - intros i j ci' cj' xy Hij Hi Hj.
    destruct (Hc i ci' Hi) as (ci & Hi' & _ & ->).
    destruct (Hc j cj' Hj) as (cj & Hj' & _ & ->).
    by apply (Hd i j).
Qed.

Lemma land_ok_world (w w' : World) (civs : list Civilization) :
  land_ok w civs -> (forall x y, owner_at w' x y = owner_at w x y) -> land_ok w' civs.
Proof. intros H Hw. eapply land_ok_frame; eauto. Qed.

Lemma land_ok_alter (w : World) (civs : list Civilization) (i : nat)
    (f : Civilization -> Civilization) :
  (forall c, name (f c) = name c /\ territory (f c) = territory c) ->
  land_ok w civs -> land_ok w (alter f i civs).
Proof.
  intros Hf H. eapply land_ok_frame; [exact H | done |].
  intros k c' Hk. apply lookup_alter_Some in Hk as (c & Hc & [[_ ->]|[_ ->]]).
  - by exists c.
  - exists c. split; [done|]. apply Hf.
Qed.

(** The civilization referenced by [i] claims the unowned cell [(x, y)]. *)
Lemma land_ok_claim (w : World) (civs : list Civilization) (i : nat)
    (self self' : Civilization) (x y : Z) :
  land_ok w civs -> civs !! i = Some self ->
  owner_at w x y = Some None ->
  name self' = name self -> territory self' = territory self ++ [(x, y)] ->
  land_ok (World.update_cell x y (set_owner (Some (name self))) w)
          (alter (fun _ => self') i civs).
Proof.
  intros [Ho Hn Hd] Hi Hfree Hname Hterr.
  assert (forall k c xy, civs !! k = Some c -> xy ∈ territory c -> xy <> (x, y)) as Hfresh.
  { intros k c xy Hk Hin ->. specialize (Ho k c (x, y) Hk Hin). simpl in Ho. congruence. }
  assert (forall k c', alter (fun _ => self') i civs !! k = Some c' ->
            (k <> i /\ civs !! k = Some c') \/ (k = i /\ c' = self')) as Hlk.
  { intros k c' Hk. apply lookup_alter_Some in Hk as (c & Hc & [[? ->]|[? ->]]); auto. }
  assert (forall xy, xy ∈ territory self' -> xy ∈ territory self \/ xy = (x, y)) as Hin'.
  { intros xy. rewrite Hterr, elem_of_app, list_elem_of_singleton. tauto. }
  split.
  - intros k c' xy Hk Hin. rewrite owner_at_set_owner.
    apply Hlk in Hk as [[Hne Hk]|[-> ->]].
    + rewrite decide_False; [by apply (Ho k)|].
      intros [-> ->]. apply (Hfresh k c' xy Hk Hin). by destruct xy.
    + apply Hin' in Hin as [Hin| ->].
      * rewrite decide_False; [rewrite Hname; by apply (Ho i)|].
        intros [-> ->]. apply (Hfresh i self xy Hi Hin). by destruct xy.
      * simpl. rewrite decide_True by done. rewrite Hfree, Hname. done.
  - intros k c' Hk. apply Hlk in Hk as [[Hne Hk]|[-> ->]]; [by apply (Hn k)|].
    rewrite Hterr. apply NoDup_app. split; [by apply (Hn i)|]. split; [|apply NoDup_singleton].
    intros xy Hin ->%list_elem_of_singleton. by apply (Hfresh i self (x, y) Hi Hin).
  - intros k j ck cj xy Hkj Hk Hj Hin Hin2.
    apply Hlk in Hk as [[Hne Hk]|[-> ->]]; apply Hlk in Hj as [[Hne' Hj]|[-> ->]].
    + by apply (Hd k j ck cj xy).
    + apply Hin' in Hin2 as [Hin2| ->].
      * by apply (Hd k i ck self xy).
      * by apply (Hfresh k ck (x, y) Hk Hin).
    + apply Hin' in Hin as [Hin| ->].
      * by apply (Hd i j self cj xy).
      * by apply (Hfresh j cj (x, y) Hj Hin2).
    + done.
Qed.

Lemma land_ok_app_empty (w : World) (civs : list Civilization) (c : Civilization) :
  territory c = [] -> land_ok w civs -> land_ok w (civs ++ [c]).
Proof.
  intros Hc [Ho Hn Hd].
  assert (forall k c', (civs ++ [c]) !! k = Some c' ->
            civs !! k = Some c' \/ (k = length civs /\ c' = c)) as Hlk.
  { intros k c' Hk. apply lookup_app_Some in Hk as [Hk|[Hge Hk]]; [by left|].
    right. apply list_lookup_singleton_Some in Hk as [Hz ->]. split; [lia | done]. }
  split.
  - intros k c' xy Hk Hin. apply Hlk in Hk as [Hk|[-> ->]]; [by apply (Ho k)|].
    rewrite Hc in Hin. by apply not_elem_of_nil in Hin.
  - intros k c' Hk. apply Hlk in Hk as [Hk|[-> ->]]; [by apply (Hn k)|].
    rewrite Hc. apply NoDup_nil_2.
  - intros k j ck cj xy Hkj Hk Hj Hin Hin2.
    apply Hlk in Hk as [Hk|[-> ->]]; apply Hlk in Hj as [Hj|[-> ->]].
    + by apply (Hd k j ck cj xy).
    + rewrite Hc in Hin2. by apply not_elem_of_nil in Hin2.
    + rewrite Hc in Hin. by apply not_elem_of_nil in Hin.
    + done.
Qed.

(** ** Sound transitions *)

Lemma Forall2_diag {A} (R : A -> A -> Prop) (l : list A) :
  (forall x, R x x) -> Forall2 R l l.
Proof. intros HR. induction l; constructor; auto. Qed.

Lemma Forall2_alter_self {A} (R : A -> A -> Prop) (f : A -> A) (i : nat) (l : list A) :
  (forall x, R x x) -> (forall x, l !! i = Some x -> R x (f x)) -> Forall2 R l (alter f i l).
Proof.
  intros HR Hf. apply Forall2_alter_r; [by apply Forall2_diag|].
  intros x y Hx Hy _. rewrite Hx in Hy. injection Hy as <-. by apply Hf.
Qed.

Lemma Forall2_trans {A} (R : A -> A -> Prop) (a b c : list A) :
  (forall x y z, R x y -> R y z -> R x z) ->
  Forall2 R a b -> Forall2 R b c -> Forall2 R a c.
Proof.
  intros HR Hab. revert c. induction Hab as [|x y a b Hxy Hab IH]; intros c Hbc.
  - inversion Hbc. constructor.
  - inversion Hbc as [|? z ? c' Hyz Hbc']; subst. constructor; [by eapply HR | by apply IH].
Qed.

Lemma Forall2_advances (civs civs' : list Civilization) :
  Forall2 evolves civs civs' -> advances civs civs'.
Proof.
  intros H i c Hc. destruct (Forall2_lookup_l _ _ _ _ _ H Hc) as (c' & Hc' & Hev).
  by exists c'.
Qed.

Lemma keeps_relations_refl (civs : list Civilization) : keeps_relations civs civs.
Proof. intros i c Hc. by exists c. Qed.

Lemma keeps_relations_trans (a b c : list Civilization) :
  keeps_relations a b -> keeps_relations b c -> keeps_relations a c.
Proof.
  intros Hab Hbc i x Hx. destruct (Hab i x Hx) as (y & Hy & Hxy).
  destruct (Hbc i y Hy) as (z & Hz & Hyz). exists z. split; [done | by etrans].
Qed.

Lemma same_ties_rel_ok (civs civs' : list Civilization) :
  Forall2 (fun c c' => evolves c c' /\ relations c' = relations c) civs civs' ->
  rel_ok civs -> rel_ok civs' /\ keeps_relations civs civs'.
Proof.
  intros HF [Hn Hs Hk].
  assert (name <$> civs' = name <$> civs) as Hnames.
  { clear -HF. induction HF as [|c c' l l' [(Hname & _) _] _ IH]; [done|].
    rewrite !fmap_cons. by rewrite Hname, IH. }
  assert (forall i c', civs' !! i = Some c' ->
            exists c, civs !! i = Some c /\ name c' = name c /\ relations c' = relations c)
    as Hback.
  { intros i c' Hc'. destruct (Forall2_lookup_r _ _ _ _ _ HF Hc') as (c & Hc & [(Hname & _) Hrel]).
    by exists c. }
  split; [split|].
  - by rewrite Hnames.
  - intros i j ci' cj' Hi Hj.
    destruct (Hback i ci' Hi) as (ci & Hi' & -> & ->).
    destruct (Hback j cj' Hj) as (cj & Hj' & -> & ->). by apply (Hs i j).
  - intros i ci' n Hi Hsome. destruct (Hback i ci' Hi) as (ci & Hi' & _ & Hrel).
    rewrite Hnames. apply (Hk i ci); [done|]. by rewrite <- Hrel.
  - intros i c Hc. destruct (Forall2_lookup_l _ _ _ _ _ HF Hc) as (c' & Hc' & [_ Hrel]).
    exists c'. split; [done|]. by rewrite Hrel.
Qed.

Lemma same_size_refl (w : World) : same_size w w.
Proof. done. Qed.

Lemma same_size_trans (a b c : World) : same_size a b -> same_size b c -> same_size a c.
Proof. intros [H1 H2] [H3 H4]. split; congruence. Qed.

Lemma same_size_update_cell (x y : Z) (f : Cell -> Cell) (w : World) :
  same_size w (World.update_cell x y f w).
Proof. unfold World.update_cell. by destruct (_ && _). Qed.

Lemma quiet_sound (s s' : Simulation) : quiet s s' -> sound s s'.
Proof.
  intros (HI & HS & HF). split; [done|]. split; [done|]. split.
  - eapply Forall2_impl; [exact HF|]. by intros c c' [H _].
  - by apply same_ties_rel_ok.
Qed.

Lemma sound_refl (s : Simulation) : sound s s.
Proof.
  split; [done|]. split; [done|]. split; [apply Forall2_diag, evolves_refl|].
  intros H. split; [done | apply keeps_relations_refl].
Qed.

Lemma sound_trans (a b c : Simulation) : sound a b -> sound b c -> sound a c.
Proof.
  intros (I1 & S1 & E1 & R1) (I2 & S2 & E2 & R2). split; [auto|].
  split; [by eapply same_size_trans|]. split.
  - eapply Forall2_trans; [apply evolves_trans | exact E1 | exact E2].
  - intros Ha. destruct (R1 Ha) as [Hb K1]. destruct (R2 Hb) as [Hc K2].
    split; [done | by eapply keeps_relations_trans].
Qed.

Lemma quiet_trans (a b c : Simulation) : quiet a b -> quiet b c -> quiet a c.
Proof.
  intros (I1 & S1 & E1) (I2 & S2 & E2). split; [auto|].
  split; [by eapply same_size_trans|].
  eapply Forall2_trans; [|exact E1|exact E2].
  intros x y z [H1 H2] [H3 H4]. split; [by eapply evolves_trans | congruence].
Qed.

Lemma quiet_same (s s' : Simulation) :
  world s' = world s -> civilizations s' = civilizations s -> quiet s s'.
Proof.
  intros Hw Hc. split; [|split].
  - intros [H1 H2 H3 H4 H5]. split; rewrite ?Hw, ?Hc; done.
  - by rewrite Hw.
  - rewrite Hc. apply Forall2_diag. intros x. split; [apply evolves_refl | done].
Qed.

Lemma quiet_refl (s : Simulation) : quiet s s.
Proof. by apply quiet_same. Qed.

Lemma benign_evolves (c c' : Civilization) : benign c c' -> evolves c c'.
Proof.
  intros [->|(Ha & Hn & Hp & Hc & Ht & _)]; [apply evolves_refl|]. unfold evolves.
  repeat split; try done; [by rewrite Ht | congruence].
Qed.

Lemma benign_facts (c c' : Civilization) :
  benign c c' ->
  name c' = name c /\ territory c' = territory c /\ relations c' = relations c
  /\ (civ_ok c -> civ_ok c') /\ (settled c -> settled c').
Proof. intros [->|(_ & ? & _ & _ & ? & ? & ? & ?)]; done. Qed.

(** An in-place change of one civilization. *)
Lemma quiet_update_civ (i : nat) (f : Civilization -> Civilization) (s : Simulation) :
  (forall c, civilizations s !! i = Some c -> benign c (f c)) ->
  quiet s (update_civ i f s).
Proof.
  intros Hf. split; [|split; [done|]].
  - intros [H1 H2 H3 H4 H5]. split; simpl; try done.
    + apply land_ok_frame with (w := world s) (civs := civilizations s); [done|done|].
      intros k c' Hk. apply lookup_alter_Some in Hk as (c & Hc & [[_ ->]|[-> ->]]).
      * by exists c.
      * exists c. split; [done|].
        destruct (benign_facts _ _ (Hf c Hc)) as (? & ? & _). done.
    + apply Forall_alter; [done|]. intros c Hc.
      by destruct (benign_facts _ _ (Hf c Hc)) as (_&_&_&?&_).
    + apply Forall_alter; [done|]. intros c Hc.
      by destruct (benign_facts _ _ (Hf c Hc)) as (_&_&_&_&?).
  - simpl. apply Forall2_alter_self.
    + intros x. split; [apply evolves_refl | done].
    + intros c Hc. split; [by apply benign_evolves, Hf|].
      by destruct (benign_facts _ _ (Hf c Hc)) as (_&_&?&_).
Qed.

Lemma tame_refl (w : World) : tame w w.
Proof. split; [done|]. split; [done|]. split; done. Qed.

Lemma tame_trans (a b c : World) : tame a b -> tame b c -> tame a c.
Proof.
  intros (S1 & C1 & O1 & F1) (S2 & C2 & O2 & F2).
  split; [by eapply same_size_trans|]. split; [auto|]. split; [|auto].
  intros x y. by rewrite O2, O1.
Qed.

Lemma tame_update_cell (x y : Z) (f : Cell -> Cell) (w : World) :
  calm f -> tame w (World.update_cell x y f w).
Proof.
  intros Hf. split; [apply same_size_update_cell|]. split; [|split].
  - apply coords_ok_update_cell. intros c. destruct (Hf c) as (?&?&_). done.
  - intros x' y'. apply owner_at_update_cell_frame. intros c. by destruct (Hf c) as (_&_&?&_).
  - apply all_cells_update_cell. intros c. by destruct (Hf c) as (_&_&_&?).
Qed.

Lemma tame_map_cells (f : Cell -> Cell) (w : World) :
  calm f -> tame w (set_grid (World.map_cells f (grid w)) w).
Proof.
  intros Hf. split; [done|]. split; [|split].
  - apply coords_ok_map_cells. intros c. destruct (Hf c) as (?&?&_). done.
  - intros x' y'. apply owner_at_map_cells. intros c. by destruct (Hf c) as (_&_&?&_).
  - apply all_cells_map_cells. intros c. by destruct (Hf c) as (_&_&_&?).
Qed.

Lemma tame_advance_day (w : World) : tame w (World.advance_day w).
Proof. split; [done|]. split; [done|]. split; done. Qed.

Lemma tame_foldl {B} (f : World -> B -> World) (l : list B) (w : World) :
  (forall w b, tame w (f w b)) -> tame w (foldl f w l).
Proof.
  intros Hf. revert w. induction l as [|b l IH]; intros w; simpl; [apply tame_refl|].
  eapply tame_trans; [apply Hf | apply IH].
Qed.

(** A tame change of the world. *)
Lemma quiet_set_world (w' : World) (s : Simulation) :
  tame (world s) w' -> quiet s (set_world w' s).
Proof.
  intros (Hs & Hc & Ho & Hf). split; [|split; [done|]].
  - intros [H1 H2 H3 H4 H5]. split; simpl; auto.
    by apply land_ok_world with (w := world s).
  - simpl. apply Forall2_diag. intros x. split; [apply evolves_refl | done].
Qed.

Lemma calm_regenerate (rate : Q) : (0 <= rate)%Q -> calm (Cell.regenerate_food rate).
Proof.
  intros Hr c.
  split; [unfold Cell.regenerate_food; by case_bool_decide|].
  split; [unfold Cell.regenerate_food; by case_bool_decide|].
  split; [unfold Cell.regenerate_food; by case_bool_decide|].
  by apply regenerate_food_ok.
Qed.

Lemma calm_update_climate (m : Z) : calm (Cell.update_climate m).
Proof.
  intros c. split; [done|]. split; [done|]. split; [done|].
  apply update_climate_cell_ok.
Qed.

Lemma calm_drought : calm Events.drought_cell.
Proof.
  intros c. split; [done|]. split; [done|]. split; [done|]. apply drought_cell_ok.
Qed.

Lemma calm_bountiful : calm Events.bountiful_cell.
Proof.
  intros c. split; [done|]. split; [done|]. split; [done|]. apply bountiful_cell_ok.
Qed.

(** ** The operations of a tick that are not civilization turns *)

Lemma quiet_climate (s : Simulation) :
  quiet s (set_world (World.update_climate (world s)) s).
Proof. apply quiet_set_world, tame_map_cells, calm_update_climate. Qed.

Lemma quiet_resources (s : Simulation) :
  quiet s (set_world (World.update_resources (world s)) s).
Proof.
  apply quiet_set_world. unfold World.update_resources.
  apply tame_map_cells, calm_regenerate.
  destruct (_ <? _); unfold Qle; simpl; lia.
Qed.

Lemma quiet_advance_day (s : Simulation) :
  quiet s (set_world (World.advance_day (world s)) s).
Proof. apply quiet_set_world, tame_advance_day. Qed.

Lemma tame_affect_region (f : Cell -> Cell) (cx cy : Z) (offs : list (Z * Z)) (w : World) :
  calm f -> tame w (Events.affect_region f cx cy offs w).
Proof.
  intros Hf. unfold Events.affect_region. apply tame_foldl.
  intros w' d. by apply tame_update_cell.
Qed.

Lemma living_civs_spec (civs : list Civilization) (j : nat) :
  j ∈ Events.living_civs civs <-> exists c, civs !! j = Some c /\ is_alive c = true.
Proof.
  unfold Events.living_civs. rewrite list_elem_of_omap. split.
  - intros ([i c] & Hin & Hf). simpl in Hf.
    apply list_elem_of_lookup in Hin as [k Hk].
    rewrite list_lookup_imap in Hk.
    destruct (civs !! k) as [c0|] eqn:Hc0; [|done]. injection Hk as <- <-.
    destruct (is_alive c0) eqn:Ha; [|done]. injection Hf as <-. by exists c0.
  - intros (c & Hc & Ha). exists (j, c). split; [|simpl; by rewrite Ha].
    apply list_elem_of_lookup. exists j. rewrite list_lookup_imap, Hc. done.
Qed.

Lemma quiet_region_event (s : Simulation) (w' : World) (ch : Chronicle) (g : RNG) :
  tame (world s) w' ->
  quiet s (set_chronicle ch (set_world w' (set_random_state g s))).
Proof.
  intros Ht. eapply quiet_trans; [apply (quiet_set_world w' s Ht)|].
  by apply quiet_same.
Qed.

Lemma quiet_drought (s s' : Simulation) :
  Events.DroughtEvent_execute s = Ok s' -> quiet s s'.
Proof.
  unfold Events.DroughtEvent_execute.
  destruct (Events.draw_center s) as [[[cx cy] g]|]; [|done]. cbn [rbind].
  intros [= <-]. apply quiet_region_event, tame_affect_region, calm_drought.
Qed.

Lemma quiet_bountiful (s s' : Simulation) :
  Events.BountifulHarvestEvent_execute s = Ok s' -> quiet s s'.
Proof.
  unfold Events.BountifulHarvestEvent_execute.
  destruct (Events.draw_center s) as [[[cx cy] g]|]; [|done]. cbn [rbind].
  intros [= <-]. apply quiet_region_event, tame_affect_region, calm_bountiful.
Qed.

(** An event that changes the live civilization referenced by [target]. *)
Lemma quiet_target_event (s : Simulation) (target : nat) (f : Civilization -> Civilization)
    (ch : Chronicle) (g : RNG) :
  (forall c, civilizations s !! target = Some c -> benign c (f c)) ->
  quiet s (set_chronicle ch (set_random_state g (update_civ target f s))).
Proof.
  intros Hf. eapply quiet_trans; [apply (quiet_update_civ target f s Hf)|].
  by apply quiet_same.
Qed.

Ltac benign_alive Ha :=
  right; split; [exact Ha|]; split; [done|]; split; [done|]; split; [done|];
  split; [done|]; split; [done|].

Lemma quiet_plague (s s' : Simulation) :
  Events.PlagueEvent_execute s = Ok s' -> quiet s s'.
Proof.
  unfold Events.PlagueEvent_execute.
  destruct (Events.living_civs (civilizations s)) as [|j living] eqn:Hl.
  { intros [= <-]. apply quiet_refl. }
  destruct (random.choice (j :: living) (random_state s)) as [[target g1]|] eqn:Hch; [|done].
  cbn [rbind]. apply choice_elem in Hch. rewrite <- Hl in Hch.
  apply living_civs_spec in Hch as (t & Ht & Ha). rewrite Ht.
  destruct (random.uniform _ _ g1) as [u g2]. intros [= <-].
  eapply quiet_trans; [apply (quiet_same s (set_random_state g2 s)); done|].
  eapply quiet_trans; [apply quiet_update_civ|by apply quiet_same].
  simpl. intros c Hc. rewrite Ht in Hc. injection Hc as <-.
  benign_alive Ha. unfold civ_ok, settled, Civilization.POPULATION_MIN. simpl.
  split; [lia|]. intros _. left. split; [done | lia].
Qed.

Lemma quiet_discovery (s s' : Simulation) :
  Events.TechnologicalDiscoveryEvent_execute s = Ok s' -> quiet s s'.
Proof.
  unfold Events.TechnologicalDiscoveryEvent_execute.
  destruct (Events.living_civs (civilizations s)) as [|j living] eqn:Hl.
  { intros [= <-]. apply quiet_refl. }
  destruct (random.choice (j :: living) (random_state s)) as [[target g1]|] eqn:Hch; [|done].
  cbn [rbind]. apply choice_elem in Hch. rewrite <- Hl in Hch.
  apply living_civs_spec in Hch as (t & Ht & Ha). rewrite Ht.
  destruct (random.choice_ne _ _ g1) as [d g2]. intros [= <-].
  eapply quiet_trans; [apply quiet_update_civ|by apply quiet_same].
  intros c Hc. rewrite Ht in Hc. injection Hc as <-.
  benign_alive Ha. unfold civ_ok, settled. simpl. rewrite Ha. split; [done|].
  intros [H|[H _]]; [by left | done].
Qed.

Lemma quiet_morale_crisis (s s' : Simulation) :
  Events.MoraleCrisisEvent_execute s = Ok s' -> quiet s s'.
Proof.
  unfold Events.MoraleCrisisEvent_execute.
  destruct (Events.living_civs (civilizations s)) as [|j living] eqn:Hl.
  { intros [= <-]. apply quiet_refl. }
  destruct (random.choice (j :: living) (random_state s)) as [[target g1]|] eqn:Hch; [|done].
  cbn [rbind]. apply choice_elem in Hch. rewrite <- Hl in Hch.
  apply living_civs_spec in Hch as (t & Ht & Ha). rewrite Ht.
  destruct (random.randint 5 15 g1) as [loss g2].
  destruct (random.choice_ne _ _ g2) as [d g3]. intros [= <-].
  eapply quiet_trans; [apply quiet_update_civ|by apply quiet_same].
  intros c Hc. rewrite Ht in Hc. injection Hc as <-.
  benign_alive Ha. unfold civ_ok, settled. simpl. rewrite Ha. split; [done|].
  intros [H|[H _]]; [by left | done].
Qed.

Lemma quiet_execute (e : RandomEvent) (s s' : Simulation) :
  Events.execute e s = Ok s' -> quiet s s'.
Proof.
  destruct e; simpl;
    [apply quiet_drought | apply quiet_bountiful | apply quiet_plague
     | apply quiet_discovery | apply quiet_morale_crisis].
Qed.

Lemma quiet_process_event (e : RandomEvent) (s s' : Simulation) :
  Events.process_event e s = Ok s' -> quiet s s'.
Proof.
  unfold Events.process_event.
  destruct (Events.should_trigger e (random_state s)) as [fire g'].
  destruct fire.
  - intros H. eapply quiet_trans; [|by apply (quiet_execute e _ _ H)].
    by apply quiet_same.
  - intros [= <-]. by apply quiet_same.
Qed.

(** On a non-empty grid no event raises. *)
Lemma execute_total (e : RandomEvent) (s : Simulation) :
  0 < width (world s) -> 0 < height (world s) -> exists s', Events.execute e s = Ok s'.
Proof.
  intros Hw Hh.
  assert (forall j living, Events.living_civs (civilizations s) = j :: living ->
            exists target g1 t, random.choice (j :: living) (random_state s) = Ok (target, g1)
              /\ civilizations s !! target = Some t) as Hpick.
  { intros j living Hl.
    destruct (random.choice (j :: living) (random_state s)) as [[target g1]|] eqn:Hch; [|done].
    pose proof Hch as Hin. apply choice_elem in Hin. rewrite <- Hl in Hin.
    apply living_civs_spec in Hin as (t & Ht & _). by exists target, g1, t. }
  destruct e; simpl.
  - unfold Events.DroughtEvent_execute.
    destruct (draw_center_ok s Hw Hh) as (cx & cy & g & -> & _). cbn [rbind]. by eexists.
  - unfold Events.BountifulHarvestEvent_execute.
    destruct (draw_center_ok s Hw Hh) as (cx & cy & g & -> & _). cbn [rbind]. by eexists.
  - unfold Events.PlagueEvent_execute.
    destruct (Events.living_civs (civilizations s)) as [|j living] eqn:Hl; [by eexists|].
    destruct (Hpick j living eq_refl) as (target & g1 & t & -> & Ht). cbn [rbind].
    rewrite Ht.
    destruct (random.uniform _ _ g1). by eexists.
  - unfold Events.TechnologicalDiscoveryEvent_execute.
    destruct (Events.living_civs (civilizations s)) as [|j living] eqn:Hl; [by eexists|].
    destruct (Hpick j living eq_refl) as (target & g1 & t & -> & Ht). cbn [rbind].
    rewrite Ht.
    destruct (random.choice_ne _ _ g1). by eexists.
  - unfold Events.MoraleCrisisEvent_execute.
    destruct (Events.living_civs (civilizations s)) as [|j living] eqn:Hl; [by eexists|].
    destruct (Hpick j living eq_refl) as (target & g1 & t & -> & Ht). cbn [rbind].
    rewrite Ht.
    destruct (random.randint 5 15 g1). destruct (random.choice_ne _ _ _). by eexists.
Qed.

Lemma process_event_total (e : RandomEvent) (s : Simulation) :
  0 < width (world s) -> 0 < height (world s) ->
  exists s', Events.process_event e s = Ok s'.
Proof.
  intros Hw Hh. unfold Events.process_event.
  destruct (Events.should_trigger e (random_state s)) as [fire g'].
  destruct fire; [|by eexists]. by apply execute_total.
Qed.

(** *** Population dynamics *)

Lemma collapse_settled (cause : string) (c : Civilization) :
  settled (Civilization.collapse cause c).
Proof. right. simpl. split; [done|]. split; [done|]. by eexists. Qed.

Lemma population_changes_benign (year : Z) (self : Civilization) (ch : Chronicle) (g : RNG) :
  benign self (Civilization.process_population_changes year self ch g).1.1.
Proof.
  unfold Civilization.process_population_changes.
  destruct (is_alive self) eqn:Ha; [|by left]. cbn [negb]. cbv zeta.
  set (fpc := Civilization.get_food_per_capita self).
  (* the starvation / birth branch *)
  set (branch := if Q_ltb fpc (3 # 10) then _ else _).
  assert (name branch.1 = name self /\ personality branch.1 = personality self
          /\ capital branch.1 = capital self /\ territory branch.1 = territory self
          /\ relations branch.1 = relations self /\ food branch.1 = food self
          /\ is_alive branch.1 = true
          /\ (0 <= population self -> 0 <= population branch.1)) as Hb.
  { subst branch. destruct (Q_ltb fpc (3 # 10)); simpl.
    - repeat split; try done. lia.
    - destruct (_ && _); simpl; repeat split; try done. lia. }
  destruct branch as [self1 ch1]. simpl in Hb. cbv beta iota.
  destruct Hb as (Hn & Hp & Hc & Ht & Hr & Hf & Hal & Hpop).
  destruct (random.random g) as [r g1]. cbv beta iota.
  set (self2 := if Q_ltb r (1 # 10) then _ else self1).
  assert (name self2 = name self /\ personality self2 = personality self
          /\ capital self2 = capital self /\ territory self2 = territory self
          /\ relations self2 = relations self /\ food self2 = food self
          /\ is_alive self2 = true
          /\ (0 <= population self -> 0 <= population self2)) as Hb.
  { subst self2. destruct (Q_ltb r (1 # 10)); simpl; repeat split; try done. lia. }
  clearbody self2. destruct Hb as (Hn2 & Hp2 & Hc2 & Ht2 & Hr2 & Hf2 & Hal2 & Hpop2).
  destruct (population self2 <? Civilization.POPULATION_MIN) eqn:Hmin.
  { simpl. benign_alive Ha. split; [|intros _; apply collapse_settled].
    unfold civ_ok. simpl. intros [? ?]. split; [lia | auto]. }
  apply Z.ltb_ge in Hmin.
  assert (benign self self2) as Hkeep.
  { benign_alive Ha. split.
    - unfold civ_ok. intros [? ?]. split; [lia | auto].
    - intros _. left. done. }
  destruct ((morale self2 <? Civilization.MORALE_CRITICAL) && is_alive self2); [|done].
  destruct (random.random g1) as [r2 g2].
  destruct (Q_ltb r2 (5 # 1000)); [|done].
  simpl. benign_alive Ha. split; [|intros _; apply collapse_settled].
  unfold civ_ok. simpl. intros [? ?]. split; [lia | auto].
Qed.

Lemma quiet_population (i : nat) (s : Simulation) :
  quiet s (Civilization.process_population_changes_at i s).
Proof.
  unfold Civilization.process_population_changes_at.
  destruct (civilizations s !! i) as [self|] eqn:Hi; [|apply quiet_refl].
  pose proof (population_changes_benign (current_year (world s)) self
                (chronicle s) (random_state s)) as Hb.
  destruct (Civilization.process_population_changes _ _ _ _) as [[self' ch'] g'].
  simpl in Hb.
  eapply quiet_trans; [apply (quiet_update_civ i (fun _ => self') s)|by apply quiet_same].
  intros c Hc. rewrite Hi in Hc. by injection Hc as <-.
Qed.

(** ** The turn of a civilization *)

Lemma foldl_preserves_elem {A B} (P : A -> Prop) (f : A -> B -> A) (l : list B) (a : A) :
  (forall a b, b ∈ l -> P a -> P (f a b)) -> P a -> P (foldl f a l).
Proof.
  revert a. induction l as [|b l IH]; intros a Hf Ha; simpl; [done|].
  apply IH.
  - intros a' b' Hin. apply Hf. by apply list_elem_of_further.
  - apply Hf; [apply list_elem_of_here | done].
Qed.

Lemma nearby_are_neighbours (s : Simulation) (i : nat) (civ : Civilization) :
  civilizations s !! i = Some civ ->
  neighbours_ok (civilizations s) i (Simulation.get_nearby_civilizations s civ).
Proof.
  intros Hi. unfold Simulation.get_nearby_civilizations, neighbours_ok.
  apply (foldl_preserves_elem
           (Forall (fun j => j <> i /\ exists other, civilizations s !! j = Some other
                                                     /\ is_alive other = true)));
    [|constructor].
  intros nearby [j other] Hin Hnear.
  apply list_elem_of_lookup in Hin as [k Hk]. rewrite list_lookup_imap in Hk.
  destruct (civilizations s !! k) as [c0|] eqn:Hc0; [|done]. injection Hk as <- <-.
  destruct (bool_decide (name c0 = name civ)) eqn:Hname; [done|].
  destruct (is_alive c0) eqn:Ha; [|done]. simpl.
  apply bool_decide_eq_false in Hname.
  apply foldl_preserves; [|done].
  intros nb xy Hnb. unfold Simulation.nearby_step.
  destruct (existsb _ _); [|done]. case_bool_decide; [done|].
  apply Forall_app. split; [done|]. constructor; [|constructor].
  split; [|by exists c0]. intros ->. rewrite Hi in Hc0. by injection Hc0 as ->.
Qed.

(** *** The transition function *)

Lemma set_state_same (c : Civilization) : set_state (state c) c = c.
Proof. by destruct c. Qed.

Lemma update_state_shape (self : Civilization) (nearby : list Civilization) (g : RNG) :
  (Civilization.update_state self nearby g).1
  = set_state (state (Civilization.update_state self nearby g).1) self.
Proof.
  unfold Civilization.update_state.
  destruct (negb (is_alive self)); [by rewrite set_state_same|].
  cbv zeta.
  repeat match goal with
         | |- context [if ?b then _ else _] => destruct b
         | |- context [let '(_, _) := ?p in _] => destruct p
         end; done.
Qed.

(** Expanding is only entered above 150 food per capita. *)
Lemma update_state_expanding (self : Civilization) (nearby : list Civilization) (g : RNG) :
  is_alive self = true -> 0 <= population self ->
  state (Civilization.update_state self nearby g).1 = EXPANDING ->
  0 < population self /\ 150 < food self.
Proof.
  intros Ha Hpop. unfold Civilization.update_state. rewrite Ha. cbn [negb]. cbv zeta.
  destruct (Q_ltb _ (inject_Z Civilization.FOOD_STARVING)); [done|].
  destruct (Q_ltb _ (inject_Z Civilization.FOOD_LOW)); [done|].
  destruct (_ && _ && Civilization.has_unmet self nearby); [done|].
  destruct (Q_ltb (inject_Z Civilization.FOOD_EXCESS) _) eqn:Hex; cbn [andb]; [|done].
  intros _. unfold Civilization.get_food_per_capita in Hex.
  destruct (population self =? 0) eqn:Hz; [done|]. apply Z.eqb_neq in Hz.
  assert (0 < population self) as Hp by lia.
  apply ratio_gt in Hex; [|done]. unfold Civilization.FOOD_EXCESS in Hex. lia.
Qed.

(** *** In-place changes of a live civilization *)

Lemma core_update_civ (i : nat) (f : Civilization -> Civilization) (s : Simulation) :
  (forall c, civilizations s !! i = Some c -> mild c (f c)) ->
  (Inv s -> Inv (update_civ i f s))
  /\ same_size (world s) (world (update_civ i f s))
  /\ Forall2 evolves (civilizations s) (civilizations (update_civ i f s)).
Proof.
  intros Hf.
  assert (forall c, civilizations s !! i = Some c ->
            name (f c) = name c /\ territory (f c) = territory c
            /\ (civ_ok c -> civ_ok (f c)) /\ (settled c -> settled (f c))
            /\ evolves c (f c)) as Hfacts.
  { intros c Hc. destruct (Hf c Hc) as [->|(Ha & Hn & Hp & Hcap & Ht & Hok & Hst)].
    - split; [done|]. split; [done|]. split; [done|]. split; [done|]. apply evolves_refl.
    - split; [done|]. split; [done|]. split; [done|]. split; [done|].
      unfold evolves. split; [done|]. split; [done|]. split; [done|].
      split; [by rewrite Ht | congruence]. }
  split; [|split; [done|]].
  - intros [H1 H2 H3 H4 H5]. split; simpl; try done.
    + apply land_ok_frame with (w := world s) (civs := civilizations s); [done|done|].
      intros k c' Hk. apply lookup_alter_Some in Hk as (c & Hc & [[_ ->]|[-> ->]]).
      * by exists c.
      * exists c. split; [done|]. destruct (Hfacts c Hc) as (? & ? & _). done.
    + apply Forall_alter; [done|]. intros c Hc. by destruct (Hfacts c Hc) as (_&_&?&_).
    + apply Forall_alter; [done|]. intros c Hc. by destruct (Hfacts c Hc) as (_&_&_&?&_).
  - simpl. apply Forall2_alter_self; [apply evolves_refl|].
    intros c Hc. by destruct (Hfacts c Hc) as (_&_&_&_&?).
Qed.

Lemma idle_benign (self : Civilization) :
  is_alive self = true -> benign self (Civilization._action_idle self).
Proof.
  intros Ha. unfold Civilization._action_idle. cbv zeta.
  destruct (Civilization.FOOD_LOW <? _); benign_alive Ha;
    unfold civ_ok, settled; simpl; rewrite Ha; (split; [lia|]);
    (intros [H|[H _]]; [by left | done]).
Qed.

Lemma defend_benign (self : Civilization) :
  is_alive self = true -> benign self (Civilization._action_defend self).
Proof.
  intros Ha. unfold Civilization._action_defend. benign_alive Ha.
  unfold civ_ok, settled; simpl; rewrite Ha. split; [done|].
  intros [H|[H _]]; [by left | done].
Qed.

Lemma set_state_benign (st : CivilizationState) (self : Civilization) :
  is_alive self = true -> benign self (set_state st self).
Proof.
  intros Ha. benign_alive Ha. unfold civ_ok, settled; simpl; rewrite Ha. split; [done|].
  intros [H|[H _]]; [by left | done].
Qed.

(** *** Harvesting *)

Lemma update_cell_ext (x y : Z) (f g : Cell -> Cell) (w : World) :
  (forall c, World.get_cell w x y = Some c -> f c = g c) ->
  World.update_cell x y f w = World.update_cell x y g w.
Proof.
  intros Hfg. unfold World.update_cell.
  destruct ((0 <=? x) && (x <? width w) && (0 <=? y) && (y <? height w)) eqn:Hb; [|done].
  f_equal. apply list_alter_ext; [|done]. intros row Hrow.
  apply list_alter_ext; [|done]. intros c Hc. apply Hfg.
  unfold World.get_cell. rewrite Hb, Hrow. done.
Qed.

Lemma calm_harvest (amount : Z) :
  0 <= amount -> calm (fun c => (Cell.harvest_food amount c).1).
Proof.
  intros Ha c. split; [done|]. split; [done|]. split; [done|]. by apply harvest_food_ok.
Qed.

Lemma tame_harvest_territory (amount : Z) (w : World) (terr : list (Z * Z)) :
  0 <= amount -> tame w (Civilization.harvest_territory amount w terr).1.
Proof.
  intros Ha. unfold Civilization.harvest_territory.
  generalize 0 as total. revert w.
  induction terr as [|xy terr IH]; intros w total; simpl; [apply tame_refl|].
  destruct (World.get_cell w xy.1 xy.2) as [cell|] eqn:Hc; [|apply IH].
  eapply tame_trans; [|apply IH].
  rewrite (update_cell_ext _ _ _ (fun c => (Cell.harvest_food amount c).1)).
  - by apply tame_update_cell, calm_harvest.
  - intros c Hc'. rewrite Hc in Hc'. by injection Hc' as <-.
Qed.

Lemma quiet_world_and_self (i : nat) (self self' : Civilization) (w' : World)
    (s : Simulation) :
  civilizations s !! i = Some self -> tame (world s) w' -> benign self self' ->
  quiet s (update_civ i (fun _ => self') (set_world w' s)).
Proof.
  intros Hi Hw Hb. eapply quiet_trans; [by apply quiet_set_world|].
  apply quiet_update_civ. simpl. intros c Hc. rewrite Hi in Hc. by injection Hc as <-.
Qed.

Lemma quiet_hunt (i : nat) (self : Civilization) (s : Simulation) :
  civilizations s !! i = Some self -> is_alive self = true ->
  quiet s (Civilization.on_world_and_self i Civilization._action_hunt s).
Proof.
  intros Hi Ha. unfold Civilization.on_world_and_self. rewrite Hi.
  unfold Civilization._action_hunt.
  pose proof (tame_harvest_territory 20 (world s) (territory self) ltac:(lia)) as Ht.
  destruct (Civilization.harvest_territory 20 (world s) (territory self)) as [w' total].
  cbv zeta. simpl in Ht. apply (quiet_world_and_self i self); [done|done|].
  destruct (0 <? total); benign_alive Ha;
    unfold civ_ok, settled; simpl; rewrite Ha; (split; [lia|]);
    (intros [H|[H _]]; [by left | done]).
Qed.

Lemma quiet_gather (i : nat) (self : Civilization) (s : Simulation) :
  civilizations s !! i = Some self -> is_alive self = true ->
  quiet s (Civilization.on_world_and_self i Civilization._action_gather s).
Proof.
  intros Hi Ha. unfold Civilization.on_world_and_self. rewrite Hi.
  unfold Civilization._action_gather.
  pose proof (tame_harvest_territory 12 (world s) (territory self) ltac:(lia)) as Ht.
  destruct (Civilization.harvest_territory 12 (world s) (territory self)) as [w' total].
  cbv zeta. simpl in Ht. apply (quiet_world_and_self i self); [done|done|].
  destruct (0 <? total); benign_alive Ha;
    unfold civ_ok, settled; simpl; rewrite Ha; (split; [lia|]);
    (intros [H|[H _]]; [by left | done]).
Qed.

(** *** Expansion *)

Lemma find_expansion_spec (w : World) (terr : list (Z * Z)) (cell : Cell) :
  Civilization.find_expansion w terr = Some cell ->
  owner cell = None /\ Cell.is_passable cell = true
  /\ exists a b, World.get_cell w a b = Some cell.
Proof.
  induction terr as [|[x y] terr IH]; simpl; [done|].
  destruct (List.find _ _) as [c|] eqn:Hf; [|apply IH].
  intros [= <-]. apply find_some in Hf as [Hin Ho].
  apply bool_decide_eq_true in Ho. split; [done|].
  apply list_elem_of_In in Hin. unfold World.get_passable_neighbors in Hin.
  apply list_elem_of_filter in Hin as [Hp Hin]. split; [done|].
  unfold World.get_neighbors in Hin.
  apply list_elem_of_omap in Hin as (d & _ & Hd). eauto.
Qed.

Lemma quiet_expand (i : nat) (self : Civilization) (s : Simulation) :
  civilizations s !! i = Some self -> is_alive self = true ->
  (0 <= population self -> 10 <= food self) ->
  quiet s (Civilization.on_world_and_self i Civilization._action_expand s).
Proof.
  intros Hi Ha Hfood. unfold Civilization.on_world_and_self. rewrite Hi.
  unfold Civilization._action_expand.
  destruct (Civilization.find_expansion (world s) (territory self)) as [cell|] eqn:Hfind.
  2:{ apply (quiet_world_and_self i self); [done | apply tame_refl | by left]. }
  apply find_expansion_spec in Hfind as (Hown & _ & a & b & Hcell).
  split; [|split].
  - intros [H1 H2 H3 H4 H5].
    destruct (H1 a b cell Hcell) as [Hx Hy].
    split; simpl.
    + apply coords_ok_update_cell; [done | done].
    + apply (land_ok_claim (world s) (civilizations s) i self); try done.
      unfold owner_at. rewrite Hx, Hy, Hcell. simpl. by rewrite Hown.
    + by apply all_cells_update_cell.
    + apply Forall_alter; [done|]. intros c Hc. rewrite Hi in Hc. injection Hc as <-.
      unfold civ_ok. simpl. intros [? ?]. split; [|done]. specialize (Hfood ltac:(done)). lia.
    + apply Forall_alter; [done|]. intros c Hc. rewrite Hi in Hc. injection Hc as <-.
      unfold settled. simpl. rewrite Ha. intros [H|[H _]]; [by left | done].
  - simpl. apply same_size_update_cell.
  - simpl. apply Forall2_alter_self.
    + intros x. split; [apply evolves_refl | done].
    + intros c Hc. rewrite Hi in Hc. injection Hc as <-. split; [|done].
      unfold evolves. simpl. split; [done|]. split; [done|]. split; [done|].
      split; [by eexists | congruence].
Qed.

(** *** Diplomacy *)

Lemma names_inj (civs : list Civilization) (a b : nat) (ca cb : Civilization) :
  NoDup (name <$> civs) -> civs !! a = Some ca -> civs !! b = Some cb ->
  name ca = name cb -> a = b.
Proof.
  intros Hnd Ha Hb Hn. apply (NoDup_lookup (name <$> civs) a b (name ca) Hnd).
  - by rewrite list_lookup_fmap, Ha.
  - by rewrite list_lookup_fmap, Hb, Hn.
Qed.

Lemma evolves_names (civs civs' : list Civilization) :
  Forall2 evolves civs civs' -> name <$> civs' = name <$> civs.
Proof.
  induction 1 as [|c c' l l' (Hname & _) _ IH]; [done|].
  rewrite !fmap_cons. by rewrite Hname, IH.
Qed.

Lemma establish_mild (key : string) (v : Z) (c : Civilization) :
  is_alive c = true -> mild c (establish key v c).
Proof.
  intros Ha. right. split; [done|]. split; [done|]. split; [done|]. split; [done|].
  split; [done|]. unfold civ_ok, settled. simpl. rewrite Ha. split; [done|].
  intros [H|[H _]]; [by left | done].
Qed.

Lemma rel_ok_establish (civs : list Civilization) (i j : nat)
    (self other : Civilization) (v : Z) :
  rel_ok civs -> i <> j -> civs !! i = Some self -> civs !! j = Some other ->
  relations self !! name other = None ->
  rel_ok (alter (establish (name self) v) j (alter (establish (name other) v) i civs))
  /\ keeps_relations civs
       (alter (establish (name self) v) j (alter (establish (name other) v) i civs)).
Proof.
  intros [Hn Hs Hk] Hij Hi Hj Hnone.
  set (civs' := alter _ j (alter _ i civs)).
  set (rel_at := fun (k : nat) (c : Civilization) =>
         if decide (k = i) then <[name other := v]> (relations c)
         else if decide (k = j) then <[name self := v]> (relations c)
         else relations c).
  assert (forall k c, civs !! k = Some c ->
            exists c', civs' !! k = Some c' /\ name c' = name c
                       /\ relations c' = rel_at k c) as Hfwd.
  { intros k c Hc. subst civs' rel_at. cbv beta.
    destruct (decide (k = i)) as [->|Hki].
    - rewrite list_lookup_alter_ne by done. rewrite list_lookup_alter_eq, Hc. simpl.
      by eexists.
    - destruct (decide (k = j)) as [->|Hkj].
      + rewrite list_lookup_alter_eq, list_lookup_alter_ne by done. rewrite Hc. simpl.
        by eexists.
      + rewrite !list_lookup_alter_ne by done. by exists c. }
  assert (forall k c', civs' !! k = Some c' ->
            exists c, civs !! k = Some c /\ name c' = name c
                      /\ relations c' = rel_at k c) as Hback.
  { intros k c' Hc'. destruct (civs !! k) as [c|] eqn:Hc.
    - destruct (Hfwd k c Hc) as (c2 & Hc2 & ? & ?). rewrite Hc' in Hc2.
      injection Hc2 as <-. by exists c.
    - exfalso. apply lookup_ge_None in Hc. apply lookup_lt_Some in Hc'.
      subst civs'. rewrite !length_alter in Hc'. lia. }
  assert (name <$> civs' = name <$> civs) as Hnames.
  { subst civs'. rewrite !(list_fmap_alter name _ id); [by rewrite !list_alter_id|..];
      apply Forall_forall; done. }
  assert (relations other !! name self = None) as Hnone'.
  { by rewrite <- (Hs i j self other Hi Hj). }
  assert (forall k c, civs !! k = Some c -> k <> j -> name other <> name c) as Hnj.
  { intros k c Hc Hkj Heq. apply Hkj. symmetry. by apply (names_inj civs j k other c). }
  assert (forall k c, civs !! k = Some c -> k <> i -> name self <> name c) as Hni.
  { intros k c Hc Hki Heq. apply Hki. symmetry. by apply (names_inj civs i k self c). }
  split; [split|].
  - by rewrite Hnames.
  - intros a b ca' cb' Ha Hb.
    destruct (Hback a ca' Ha) as (ca & Hca & -> & ->).
    destruct (Hback b cb' Hb) as (cb & Hcb & -> & ->).
    subst rel_at. cbv beta.
    destruct (decide (a = i)) as [->|Hai]; destruct (decide (b = i)) as [->|Hbi].
    + rewrite Hca in Hcb. by injection Hcb as <-.
    + rewrite Hi in Hca. injection Hca as <-.
      destruct (decide (b = j)) as [->|Hbj].
      * rewrite Hj in Hcb. injection Hcb as <-. by rewrite !lookup_insert_eq.
      * rewrite lookup_insert_ne by (by apply (Hnj b)). by apply (Hs i b).
    + rewrite Hi in Hcb. injection Hcb as <-.
      destruct (decide (a = j)) as [->|Haj].
      * rewrite Hj in Hca. injection Hca as <-. by rewrite !lookup_insert_eq.
      * rewrite (lookup_insert_ne _ (name other)) by (by apply (Hnj a)). by apply (Hs a i).
    + destruct (decide (a = j)) as [->|Haj]; destruct (decide (b = j)) as [->|Hbj].
      * rewrite Hca in Hcb. by injection Hcb as <-.
      * rewrite Hj in Hca. injection Hca as <-.
        rewrite lookup_insert_ne by (by apply (Hni b)). by apply (Hs j b).
      * rewrite Hj in Hcb. injection Hcb as <-.
        rewrite (lookup_insert_ne _ (name self)) by (by apply (Hni a)). by apply (Hs a j).
      * by apply (Hs a b).
  - intros k c' n Hc' Hsome. rewrite Hnames.
    destruct (Hback k c' Hc') as (c & Hc & _ & Hrel). rewrite Hrel in Hsome.
    subst rel_at. cbv beta in Hsome.
    assert (forall key (someone : Civilization) idx,
              civs !! idx = Some someone -> key = name someone ->
              is_Some (<[key := v]> (relations c) !! n) -> n ∈ name <$> civs) as Hins.
    { intros key someone idx Hidx -> Hsm.
      destruct (decide (name someone = n)) as [<-|Hne].
      - apply list_elem_of_fmap. exists someone. split; [done|].
        by eapply list_elem_of_lookup_2.
      - rewrite lookup_insert_ne in Hsm by done. by apply (Hk k c). }
    destruct (decide (k = i)); [by apply (Hins (name other) other j)|].
    destruct (decide (k = j)); [by apply (Hins (name self) self i)|].
    by apply (Hk k c).
  - intros k c Hc. destruct (Hfwd k c Hc) as (c' & Hc' & _ & Hrel).
    exists c'. split; [done|]. rewrite Hrel. subst rel_at. cbv beta.
    destruct (decide (k = i)) as [->|Hki].
    { rewrite Hi in Hc. injection Hc as <-. by apply insert_subseteq. }
    destruct (decide (k = j)) as [->|Hkj]; [|done].
    rewrite Hj in Hc. injection Hc as <-. by apply insert_subseteq.
Qed.

Lemma sound_diplomacy (i : nat) (nearby : list nat) (s : Simulation) (self : Civilization) :
  civilizations s !! i = Some self -> is_alive self = true ->
  neighbours_ok (civilizations s) i nearby ->
  sound s (Civilization._action_diplomacy i nearby s).
Proof.
  intros Hi Ha Hnear. induction nearby as [|j rest IH]; cbn [Civilization._action_diplomacy].
  { apply quiet_sound, quiet_update_civ. intros c Hc. rewrite Hi in Hc. injection Hc as <-.
    by apply set_state_benign. }
  apply Forall_cons in Hnear as [(Hji & other & Hj & Hoa) Hrest].
  rewrite Hi, Hj.
  case_bool_decide as Hknown; [by apply IH|].
  assert (relations self !! name other = None) as Hnone.
  { destruct (relations self !! name other) eqn:E; [|done]. exfalso. apply Hknown. by eexists. }
  destruct (Civilization._calculate_initial_relations self other (random_state s))
    as [v g'].
  cbv zeta.
  set (s1 := set_random_state g' s).
  set (s2 := update_civ i _ s1).
  set (s3 := update_civ j _ s2).
  assert (sound s s3) as Hs3.
  { pose proof (core_update_civ i (establish (name other) v) s1) as (I2 & _ & E2).
    { intros c Hc. simpl in Hc. rewrite Hi in Hc. injection Hc as <-. by apply establish_mild. }
    pose proof (core_update_civ j (establish (name self) v) s2) as (I3 & _ & E3).
    { intros c Hc. simpl in Hc. rewrite list_lookup_alter_ne in Hc by done.
      rewrite Hj in Hc. injection Hc as <-. by apply establish_mild. }
    split; [|split; [done|split]].
    - intros HI. apply I3, I2. destruct HI. by split.
    - eapply Forall2_trans; [apply evolves_trans | exact E2 | exact E3].
    - intros Hrel. by apply (rel_ok_establish (civilizations s) i j self other v). }
  destruct (50 <? v); [|destruct (v <? 20)];
    (eapply sound_trans; [exact Hs3 | by apply quiet_sound, quiet_same]).
Qed.

Lemma sound_execute_action (i : nat) (nearby : list nat) (s : Simulation)
    (self : Civilization) :
  civilizations s !! i = Some self -> is_alive self = true ->
  neighbours_ok (civilizations s) i nearby ->
  (state self = EXPANDING -> 0 <= population self -> 10 <= food self) ->
  sound s (Civilization.execute_action i nearby s).
Proof.
  intros Hi Ha Hnear Hexp. unfold Civilization.execute_action. rewrite Hi, Ha. cbn [negb].
  assert (quiet s (update_civ i Civilization._action_idle s)) as Hidle.
  { apply quiet_update_civ. intros c Hc. rewrite Hi in Hc. injection Hc as <-.
    by apply idle_benign. }
  destruct (state self) eqn:Hst.
  - by apply quiet_sound.
  - by apply quiet_sound, (quiet_hunt i self).
  - by apply quiet_sound, (quiet_gather i self).
  - apply quiet_sound, (quiet_expand i self); auto.
  - by apply (sound_diplomacy i nearby s self).
  - apply quiet_sound, quiet_update_civ. intros c Hc. rewrite Hi in Hc. injection Hc as <-.
    by apply defend_benign.
  - by apply quiet_sound.
Qed.

Lemma sound_civ_turn (s : Simulation) (i : nat) : sound s (Simulation.civ_turn s i).
Proof.
  unfold Simulation.civ_turn.
  destruct (civilizations s !! i) as [civ|] eqn:Hi; [|apply sound_refl].
  destruct (is_alive civ) eqn:Ha; [|apply sound_refl]. cbn [negb]. cbv zeta.
  pose proof (nearby_are_neighbours s i civ Hi) as Hnear.
  set (nearby := Simulation.get_nearby_civilizations s civ) in *.
  unfold Civilization.update_state_at. rewrite Hi.
  pose proof (update_state_shape civ (omap (fun j => civilizations s !! j) nearby)
                (random_state s)) as Hshape.
  pose proof (update_state_expanding civ (omap (fun j => civilizations s !! j) nearby)
                (random_state s) Ha) as Hexp.
  destruct (Civilization.update_state civ _ (random_state s)) as [self' g'].
  simpl in Hshape, Hexp.
  set (s1 := set_random_state g' (update_civ i (fun _ => self') s)).
  assert (quiet s s1) as Hq.
  { eapply quiet_trans; [apply (quiet_update_civ i (fun _ => self') s)|by apply quiet_same].
    intros c Hc. rewrite Hi in Hc. injection Hc as <-. rewrite Hshape.
    by apply set_state_benign. }
  eapply sound_trans; [by apply quiet_sound|].
  assert (is_alive self' = true) as Ha' by (by rewrite Hshape).
  apply (sound_execute_action i nearby s1 self').
  - simpl. by rewrite list_lookup_alter_eq, Hi.
  - done.
  - unfold neighbours_ok in *. eapply Forall_impl; [exact Hnear|].
    intros j (Hji & other & Hj & Hoa). split; [done|]. exists other.
    simpl. by rewrite list_lookup_alter_ne.
  - intros Hst Hpop. rewrite Hshape in Hpop |- *. simpl in *.
    destruct (Hexp Hpop Hst). lia.
Qed.

(** ** A fresh simulation *)

Lemma generate_row_lookup (xs : list nat) (y : Z) (g : RNG) (i : nat) (c : Cell) :
  (World.generate_row xs y g).1 !! i = Some c ->
  exists x, xs !! i = Some x /\ cell_x c = Z.of_nat x /\ cell_y c = y /\ food_ok c.
Proof.
  revert g i. induction xs as [|x xs IH]; intros g i; simpl; [done|].
  pose proof (cell_init_ok (Z.of_nat x) y g) as Hok.
  assert (cell_x (Cell.__init__ (Z.of_nat x) y g).1 = Z.of_nat x
          /\ cell_y (Cell.__init__ (Z.of_nat x) y g).1 = y) as [Hx Hy].
  { unfold Cell.__init__.
    repeat match goal with |- context [let '(_, _) := ?p in _] => destruct p end. done. }
  destruct (Cell.__init__ (Z.of_nat x) y g) as [c0 g1].
  specialize (IH g1). destruct (World.generate_row xs y g1) as [cs g2].
  destruct i as [|i]; simpl.
  - intros [= <-]. by exists x.
  - apply IH.
Qed.

Lemma generate_rows_lookup (w : Z) (ys : list nat) (g : RNG) (j : nat) (row : list Cell) :
  (World.generate_rows w ys g).1 !! j = Some row ->
  exists y, ys !! j = Some y
    /\ forall i c, row !! i = Some c ->
         cell_x c = Z.of_nat i /\ cell_y c = Z.of_nat y /\ food_ok c.
Proof.
  revert g j. induction ys as [|y ys IH]; intros g j; simpl; [done|].
  pose proof (generate_row_lookup (seq 0 (Z.to_nat w)) (Z.of_nat y) g) as Hrow.
  destruct (World.generate_row (seq 0 (Z.to_nat w)) (Z.of_nat y) g) as [r g1].
  specialize (IH g1). destruct (World.generate_rows w ys g1) as [rs g2].
  destruct j as [|j]; simpl.
  - intros [= <-]. exists y. split; [done|]. intros i c Hc.
    destruct (Hrow i c Hc) as (x & Hx & Hcx & Hcy & Hok).
    apply lookup_seq in Hx as [-> _]. done.
  - apply IH.
Qed.

Lemma world_init_ok (w h : Z) (g : RNG) :
  coords_ok (World.__init__ w h g).1
  /\ all_cells food_ok (World.__init__ w h g).1
  /\ width (World.__init__ w h g).1 = w /\ height (World.__init__ w h g).1 = h.
Proof.
  unfold World.__init__, World._generate_world.
  pose proof (generate_rows_lookup w (seq 0 (Z.to_nat h)) g) as Hrows.
  destruct (World.generate_rows w (seq 0 (Z.to_nat h)) g) as [gr g'].
  simpl in *. split; [|split; [|done]].
  - intros x y c. unfold World.get_cell. simpl.
    destruct (_ && _) eqn:Hb; [|done]. rewrite !andb_true_iff in Hb.
    destruct (gr !! Z.to_nat y) as [row|] eqn:Hr; [|done]. simpl. intros Hc.
    destruct (Hrows _ _ Hr) as (y0 & Hy0 & Hcells).
    apply lookup_seq in Hy0 as [-> _].
    destruct (Hcells _ _ Hc) as (-> & -> & _). lia.
  - unfold all_cells. simpl. apply Forall_forall. intros row Hrow.
    apply list_elem_of_lookup in Hrow as [j Hj].
    destruct (Hrows _ _ Hj) as (y0 & _ & Hcells).
    apply Forall_forall. intros c Hc. apply list_elem_of_lookup in Hc as [i Hi].
    by destruct (Hcells _ _ Hi) as (_ & _ & ?).
Qed.

Lemma land_ok_nil (w : World) : land_ok w [].
Proof. split; intros; by rewrite ?lookup_nil in *. Qed.

Lemma rel_ok_nil : rel_ok [].
Proof. split; [constructor | intros; by rewrite ?lookup_nil in * ..]. Qed.

Lemma init_Inv (w h : Z) (v : bool) (g : RNG) : Inv (Simulation.__init__ w h v g).
Proof.
  unfold Simulation.__init__.
  destruct (world_init_ok w h g) as (Hc & Hf & _).
  destruct (World.__init__ w h g) as [wd g']. simpl in *.
  split; simpl; [done | apply land_ok_nil | done | constructor | constructor].
Qed.

(** ** Founding a civilization *)

Lemma alter_last {A} (f : A -> A) (l : list A) (x : A) :
  alter f (length l) (l ++ [x]) = l ++ [f x].
Proof.
  replace (length l) with (length l + 0)%nat by lia.
  by rewrite alter_app_r.
Qed.

Lemma claim_step_founding (civs : list Civilization) (w0 : World) (self0 : Civilization)
    (x y : Z) (st : World * Civilization) (d : Z * Z) :
  founding civs w0 self0 st -> founding civs w0 self0 (Civilization.claim_step x y st d).
Proof.
  intros (Hs & Hinv & Hn & Hf & Hp & Ha & Hst & Hdc & Hr).
  unfold Civilization.claim_step. destruct st as [w self]. simpl in *.
  destruct (World.get_cell w (x + d.1) (y + d.2)) as [cell|] eqn:Hcell; [|done].
  destruct (Cell.is_passable cell && bool_decide (owner cell = None)) eqn:Hb; [|done].
  apply andb_true_iff in Hb as [_ Hown]. apply bool_decide_eq_true in Hown.
  split; [|split]; simpl.
  - eapply same_size_trans; [exact Hs | apply same_size_update_cell].
  - intros H1 H2 H3. destruct (Hinv H1 H2 H3) as (Hc & Hfo & Hl).
    destruct (Hc _ _ _ Hcell) as [Hx Hy].
    split; [by apply coords_ok_update_cell|]. split; [by apply all_cells_update_cell|].
    rewrite <- (alter_last
                  (fun _ => set_territory (territory self ++ [(cell_x cell, cell_y cell)]) self)
                  civs self).
    apply (land_ok_claim w (civs ++ [self]) (length civs) self); try done.
    + by rewrite lookup_app_r, Nat.sub_diag.
    + unfold owner_at. rewrite Hcell. simpl. by rewrite Hown.
    + simpl. by rewrite Hx, Hy.
  - done.
Qed.

Lemma claim_starting_founding (civs : list Civilization) (w : World) (self0 : Civilization)
    (x y : Z) :
  territory self0 = [] ->
  founding civs w self0 (Civilization._claim_starting_territory x y (w, self0)).
Proof.
  intros Hterr. unfold Civilization._claim_starting_territory.
  apply foldl_preserves.
  - intros st d. apply claim_step_founding.
  - split; [done|]. split; [|done]. intros H1 H2 H3. simpl.
    split; [done|]. split; [done|]. by apply land_ok_app_empty.
Qed.

Lemma rel_ok_app_fresh (civs : list Civilization) (c : Civilization) :
  NoDup (name <$> (civs ++ [c])) -> relations c = ∅ -> rel_ok civs ->
  rel_ok (civs ++ [c]).
Proof.
  intros Hnd Hempty [_ Hs Hk].
  assert (forall k c', (civs ++ [c]) !! k = Some c' ->
            civs !! k = Some c' \/ (k = length civs /\ c' = c)) as Hlk.
  { intros k c' Hc'. apply lookup_app_Some in Hc' as [?|[Hge Hc']]; [by left|].
    right. apply list_lookup_singleton_Some in Hc' as [Hz ->]. split; [lia | done]. }
  assert (forall k ck, civs !! k = Some ck -> relations ck !! name c = None) as Hfresh.
  { intros k ck Hck. destruct (relations ck !! name c) eqn:E; [|done]. exfalso.
    assert (name c ∈ name <$> civs) as Hin by (apply (Hk k ck); [done | by eexists]).
    rewrite fmap_app in Hnd. apply NoDup_app in Hnd as (_ & Hdis & _).
    apply (Hdis _ Hin). simpl. apply list_elem_of_here. }
  split; [done|..].
  - intros a b ca cb Hca Hcb.
    apply Hlk in Hca as [Hca|[-> ->]]; apply Hlk in Hcb as [Hcb|[-> ->]].
    + by apply (Hs a b).
    + rewrite Hempty, lookup_empty. by apply (Hfresh a).
    + rewrite Hempty, lookup_empty. symmetry. by apply (Hfresh b).
    + done.
  - intros k ck n Hck Hsome. rewrite fmap_app, elem_of_app.
    apply Hlk in Hck as [Hck|[-> ->]].
    + left. by apply (Hk k ck).
    + rewrite Hempty, lookup_empty in Hsome. by destruct Hsome.
Qed.

Lemma keeps_relations_app (civs extra : list Civilization) :
  keeps_relations civs (civs ++ extra).
Proof. intros i c Hc. exists c. split; [by apply lookup_app_l_Some | done]. Qed.

(** The part of [add_civilization] after the starting cell is chosen. *)
Lemma found_grows (nm : string) (x y : Z) (g : RNG) (s s' : Simulation)
    (civ : Civilization) (w' : World) (g2 : RNG) (ch : Chronicle) :
  Civilization.__init__ nm x y (world s) g = (w', civ, g2) ->
  s' = set_chronicle ch
         (set_random_state g2
            (set_civilizations (civilizations s ++ [civ]) (set_world w' s))) ->
  grows s s'.
Proof.
  unfold Civilization.__init__.
  pose proof (randint_range 30 60 g ltac:(lia)) as Hpop.
  destruct (random.randint 30 60 g) as [pop g1].
  destruct (random.randint 70 90 g1) as [mor g1'].
  destruct (random.choice_ne _ _ g1') as [pers g3].
  set (self0 := {| name := nm; population := pop |}).
  pose proof (claim_starting_founding (civilizations s) (world s) self0 x y eq_refl)
    as (Hs & Hinv & Hn & Hf & Hp & Ha & Hst & Hdc & Hr).
  destruct (Civilization._claim_starting_territory x y (world s, self0)) as [w1 c1].
  simpl in *. intros [= <- <- <-] ->.
  split; [|split; [done|split; [|split]]]; simpl.
  - intros [H1 H2 H3 H4 H5]. destruct (Hinv H1 H3 H2) as (Hc & Hfo & Hl).
    split; simpl; try done.
    + apply Forall_app. split; [done|]. constructor; [|constructor].
      unfold civ_ok. rewrite Hf, Hp. lia.
    + apply Forall_app. split; [done|]. constructor; [|constructor].
      left. rewrite Ha, Hp. unfold Civilization.POPULATION_MIN. split; [done | lia].
  - apply advances_app.
  - unfold names. simpl. rewrite fmap_app. by eexists.
  - unfold names. simpl. intros Hnd Hrel. split; [|apply keeps_relations_app].
    by apply rel_ok_app_fresh.
Qed.

Lemma add_civilization_grows (nm : string) (sx sy : option Z) (s s' : Simulation) :
  Simulation.add_civilization nm sx sy s = Ok s' -> grows s s'.
Proof.
  unfold Simulation.add_civilization.
  set (start := match sx, sy with Some _, Some _ => _ | _, _ => _ end).
  destruct start as [[[sx' sy'] g1]|]; [|done]. cbn [rbind].
  destruct sx' as [x|]; [|done]. destruct sy' as [y|]; [|done].
  destruct (Civilization.__init__ nm x y (world s) g1) as [[w' civ] g2] eqn:Hinit.
  intros [= <-]. by eapply found_grows.
Qed.

(** ** Ticks, runs and scripts *)

Lemma sound_exec_op (o : Op) (s s' : Simulation) : exec_op o s = Ok s' -> sound s s'.
Proof.
  destruct o; simpl.
  - intros [= <-]. apply quiet_sound, quiet_climate.
  - intros [= <-]. apply quiet_sound, quiet_resources.
  - intros [= <-]. apply sound_civ_turn.
  - intros H. by apply quiet_sound, (quiet_process_event e).
  - intros [= <-]. apply quiet_sound, quiet_population.
  - intros [= <-]. apply quiet_sound, quiet_advance_day.
Qed.

Lemma sound_exec_ops (os : list Op) (s s' : Simulation) :
  exec_ops os s = Ok s' -> sound s s'.
Proof.
  revert s. induction os as [|o os IH]; intros s; simpl.
  - intros [= <-]. apply sound_refl.
  - destruct (exec_op o s) as [s1|] eqn:Ho; [|done]. cbn [rbind]. intros H.
    eapply sound_trans; [by apply (sound_exec_op o) | by apply IH].
Qed.

Lemma exec_ops_app (l1 l2 : list Op) (s : Simulation) :
  exec_ops (l1 ++ l2) s = (do s1 <- exec_ops l1 s; exec_ops l2 s1).
Proof.
  revert s. induction l1 as [|o l1 IH]; intros s; simpl; [done|].
  destruct (exec_op o s); [apply IH | done].
Qed.

Lemma exec_ops_turns (l : list nat) (s : Simulation) :
  exec_ops (OpCivTurn <$> l) s = Ok (foldl Simulation.civ_turn s l).
Proof. revert s. induction l as [|i l IH]; intros s; simpl; [done | apply IH]. Qed.

Lemma exec_ops_population (l : list nat) (s : Simulation) :
  exec_ops (OpPopulation <$> l) s
  = Ok (foldl (fun s i => Civilization.process_population_changes_at i s) s l).
Proof. revert s. induction l as [|i l IH]; intros s; simpl; [done | apply IH]. Qed.

Lemma exec_ops_events (es : list RandomEvent) (s : Simulation) :
  exec_ops (OpEvent <$> es) s = Events.process_list es s.
Proof.
  revert s. induction es as [|e es IH]; intros s; simpl; [done|].
  destruct (Events.process_event e s); [apply IH | done].
Qed.

Lemma sound_length (s s' : Simulation) :
  sound s s' -> length (civilizations s') = length (civilizations s).
Proof. intros (_ & _ & H & _). symmetry. by eapply Forall2_length. Qed.

(** A tick is the execution of its operations in order. *)
Lemma tick_as_ops (s : Simulation) : Simulation.tick s = exec_ops (tick_ops s) s.
Proof.
  unfold Simulation.tick, tick_ops. cbv zeta.
  set (s2 := set_world (World.update_resources _) _).
  change (exec_ops ([OpClimate; OpResources] ++ _) s)
    with (exec_ops ((OpCivTurn <$> Simulation.all_civs s2)
                    ++ (OpEvent <$> Events.events)
                    ++ (OpPopulation <$> Simulation.all_civs s2) ++ [OpAdvanceDay]) s2).
  rewrite exec_ops_app, exec_ops_turns. cbn [rbind].
  fold (Simulation.civilization_actions s2).
  assert (length (civilizations (Simulation.civilization_actions s2))
          = length (civilizations s2)) as Hlen3.
  { apply sound_length, (sound_exec_ops (OpCivTurn <$> Simulation.all_civs s2)).
    by rewrite exec_ops_turns. }
  set (s3 := Simulation.civilization_actions s2) in *.
  rewrite exec_ops_app, exec_ops_events. unfold Events.process_events.
  destruct (Events.process_list Events.events s3) as [s4|] eqn:He; [|done]. cbn [rbind].
  assert (length (civilizations s4) = length (civilizations s3)) as Hlen4.
  { apply sound_length, (sound_exec_ops (OpEvent <$> Events.events)).
    by rewrite exec_ops_events. }
  rewrite exec_ops_app, exec_ops_population. cbn [rbind]. simpl.
  unfold Simulation.population_changes, Simulation.all_civs.
  by rewrite Hlen4, Hlen3.
Qed.

Lemma sound_tick (s s' : Simulation) : Simulation.tick s = Ok s' -> sound s s'.
Proof. rewrite tick_as_ops. apply sound_exec_ops. Qed.

Lemma process_list_total (es : list RandomEvent) (s : Simulation) :
  0 < width (world s) -> 0 < height (world s) ->
  exists s', Events.process_list es s = Ok s'.
Proof.
  revert s. induction es as [|e es IH]; intros s Hw Hh; simpl; [by eexists|].
  destruct (process_event_total e s Hw Hh) as [s1 H1]. rewrite H1. cbn [rbind].
  apply quiet_process_event in H1 as (_ & [Hw1 Hh1] & _).
  apply IH; lia.
Qed.

(** On a non-empty grid a tick always completes. *)
Lemma tick_total (s : Simulation) :
  0 < width (world s) -> 0 < height (world s) -> exists s', Simulation.tick s = Ok s'.
Proof.
  intros Hw Hh. unfold Simulation.tick. cbv zeta.
  set (s2 := set_world (World.update_resources _) _).
  assert (sound s2 (Simulation.civilization_actions s2)) as (_ & [Hw3 Hh3] & _).
  { apply (sound_exec_ops (OpCivTurn <$> Simulation.all_civs s2)).
    by rewrite exec_ops_turns. }
  destruct (process_list_total Events.events (Simulation.civilization_actions s2))
    as [s4 H4].
  - rewrite Hw3. exact Hw.
  - rewrite Hh3. exact Hh.
  - unfold Events.process_events. rewrite H4. cbn [rbind]. by eexists.
Qed.

Lemma sound_run_loop (start interval : Z) (delay : Q) (days : nat) (s s' : Simulation)
    (clock clock' : Q) :
  Simulation.run_loop start interval delay days s clock = Ok (s', clock') -> sound s s'.
Proof.
  revert s clock. induction days as [|d IH]; intros s clock; simpl.
  - intros [= <- _]. apply sound_refl.
  - destruct (negb (running s)); [intros [= <- _]; apply sound_refl|].
    destruct (Simulation.tick s) as [s1|] eqn:Ht; [|done]. cbn [rbind].
    apply sound_tick in Ht.
    destruct (Events.living_civs (civilizations s1)).
    + intros [= <- _]. eapply sound_trans; [exact Ht|]. by apply quiet_sound, quiet_same.
    + destruct (interval =? 0); [done|]. intros H.
      eapply sound_trans; [exact Ht | by eapply IH].
Qed.

Lemma sound_run (days interval : Z) (delay : Q) (s s' : Simulation) (clock clock' : Q) :
  Simulation.run days interval delay s clock = Ok (s', clock') -> sound s s'.
Proof.
  unfold Simulation.run. cbv zeta.
  destruct (Simulation.run_loop _ _ _ _ _ _) as [[s1 c1]|] eqn:Hl; [|done]. cbn [rbind].
  intros [= <- _]. apply sound_run_loop in Hl.
  eapply sound_trans; [by apply quiet_sound, (quiet_same s (set_running true s))|].
  eapply sound_trans; [exact Hl | by apply quiet_sound, quiet_same].
Qed.

Lemma sound_grows (s s' : Simulation) : sound s s' -> grows s s'.
Proof.
  intros (HI & HS & HE & HR). split; [done|]. split; [done|].
  split; [by apply Forall2_advances|]. split.
  - unfold names. by rewrite (evolves_names _ _ HE).
  - intros _. exact HR.
Qed.

Lemma grows_refl (s : Simulation) : grows s s.
Proof. apply sound_grows, sound_refl. Qed.

Lemma grows_trans (a b c : Simulation) : grows a b -> grows b c -> grows a c.
Proof.
  intros (I1 & S1 & A1 & P1 & R1) (I2 & S2 & A2 & P2 & R2).
  split; [auto|]. split; [by eapply same_size_trans|].
  split; [by eapply advances_trans|]. split; [by etrans|].
  intros Hnd Ha.
  assert (NoDup (names b)) as Hndb.
  { destruct P2 as [k Hk]. rewrite Hk in Hnd. by apply NoDup_app in Hnd as (? & _). }
  destruct (R1 Hndb Ha) as [Hb K1]. destruct (R2 Hnd Hb) as [Hc K2].
  split; [done | by eapply keeps_relations_trans].
Qed.

Lemma call_grows (c : Call) (s s' : Simulation) : call c s = Ok s' -> grows s s'.
Proof.
  destruct c as [nm sx sy| |days interval delay]; simpl.
  - apply add_civilization_grows.
  - intros H. by apply sound_grows, sound_tick.
  - destruct (Simulation.run days interval delay s 0%Q) as [[s1 c1]|] eqn:Hr; [|done].
    cbn [rbind]. intros [= <-]. by apply sound_grows, (sound_run _ _ _ _ _ _ _ Hr).
Qed.

Lemma exec_grows (cs : list Call) (s s' : Simulation) : exec cs s = Ok s' -> grows s s'.
Proof.
  revert s. induction cs as [|c cs IH]; intros s; simpl.
  - intros [= <-]. apply grows_refl.
  - destruct (call c s) as [s1|] eqn:Hc; [|done]. cbn [rbind]. intros H.
    eapply grows_trans; [by apply (call_grows c) | by apply IH].
Qed.

(** The store reached by a script from a fresh simulation satisfies the
    invariant. *)
Lemma exec_Inv (w h : Z) (v : bool) (g : RNG) (cs : list Call) (s : Simulation) :
  exec cs (Simulation.__init__ w h v g) = Ok s -> Inv s.
Proof. intros H. apply exec_grows in H as (HI & _). apply HI, init_Inv. Qed.

Lemma init_civilizations (w h : Z) (v : bool) (g : RNG) :
  civilizations (Simulation.__init__ w h v g) = [].
Proof. unfold Simulation.__init__. by destruct (World.__init__ w h g). Qed.

Lemma exec_rel_ok (w h : Z) (v : bool) (g : RNG) (cs : list Call) (s : Simulation) :
  exec cs (Simulation.__init__ w h v g) = Ok s -> NoDup (names s) ->
  rel_ok (civilizations s).
Proof.
  intros H Hnd. apply exec_grows in H as (_ & _ & _ & _ & HR).
  apply HR; [done|]. rewrite init_civilizations. apply rel_ok_nil.
Qed.

(** ** The claims about whole runs *)

Lemma ops_grows (os : list Op) (s s' : Simulation) : exec_ops os s = Ok s' -> grows s s'.
Proof. intros H. by apply sound_grows, (sound_exec_ops os). Qed.

(** The store at any point of a tick that follows a script. *)
Lemma reach_grows (w h : Z) (v : bool) (g : RNG) (cs : list Call) (os : list Op)
    (s s1 : Simulation) :
  exec cs (Simulation.__init__ w h v g) = Ok s -> exec_ops os s = Ok s1 ->
  grows (Simulation.__init__ w h v g) s1.
Proof.
  intros Hc Ho. eapply grows_trans; [by apply (exec_grows cs) | by apply (ops_grows os)].
Qed.

Lemma reach_Inv (w h : Z) (v : bool) (g : RNG) (cs : list Call) (os : list Op)
    (s s1 : Simulation) :
  exec cs (Simulation.__init__ w h v g) = Ok s -> exec_ops os s = Ok s1 -> Inv s1.
Proof. intros Hc Ho. destruct (reach_grows _ _ _ _ _ _ _ _ Hc Ho) as (HI & _). apply HI, init_Inv. Qed.




Lemma exec_app (l1 l2 : list Call) (s : Simulation) :
  exec (l1 ++ l2) s = (do s1 <- exec l1 s; exec l2 s1).
Proof.
  revert s. induction l1 as [|c l1 IH]; intros s; simpl; [done|].
  destruct (call c s); [apply IH | done].
Qed.

(** *** The demonstration stores *)

Lemma demo_founded_ok : exec demo_founding demo_init = Ok demo_founded.
Proof. apply the_store_ok. vm_compute. reflexivity. Qed.

Lemma demo_mid_ok : exec_ops demo_ops demo_founded = Ok demo_mid.
Proof. apply the_store_ok. vm_compute. reflexivity. Qed.

Lemma demo_later_ok : exec demo_ticks demo_founded = Ok demo_later.
Proof. apply the_store_ok. vm_compute. reflexivity. Qed.





(** *** Facts about single methods used by the claims *)




Lemma expand_food (w0 : World) (c : Civilization) :
  Civilization._action_expand (w0, c) = (w0, c)
  \/ food (Civilization._action_expand (w0, c)).2 = food c - 10.
Proof.
  unfold Civilization._action_expand.
  destruct (Civilization.find_expansion w0 (territory c)); [by right | by left].
Qed.

Lemma update_state_expanding_fpc (self : Civilization) (nearby : list Civilization)
    (g : RNG) :
  is_alive self = true ->
  state (Civilization.update_state self nearby g).1 = EXPANDING ->
  (150 < Civilization.get_food_per_capita self)%Q.
Proof.
  intros Ha. unfold Civilization.update_state. rewrite Ha. cbn [negb]. cbv zeta.
  destruct (Q_ltb _ (inject_Z Civilization.FOOD_STARVING)); [done|].
  destruct (Q_ltb _ (inject_Z Civilization.FOOD_LOW)); [done|].
  destruct (_ && _ && Civilization.has_unmet self nearby); [done|].
  destruct (Q_ltb (inject_Z Civilization.FOOD_EXCESS) _) eqn:Hex; cbn [andb]; [|done].
  intros _. by apply Q_ltb_lt in Hex.
Qed.







(** ** C1: territory and ownership *)

(** C1: in every store reached by calls of [add_civilization], [tick] and
    [run] on a fresh simulation, every coordinate of a territory list is
    a cell whose owner is the name of that civilization, no coordinate is
    listed twice or by two civilizations (a cell has one owner field, so
    at most one owner), and over any further calls each territory list
    only grows at its end: its length never decreases and no coordinate
    is removed. *)
Theorem C1_territory_and_ownership (w h : Z) (v : bool) (g : RNG) (cs cs' : list Call)
    (s s' : Simulation) :
  exec cs (Simulation.__init__ w h v g) = Ok s -> exec cs' s = Ok s' ->
  (forall i c xy, civilizations s !! i = Some c -> xy ∈ territory c ->
     exists cell, World.get_cell (world s) xy.1 xy.2 = Some cell
                  /\ owner cell = Some (name c))
  /\ (forall i c, civilizations s !! i = Some c -> NoDup (territory c))
  /\ (forall i j ci cj xy, i <> j ->
        civilizations s !! i = Some ci -> civilizations s !! j = Some cj ->
        xy ∈ territory ci -> xy ∉ territory cj)
  /\ (forall i c, civilizations s !! i = Some c ->
        exists c', civilizations s' !! i = Some c' /\ name c' = name c
                   /\ territory c `prefix_of` territory c'
                   /\ (length (territory c) <= length (territory c'))%nat).
Proof.
  intros Hs Hs'. destruct (exec_Inv _ _ _ _ _ _ Hs) as [_ [Ho Hn Hd] _ _ _].
  split; [|split; [exact Hn|split; [exact Hd|]]].
  - intros i c xy Hi Hin. specialize (Ho i c xy Hi Hin). unfold owner_at in Ho.
    destruct (World.get_cell (world s) xy.1 xy.2) as [cell|]; [|done].
    exists cell. split; [done|]. by injection Ho.
  - intros i c Hi. apply exec_grows in Hs' as (_ & _ & Hadv & _).
    destruct (Hadv i c Hi) as (c' & Hc' & Hname & _ & _ & Hpre & _).
    exists c'. split; [done|]. split; [done|]. split; [done|]. by apply prefix_length.
Qed.

Lemma C1_territory_and_ownership_witness :
  exec demo_founding demo_init = Ok demo_founded
  /\ exec demo_ticks demo_founded = Ok demo_later
  /\ (forall i c, civilizations demo_founded !! i = Some c -> NoDup (territory c)).
Proof.
  split; [exact demo_founded_ok|]. split; [exact demo_later_ok|].
  exact (proj1 (proj2 (C1_territory_and_ownership 10 10 false demo_rng
                         demo_founding demo_ticks demo_founded demo_later
                         demo_founded_ok demo_later_ok))).
Defined.

(** ** C2: the food stock of a cell *)

(** C2: in every store reached from a fresh simulation by calls of the
    interface followed by any operations of a tick under way (a tick is the
    sequence [tick_ops] of such operations), every cell of the grid has
    0 <= food_resource <= 2 * max_food; each of the four cell operations
    (harvest, regeneration, drought, bountiful harvest) keeps these bounds;
    and [regenerate_food] leaves a water cell as it is, for every rate. *)
Theorem C2_food_bounds (w h : Z) (v : bool) (g : RNG) (cs : list Call) (os : list Op)
    (s s1 : Simulation) :
  exec cs (Simulation.__init__ w h v g) = Ok s -> exec_ops os s = Ok s1 ->
  (forall x y c, World.get_cell (world s1) x y = Some c ->
     0 <= food_resource c <= 2 * max_food c)
  /\ Simulation.tick s = exec_ops (tick_ops s) s
  /\ (forall amount c, 0 <= amount -> food_ok c ->
        food_ok (Cell.harvest_food amount c).1)
  /\ (forall rate c, (0 <= rate)%Q -> food_ok c -> food_ok (Cell.regenerate_food rate c))
  /\ (forall c, food_ok c ->
        food_ok (Events.drought_cell c) /\ food_ok (Events.bountiful_cell c))
  /\ (forall rate c, terrain c = WATER ->
        Cell.regenerate_food rate c = c
        /\ food_resource (Cell.regenerate_food rate c) = food_resource c).
Proof.
  intros Hs Ho. split; [|split; [apply tick_as_ops|split; [|split; [|split]]]].
  - intros x y c Hc. pose proof (reach_Inv _ _ _ _ _ _ _ _ Hs Ho) as [_ _ Hcells _ _].
    exact (all_cells_get food_ok _ _ _ _ Hcells Hc).
  - intros amount c. apply harvest_food_ok.
  - intros rate c. apply regenerate_food_ok.
  - intros c Hc. split; [by apply drought_cell_ok | by apply bountiful_cell_ok].
  - intros rate c Ht. by rewrite (regenerate_food_water rate c Ht).
Qed.

Lemma C2_food_bounds_witness :
  exec demo_founding demo_init = Ok demo_founded
  /\ exec_ops demo_ops demo_founded = Ok demo_mid
  /\ (forall x y c, World.get_cell (world demo_mid) x y = Some c ->
        0 <= food_resource c <= 2 * max_food c).
Proof.
  split; [exact demo_founded_ok|]. split; [exact demo_mid_ok|].
  exact (proj1 (C2_food_bounds 10 10 false demo_rng demo_founding demo_ops
                  demo_founded demo_mid demo_founded_ok demo_mid_ok)).
Defined.

(** ** C3: the stockpile of a civilization *)

(** C3: in every store reached from a fresh simulation by calls of the
    interface followed by any operations of a tick under way, the food
    stockpile of every civilization is not negative.  When [update_state]
    puts a live civilization in the Expanding state, its food per capita
    is above 150 and its population is positive, so its food is above 150;
    [_action_expand] either changes nothing or deducts exactly 10, which
    leaves more than 140. *)
Theorem C3_food_never_negative (w h : Z) (v : bool) (g : RNG) (cs : list Call)
    (os : list Op) (s s1 : Simulation) :
  exec cs (Simulation.__init__ w h v g) = Ok s -> exec_ops os s = Ok s1 ->
  (forall i c, civilizations s1 !! i = Some c -> 0 <= food c)
  /\ (forall self nearby g0 w0,
        is_alive self = true -> 0 <= population self ->
        state (Civilization.update_state self nearby g0).1 = EXPANDING ->
        (150 < Civilization.get_food_per_capita self)%Q
        /\ 0 < population self /\ 150 < food self
        /\ 140 < food (Civilization._action_expand
                         (w0, (Civilization.update_state self nearby g0).1)).2)
  /\ (forall w0 c,
        Civilization._action_expand (w0, c) = (w0, c)
        \/ food (Civilization._action_expand (w0, c)).2 = food c - 10).
Proof.
  intros Hs Ho. split; [|split].
  - intros i c Hi. pose proof (reach_Inv _ _ _ _ _ _ _ _ Hs Ho) as [_ _ _ Hcivs _].
    rewrite Forall_lookup in Hcivs. by destruct (Hcivs i c Hi).
  - intros self nearby g0 w0 Ha Hpop Hst.
    pose proof (update_state_expanding self nearby g0 Ha Hpop Hst) as [Hp Hf].
    split; [by eapply update_state_expanding_fpc|]. split; [done|]. split; [done|].
    assert (food (Civilization.update_state self nearby g0).1 = food self) as Hsame
      by (by rewrite update_state_shape).
    destruct (expand_food w0 (Civilization.update_state self nearby g0).1) as [-> | ->];
      cbn [snd]; lia.
  - apply expand_food.
Qed.

Lemma C3_food_never_negative_witness :
  exec demo_founding demo_init = Ok demo_founded
  /\ exec_ops demo_ops demo_founded = Ok demo_mid
  /\ (forall i c, civilizations demo_mid !! i = Some c -> 0 <= food c).
Proof.
  split; [exact demo_founded_ok|]. split; [exact demo_mid_ok|].
  exact (proj1 (C3_food_never_negative 10 10 false demo_rng demo_founding demo_ops
                  demo_founded demo_mid demo_founded_ok demo_mid_ok)).
Defined.

(** ** C5: relations *)



(** ** C6: collapse *)



(** ** C9: the delay between ticks *)


(** ** Runs of the events and of the placement search *)

Lemma C7_drought_footprint_witness :
  0 < width (world demo_founded) /\ 0 < height (world demo_founded)
  /\ exists s', Events.DroughtEvent_execute demo_founded = Ok s'
                /\ civilizations s' = civilizations demo_founded.
Proof.
  assert (0 < width (world demo_founded)) as Hw by (vm_compute; reflexivity).
  assert (0 < height (world demo_founded)) as Hh by (vm_compute; reflexivity).
  split; [exact Hw|]. split; [exact Hh|].
  destruct (C7_drought_footprint demo_founded Hw Hh) as (s' & cx & cy & He & _ & _ & _ & Hc).
  exists s'. split; [exact He | exact Hc].
Defined.

Lemma C8_placement_search_witness :
  exists other, other ∈ civilizations demo_founded
    /\ manhattan (8, 6) (capital other) <= 5
    /\ Simulation.acceptable demo_founded 8 6 = false.
Proof.
  assert ((capital <$> civilizations demo_founded) !! 1%nat = Some (6, 3)) as H
    by (vm_compute; reflexivity).
  rewrite list_lookup_fmap in H.
  destruct (civilizations demo_founded !! 1%nat) as [other|] eqn:E; [|discriminate H].
  injection H as Hcap. exists other.
  assert (other ∈ civilizations demo_founded) as Hin
    by (eapply list_elem_of_lookup_2; exact E).
  assert (manhattan (8, 6) (capital other) <= 5) as Hd
    by (rewrite Hcap; unfold manhattan; simpl; lia).
  split; [exact Hin|]. split; [exact Hd|].
  exact (proj1 (proj2 (proj2 (C8_placement_search "C" demo_founded))) 8 6 other Hin Hd).
Defined.

(** ** Further properties of cell.py and world.py *)

Lemma randint_cursor (a b : Z) (g : RNG) :
  random.cursor (random.randint a b g).2 = S (random.cursor g).
Proof. reflexivity. Qed.

Lemma random_cursor (g : RNG) : random.cursor (random.random g).2 = S (random.cursor g).
Proof. reflexivity. Qed.

Lemma choice_ne_cursor {A} (d : A) (l : list A) (g : RNG) :
  random.cursor (random.choice_ne d l g).2 = S (random.cursor g).
Proof. reflexivity. Qed.

Lemma choice_ne_elem {A} (d : A) (l : list A) (g : RNG) :
  (random.choice_ne d l g).1 ∈ d :: l.
Proof.
  unfold random.choice_ne. remember (d :: l) as k eqn:Hk.
  assert (0 < Z.of_nat (length k)) as Hlen by (subst k; simpl; lia).
  simpl. apply list_elem_of_In, nth_In.
  pose proof (Z.mod_pos_bound (random.tape g (random.cursor g))
                (Z.of_nat (length k)) Hlen) as Hb.
  lia.
Qed.

Lemma generate_terrain_spec (alt bt : Z) (g : RNG) :
  ((Cell._generate_terrain alt bt g).1 = MOUNTAIN <-> 80 < alt)
  /\ ((Cell._generate_terrain alt bt g).1 = WATER <-> alt < 10)
  /\ ((Cell._generate_terrain alt bt g).1 = DESERT <-> 10 <= alt <= 80 /\ 35 < bt)
  /\ (random.cursor g <= random.cursor (Cell._generate_terrain alt bt g).2
      <= S (random.cursor g))%nat.
Proof.
  unfold Cell._generate_terrain.
  destruct (80 <? alt) eqn:H1; [apply Z.ltb_lt in H1 | apply Z.ltb_ge in H1].
  { simpl. repeat split; try done; try lia. }
  destruct (alt <? 10) eqn:H2; [apply Z.ltb_lt in H2 | apply Z.ltb_ge in H2].
  { simpl. repeat split; try done; try lia. }
  destruct (35 <? bt) eqn:H3; [apply Z.ltb_lt in H3 | apply Z.ltb_ge in H3].
  { simpl. repeat split; try done; try lia. }
  pose proof (random_cursor g) as Hc. destruct (random.random g) as [r g'].
  cbn [snd] in Hc. destruct (Q_ltb r (3 # 10)); cbn [fst snd]; rewrite Hc;
    repeat split; try done; try lia.
Qed.

Lemma generate_mineral_spec (t : TerrainType) (g : RNG) :
  match t with
  | MOUNTAIN => (Cell._generate_mineral t g).1 <> NONE
  | PLAINS => (Cell._generate_mineral t g).1 = NONE
              \/ (Cell._generate_mineral t g).1 = STONE
  | _ => (Cell._generate_mineral t g).1 = NONE
  end
  /\ (random.cursor g <= random.cursor (Cell._generate_mineral t g).2
      <= S (random.cursor g))%nat.
Proof.
  destruct t; cbn [Cell._generate_mineral]; try (split; [done | cbn [snd]; lia]).
  - pose proof (random_cursor g) as Hc. destruct (random.random g) as [r g'].
    cbn [snd] in Hc. destruct (Q_ltb r (1 # 10)); cbn [fst snd]; rewrite Hc;
      (split; [auto | lia]).
  - pose proof (choice_ne_elem IRON [GOLD; COPPER; STONE] g) as He.
    rewrite choice_ne_cursor. split; [|lia].
    intros Hn. rewrite Hn in He. apply list_elem_of_In in He. simpl in He.
    intuition discriminate.
Qed.

(** X1: a new cell carries the coordinates it is given, has no owner, its
    temperature is its base temperature and its ceiling is its initial
    stock; the altitude is drawn in [0, 100] and the base temperature in
    [-20, 40]; the terrain is mountain exactly above altitude 80, water
    exactly below altitude 10, desert exactly at the other altitudes with
    a base temperature above 35; the initial stock lies in the range of
    its terrain; only mountains and plains hold a mineral (a mountain
    always does, plains hold stone or nothing); and the construction
    draws between 7 and 9 numbers from the generator. *)
Theorem X1_cell_init (x y : Z) (g : RNG) :
  let c := (Cell.__init__ x y g).1 in
  let g' := (Cell.__init__ x y g).2 in
  (cell_x c = x /\ cell_y c = y /\ owner c = None
   /\ temperature c = base_temperature c /\ max_food c = food_resource c)
  /\ (0 <= altitude c <= 100 /\ -20 <= base_temperature c <= 40)
  /\ (terrain c = MOUNTAIN <-> 80 < altitude c)
  /\ (terrain c = WATER <-> altitude c < 10)
  /\ (terrain c = DESERT <-> 10 <= altitude c <= 80 /\ 35 < base_temperature c)
  /\ match terrain c with
     | PLAINS => 50 <= food_resource c <= 100
     | FOREST => 80 <= food_resource c <= 150
     | MOUNTAIN => 10 <= food_resource c <= 30
     | WATER => 60 <= food_resource c <= 120
     | DESERT => 5 <= food_resource c <= 20
     end
  /\ match terrain c with
     | MOUNTAIN => mineral c <> NONE
     | PLAINS => mineral c = NONE \/ mineral c = STONE
     | _ => mineral c = NONE
     end
  /\ (random.cursor g + 7 <= random.cursor g' <= random.cursor g + 9)%nat.
Proof.
  cbv zeta. unfold Cell.__init__.
  pose proof (randint_range 0 100 g ltac:(lia)) as Ha.
  pose proof (randint_cursor 0 100 g) as Ca.
  destruct (random.randint 0 100 g) as [alt g1]. cbn [fst snd] in Ha, Ca.
  pose proof (randint_range (-20) 40 g1 ltac:(lia)) as Hb.
  pose proof (randint_cursor (-20) 40 g1) as Cb.
  destruct (random.randint (-20) 40 g1) as [bt g2]. cbn [fst snd] in Hb, Cb.
  pose proof (generate_terrain_spec alt bt g2) as (Tm & Tw & Td & Ct).
  destruct (Cell._generate_terrain alt bt g2) as [t g3]. cbn [fst snd] in Tm, Tw, Td, Ct.
  pose proof (generate_mineral_spec t g3) as (Hm & Cm).
  destruct (Cell._generate_mineral t g3) as [m g4]. cbn [fst snd] in Hm, Cm.
  unfold Cell._initial_food.
  pose proof (randint_range 50 100 g4 ltac:(lia)) as H1.
  pose proof (randint_cursor 50 100 g4) as C1.
  destruct (random.randint 50 100 g4) as [f1 h1]. cbn [fst snd] in H1, C1.
  pose proof (randint_range 80 150 h1 ltac:(lia)) as H2.
  pose proof (randint_cursor 80 150 h1) as C2.
  destruct (random.randint 80 150 h1) as [f2 h2]. cbn [fst snd] in H2, C2.
  pose proof (randint_range 10 30 h2 ltac:(lia)) as H3.
  pose proof (randint_cursor 10 30 h2) as C3.
  destruct (random.randint 10 30 h2) as [f3 h3]. cbn [fst snd] in H3, C3.
  pose proof (randint_range 60 120 h3 ltac:(lia)) as H4.
  pose proof (randint_cursor 60 120 h3) as C4.
  destruct (random.randint 60 120 h3) as [f4 h4]. cbn [fst snd] in H4, C4.
  pose proof (randint_range 5 20 h4 ltac:(lia)) as H5.
  pose proof (randint_cursor 5 20 h4) as C5.
  destruct (random.randint 5 20 h4) as [f5 h5]. cbn [fst snd] in H5, C5.
  cbn [fst snd cell_x cell_y owner temperature base_temperature max_food
       food_resource altitude terrain mineral].
  split; [done|]. split; [done|]. split; [done|]. split; [done|]. split; [done|].
  split; [by destruct t|]. split; [done|]. lia.
Qed.

(** X2: [harvest_food(amount)] returns min(amount, stock) and takes
    exactly what it returns from the stock; for a non-negative amount and
    stock the return value lies between 0 and the amount and the stock
    stays non-negative; a negative amount is not rejected: it is returned
    as it is and the stock grows by its absolute value. *)
Theorem X2_harvest_food (amount : Z) (c : Cell) :
  let r := Cell.harvest_food amount c in
  r.2 = Z.min amount (food_resource c)
  /\ food_resource r.1 + r.2 = food_resource c
  /\ (max_food r.1 = max_food c /\ owner r.1 = owner c /\ terrain r.1 = terrain c)
  /\ (0 <= amount -> 0 <= food_resource c ->
      0 <= r.2 <= amount /\ 0 <= food_resource r.1)
  /\ (amount < 0 -> 0 <= food_resource c ->
      r.2 = amount /\ food_resource r.1 = food_resource c - amount).
Proof.
  cbv zeta. unfold Cell.harvest_food. cbn [fst snd food_resource set_food_resource].
  split; [done|]. split; [lia|]. split; [done|]. split; intros; lia.
Qed.

(** X3: the season modifier lies in [-15, 15] and depends on the day of
    the year only; it is -15 on the first day of a year and 15 on day
    181; it is at most -10 exactly on the days 0..35 and 333..364 of a
    year, so [update_resources] regenerates at rate 0.1 on the days
    36..332 of a year and at rate 0.02 on the others. *)
Theorem X3_season_modifier (w : World) :
  -15 <= World.get_season_modifier w <= 15
  /\ (forall w', current_day w' mod 365 = current_day w mod 365 ->
        World.get_season_modifier w' = World.get_season_modifier w)
  /\ (current_day w mod 365 = 0 -> World.get_season_modifier w = -15)
  /\ (current_day w mod 365 = 181 -> World.get_season_modifier w = 15)
  /\ (World.get_season_modifier w <= -10
      <-> current_day w mod 365 <= 35 \/ 333 <= current_day w mod 365)
  /\ World.update_resources w
     = set_grid (World.map_cells
                   (Cell.regenerate_food
                      (if decide (36 <= current_day w mod 365 <= 332)
                       then (1 # 10)%Q else (2 # 100)%Q))
                   (grid w)) w.
Proof.
  assert (World.get_season_modifier w <= -10
          <-> current_day w mod 365 <= 35 \/ 333 <= current_day w mod 365) as Hslow.
  { unfold World.get_season_modifier, World.DAYS_PER_YEAR. cbv zeta.
    pose proof (Z.mod_pos_bound (current_day w) 365 ltac:(lia)) as Hd.
    set (d := current_day w mod 365) in *. clearbody d.
    destruct (d <? 91) eqn:H1; [apply Z.ltb_lt in H1 | apply Z.ltb_ge in H1].
    { split; intros; Z.div_mod_to_equations; lia. }
    destruct (d <? 182) eqn:H2; [apply Z.ltb_lt in H2 | apply Z.ltb_ge in H2].
    { split; intros; Z.div_mod_to_equations; lia. }
    destruct (d <? 273) eqn:H3; [apply Z.ltb_lt in H3 | apply Z.ltb_ge in H3].
    { split; intros; Z.div_mod_to_equations; lia. }
    split; intros; Z.div_mod_to_equations; lia. }
  split; [|split; [|split; [|split; [|split; [exact Hslow|]]]]].
  - unfold World.get_season_modifier, World.DAYS_PER_YEAR. cbv zeta.
    pose proof (Z.mod_pos_bound (current_day w) 365 ltac:(lia)) as Hd.
    set (d := current_day w mod 365) in *. clearbody d.
    destruct (d <? 91) eqn:H1; [apply Z.ltb_lt in H1 | apply Z.ltb_ge in H1].
    { Z.div_mod_to_equations; lia. }
    destruct (d <? 182) eqn:H2; [apply Z.ltb_lt in H2 | apply Z.ltb_ge in H2].
    { Z.div_mod_to_equations; lia. }
    destruct (d <? 273) eqn:H3; [apply Z.ltb_lt in H3 | apply Z.ltb_ge in H3].
    { Z.div_mod_to_equations; lia. }
    Z.div_mod_to_equations; lia.
  - intros w' Hw'. unfold World.get_season_modifier, World.DAYS_PER_YEAR. cbv zeta.
    by rewrite Hw'.
  - intros H0. unfold World.get_season_modifier, World.DAYS_PER_YEAR. cbv zeta.
    rewrite H0. reflexivity.
  - intros H0. unfold World.get_season_modifier, World.DAYS_PER_YEAR. cbv zeta.
    rewrite H0. reflexivity.
  - unfold World.update_resources. cbv zeta.
    destruct (-10 <? World.get_season_modifier w) eqn:Hm;
      [apply Z.ltb_lt in Hm | apply Z.ltb_ge in Hm].
    + rewrite decide_True; [done|]. destruct Hslow as [_ Hs].
      destruct (decide (36 <= current_day w mod 365 <= 332)); [done|].
      assert (World.get_season_modifier w <= -10) by (apply Hs; lia). lia.
    + rewrite decide_False; [done|]. destruct Hslow as [Hs _]. specialize (Hs Hm). lia.
Qed.

(** X4: [advance_day] adds one to the day counter, increments the year
    exactly when the new day is a multiple of 365 and touches nothing
    else; so n calls add n days and as many years as there are multiples
    of 365 among the days passed, and from the fresh counters (day 0,
    year 1) the year after n days is 1 + n // 365. *)
Theorem X4_calendar (n : nat) (w : World) :
  let w' := Nat.iter n World.advance_day w in
  current_day w' = current_day w + Z.of_nat n
  /\ current_year w'
     = current_year w + (current_day w + Z.of_nat n) / 365 - current_day w / 365
  /\ (grid w' = grid w /\ width w' = width w /\ height w' = height w)
  /\ (current_day (World.advance_day w) = current_day w + 1
      /\ current_year (World.advance_day w)
         = if decide ((current_day w + 1) mod 365 = 0) then current_year w + 1
           else current_year w)
  /\ (current_day w = 0 -> current_year w = 1 -> current_year w' = 1 + Z.of_nat n / 365).
Proof.
  cbv zeta.
  assert (current_day (Nat.iter n World.advance_day w) = current_day w + Z.of_nat n
          /\ current_year (Nat.iter n World.advance_day w)
             = current_year w + (current_day w + Z.of_nat n) / 365 - current_day w / 365
          /\ (grid (Nat.iter n World.advance_day w) = grid w
              /\ width (Nat.iter n World.advance_day w) = width w
              /\ height (Nat.iter n World.advance_day w) = height w)) as (Hd & Hy & Hg).
  { induction n as [|n (IHd & IHy & IHg)].
    - simpl. split; [lia|]. split; [|done]. rewrite Z.add_0_r. lia.
    - rewrite Nat.iter_succ. set (w1 := Nat.iter n World.advance_day w) in *.
      unfold World.advance_day, World.DAYS_PER_YEAR.
      cbn [current_day current_year grid width height]. rewrite IHd, IHy.
      split; [lia|]. split; [|done].
      replace (current_day w + Z.of_nat (S n)) with (current_day w + Z.of_nat n + 1) by lia.
      destruct ((current_day w + Z.of_nat n + 1) mod 365 =? 0) eqn:Hm;
        [apply Z.eqb_eq in Hm | apply Z.eqb_neq in Hm];
        Z.div_mod_to_equations; lia. }
  split; [exact Hd|]. split; [exact Hy|]. split; [exact Hg|]. split.
  - unfold World.advance_day, World.DAYS_PER_YEAR. cbn [current_day current_year].
    split; [done|]. destruct (_ =? 0) eqn:Hm.
    + apply Z.eqb_eq in Hm. by rewrite decide_True.
    + apply Z.eqb_neq in Hm. by rewrite decide_False.
  - intros H0 H1. rewrite Hy, H0, H1. rewrite Z.add_0_l. change (0 / 365) with 0. lia.
Qed.

Lemma generate_row_length (xs : list nat) (y : Z) (g : RNG) :
  length (World.generate_row xs y g).1 = length xs.
Proof.
  revert g. induction xs as [|x xs IH]; intros g; simpl; [done|].
  destruct (Cell.__init__ (Z.of_nat x) y g) as [c g1]. specialize (IH g1).
  destruct (World.generate_row xs y g1) as [cs g2]. simpl in *. by rewrite IH.
Qed.

Lemma generate_row_owner (xs : list nat) (y : Z) (g : RNG) :
  Forall (fun c => owner c = None) (World.generate_row xs y g).1.
Proof.
  revert g. induction xs as [|x xs IH]; intros g; simpl; [done|].
  assert (owner (Cell.__init__ (Z.of_nat x) y g).1 = None) as Ho.
  { unfold Cell.__init__.
    repeat match goal with |- context [let '(_, _) := ?p in _] => destruct p end. done. }
  destruct (Cell.__init__ (Z.of_nat x) y g) as [c g1]. specialize (IH g1).
  destruct (World.generate_row xs y g1) as [cs g2]. simpl in *. by constructor.
Qed.

Lemma generate_rows_shape (w : Z) (ys : list nat) (g : RNG) :
  length (World.generate_rows w ys g).1 = length ys
  /\ Forall (fun row => length row = Z.to_nat w /\ Forall (fun c => owner c = None) row)
            (World.generate_rows w ys g).1.
Proof.
  revert g. induction ys as [|y ys IH]; intros g; simpl; [done|].
  pose proof (generate_row_length (seq 0 (Z.to_nat w)) (Z.of_nat y) g) as Hl.
  pose proof (generate_row_owner (seq 0 (Z.to_nat w)) (Z.of_nat y) g) as Ho.
  destruct (World.generate_row (seq 0 (Z.to_nat w)) (Z.of_nat y) g) as [r g1].
  specialize (IH g1). destruct (World.generate_rows w ys g1) as [rs g2].
  simpl in *. destruct IH as [IH1 IH2]. split; [by rewrite IH1|].
  constructor; [|done]. split; [|done]. by rewrite Hl, length_seq.
Qed.

(** X5: a fresh world has the given dimensions, day 0 and year 1; its
    grid has [height] rows of [width] cells (none for a dimension that is
    not positive); [get_cell] returns, at every coordinate inside the
    grid, a cell that carries this coordinate and has no owner, and
    [None] at every coordinate outside. *)
Theorem X5_fresh_world (w h : Z) (g : RNG) (x y : Z) :
  let W := (World.__init__ w h g).1 in
  (width W = w /\ height W = h /\ current_day W = 0 /\ current_year W = 1)
  /\ length (grid W) = Z.to_nat h
  /\ Forall (fun row => length row = Z.to_nat w) (grid W)
  /\ (if decide (0 <= x < w /\ 0 <= y < h)
      then exists c, World.get_cell W x y = Some c
                     /\ cell_x c = x /\ cell_y c = y /\ owner c = None
      else World.get_cell W x y = None).
Proof.
  cbv zeta. pose proof (world_init_ok w h g) as (Hco & _ & Hw & Hh).
  revert Hco Hw Hh. unfold World.__init__, World._generate_world.
  pose proof (generate_rows_shape w (seq 0 (Z.to_nat h)) g) as [Hlen Hrows].
  destruct (World.generate_rows w (seq 0 (Z.to_nat h)) g) as [gr g'].
  cbn [fst snd width height current_day current_year grid] in *.
  intros Hco _ _. rewrite length_seq in Hlen.
  split; [done|]. split; [done|]. split.
  { eapply Forall_impl; [exact Hrows|]. by intros row [? _]. }
  destruct (decide (0 <= x < w /\ 0 <= y < h)) as [[Hx Hy]|Hout].
  - destruct (lookup_lt_is_Some_2 gr (Z.to_nat y)) as [row Hrow]; [lia|].
    rewrite Forall_lookup in Hrows. destruct (Hrows _ _ Hrow) as [Hrl Hown].
    destruct (lookup_lt_is_Some_2 row (Z.to_nat x)) as [c Hc]; [lia|].
    assert (World.get_cell {| width := w; height := h; grid := gr;
                              current_day := 0; current_year := 1 |} x y = Some c) as Hget.
    { unfold World.get_cell. cbn [width height grid].
      assert ((0 <=? x) && (x <? w) && (0 <=? y) && (y <? h) = true) as -> by lia.
      rewrite Hrow. simpl. exact Hc. }
    exists c. split; [exact Hget|]. destruct (Hco x y c Hget) as [-> ->].
    split; [done|]. split; [done|].
    rewrite Forall_lookup in Hown. by apply (Hown _ _ Hc).
  - unfold World.get_cell. cbn [width height].
    assert ((0 <=? x) && (x <? w) && (0 <=? y) && (y <? h) = false) as -> by lia. done.
Qed.

Lemma length_omap_le {A B} (f : A -> option B) (l : list A) :
  (length (omap f l) <= length l)%nat.
Proof.
  induction l as [|a l IH]; [done|].
  change (omap f (a :: l))
    with (match f a with Some b => b :: omap f l | None => omap f l end).
  destruct (f a); simpl; lia.
Qed.

Lemma neighbor_offsets_eq :
  World.neighbor_offsets
  = [(-1, -1); (-1, 0); (-1, 1); (0, -1); (0, 1); (1, -1); (1, 0); (1, 1)].
Proof. vm_compute. reflexivity. Qed.

Lemma elem_of_neighbor_offsets (dx dy : Z) :
  (dx, dy) ∈ World.neighbor_offsets
  <-> -1 <= dx <= 1 /\ -1 <= dy <= 1 /\ (dx, dy) <> (0, 0).
Proof.
  rewrite neighbor_offsets_eq. rewrite !elem_of_cons, elem_of_nil. split.
  - intros H.
    repeat (destruct H as [H|H]; [injection H as -> ->; repeat split; (lia || done)|]).
    done.
  - intros (Hx & Hy & Hne).
    assert (dx = -1 \/ dx = 0 \/ dx = 1) as [-> | [-> | ->]] by lia;
      assert (dy = -1 \/ dy = 0 \/ dy = 1) as [-> | [-> | ->]] by lia;
      try done; tauto.
Qed.

(** X6: [get_neighbors(x, y)] returns at most 8 cells: exactly the cells
    that [get_cell] finds at the eight offsets around (x, y), those
    outside the grid being skipped; [get_passable_neighbors] keeps those
    whose terrain is neither water nor mountain; in a world whose cells
    carry their own coordinates a neighbour is never the cell at (x, y)
    itself and lies within one step of it. *)
Theorem X6_get_neighbors (w : World) (x y : Z) :
  (length (World.get_neighbors w x y) <= 8)%nat
  /\ (forall c, c ∈ World.get_neighbors w x y
        <-> exists dx dy, -1 <= dx <= 1 /\ -1 <= dy <= 1 /\ (dx, dy) <> (0, 0)
                          /\ World.get_cell w (x + dx) (y + dy) = Some c)
  /\ (forall c, c ∈ World.get_passable_neighbors w x y
        <-> c ∈ World.get_neighbors w x y /\ terrain c <> WATER /\ terrain c <> MOUNTAIN)
  /\ (coords_ok w -> forall c, c ∈ World.get_neighbors w x y ->
        (cell_x c, cell_y c) <> (x, y)
        /\ Z.abs (cell_x c - x) <= 1 /\ Z.abs (cell_y c - y) <= 1).
Proof.
  assert (forall c, c ∈ World.get_neighbors w x y
            <-> exists dx dy, -1 <= dx <= 1 /\ -1 <= dy <= 1 /\ (dx, dy) <> (0, 0)
                              /\ World.get_cell w (x + dx) (y + dy) = Some c) as Hmem.
  { intros c. unfold World.get_neighbors. rewrite list_elem_of_omap. split.
    - intros ([dx dy] & Hin & Hc). apply elem_of_neighbor_offsets in Hin.
      exists dx, dy. cbn [fst snd] in Hc. tauto.
    - intros (dx & dy & Hx & Hy & Hne & Hc). exists (dx, dy).
      split; [by apply elem_of_neighbor_offsets | done]. }
  split; [|split; [exact Hmem|split]].
  - unfold World.get_neighbors. etrans; [apply length_omap_le|].
    by rewrite neighbor_offsets_eq.
  - intros c. unfold World.get_passable_neighbors. rewrite list_elem_of_filter.
    unfold Cell.is_passable. split.
    + intros [Hp Hin]. split; [done|].
      apply negb_true_iff, orb_false_iff in Hp as [H1 H2].
      apply bool_decide_eq_false in H1, H2. done.
    + intros (Hin & H1 & H2). split; [|done].
      apply negb_true_iff, orb_false_iff. by rewrite !bool_decide_eq_false.
  - intros Hco c Hin. apply Hmem in Hin as (dx & dy & Hx & Hy & Hne & Hc).
    destruct (Hco _ _ _ Hc) as [-> ->]. split; [|lia].
    intros [= H1 H2]. apply Hne. f_equal; lia.
Qed.

(** ** Further properties of events.py *)

Lemma get_cell_bountiful_at (cx cy : Z) (w : World) (x y : Z) :
  World.get_cell (Events.bountiful_at cx cy w) x y
  = if decide (in_square 2 cx cy x y)
    then Events.bountiful_cell <$> World.get_cell w x y
    else World.get_cell w x y.
Proof.
  unfold Events.bountiful_at.
  rewrite get_cell_affect_region by apply NoDup_square_offsets_2.
  destruct (decide (in_square 2 cx cy x y)) as [Hin|Hnin]; unfold in_square in *.
  - by rewrite decide_True by (apply elem_of_square_offsets; lia).
  - rewrite decide_False; [done|]. rewrite elem_of_square_offsets by lia. lia.
Qed.

(** X7: a bountiful harvest executed on a non-empty grid draws a centre
    inside the grid; every cell of the grid whose two coordinates are
    within 2 of the centre (the 5 x 5 region clipped to the grid) gets
    its food set to min(2 * max_food, food + 50); every other cell and
    the whole list of civilizations are unchanged; one entry is added to
    the event log; and no cell whose food was at most twice its ceiling
    loses food. *)
Theorem X7_bountiful_footprint (s : Simulation) :
  0 < width (world s) -> 0 < height (world s) ->
  exists s' cx cy,
    Events.BountifulHarvestEvent_execute s = Ok s'
    /\ events (chronicle s')
       = events (chronicle s) ++ [(current_year (world s), MsgBountiful cx cy)]
    /\ (0 <= cx < width (world s) /\ 0 <= cy < height (world s))
    /\ (forall x y,
          World.get_cell (world s') x y
          = if decide (in_square 2 cx cy x y)
            then (fun c => set_food_resource
                             (Z.min (2 * max_food c) (food_resource c + 50)) c)
                   <$> World.get_cell (world s) x y
            else World.get_cell (world s) x y)
    /\ civilizations s' = civilizations s
    /\ (forall x y c c',
          World.get_cell (world s) x y = Some c ->
          World.get_cell (world s') x y = Some c' ->
          food_resource c <= 2 * max_food c -> food_resource c <= food_resource c').
Proof.
  intros Hw Hh. destruct (draw_center_ok s Hw Hh) as (cx & cy & g & Hd & Hcx & Hcy).
  unfold Events.BountifulHarvestEvent_execute. rewrite Hd. simpl.
  eexists _, cx, cy. split; [reflexivity|]. simpl.
  assert (forall x y,
            World.get_cell (Events.bountiful_at cx cy (world s)) x y
            = if decide (in_square 2 cx cy x y)
              then (fun c => set_food_resource
                               (Z.min (2 * max_food c) (food_resource c + 50)) c)
                     <$> World.get_cell (world s) x y
              else World.get_cell (world s) x y) as Hcells.
  { intros x y. rewrite get_cell_bountiful_at. destruct (decide _); [|done].
    destruct (World.get_cell (world s) x y) as [c|]; [|done]. simpl.
    unfold Events.bountiful_cell. do 2 f_equal. lia. }
  split.
  { f_equal. f_equal. f_equal. unfold Events.bountiful_at, Events.affect_region.
    apply (foldl_preserves (fun w => current_year w = current_year (world s))); [|done].
    intros w d H. unfold World.update_cell. by destruct (_ && _). }
  split; [done|]. split; [exact Hcells|]. split; [done|].
  intros x y c c' Hc Hc' Hle. rewrite Hcells, Hc in Hc'.
  destruct (decide _); simpl in Hc'; injection Hc' as <-; simpl; lia.
Qed.

Lemma X7_bountiful_footprint_witness :
  0 < width (world demo_founded) /\ 0 < height (world demo_founded)
  /\ exists s', Events.BountifulHarvestEvent_execute demo_founded = Ok s'
                /\ civilizations s' = civilizations demo_founded.
Proof.
  assert (0 < width (world demo_founded)) as Hw by (vm_compute; reflexivity).
  assert (0 < height (world demo_founded)) as Hh by (vm_compute; reflexivity).
  split; [exact Hw|]. split; [exact Hh|].
  destruct (X7_bountiful_footprint demo_founded Hw Hh)
    as (s' & cx & cy & He & _ & _ & _ & Hc & _).
  exists s'. split; [exact He | exact Hc].
Defined.

(** X8: on a world without cells (a width or a height that is not
    positive) the centre of a drought or of a bountiful harvest cannot be
    drawn: [random.randint] is called on an empty range and both events
    raise [ValueError]. *)
Theorem X8_region_event_on_empty_grid (s : Simulation) :
  width (world s) <= 0 \/ height (world s) <= 0 ->
  Events.DroughtEvent_execute s = Raise ValueError
  /\ Events.BountifulHarvestEvent_execute s = Raise ValueError.
Proof.
  intros Hempty.
  assert (Events.draw_center s = Raise ValueError) as Hd.
  { unfold Events.draw_center, random.randint_checked.
    destruct (width (world s) - 1 <? 0) eqn:Hw; [done|]. apply Z.ltb_ge in Hw.
    destruct (random.randint 0 (width (world s) - 1) (random_state s)) as [cx g1].
    cbn [rbind].
    assert ((height (world s) - 1 <? 0) = true) as -> by lia. done. }
  unfold Events.DroughtEvent_execute, Events.BountifulHarvestEvent_execute.
  by rewrite Hd.
Qed.

Lemma X8_region_event_on_empty_grid_witness :
  Events.DroughtEvent_execute (Simulation.__init__ 0 0 false demo_rng) = Raise ValueError.
Proof.
  apply (X8_region_event_on_empty_grid (Simulation.__init__ 0 0 false demo_rng)).
  left. vm_compute. discriminate.
Defined.

Lemma living_civs_nil (civs : list Civilization) :
  Events.living_civs civs = [] -> Forall (fun c => is_alive c = false) civs.
Proof.
  intros Hnil. apply Forall_lookup. intros i c Hc.
  destruct (is_alive c) eqn:Ha; [|done].
  assert (i ∈ Events.living_civs civs) as Hin by (apply living_civs_spec; by exists c).
  rewrite Hnil in Hin. by apply elem_of_nil in Hin.
Qed.

(** The target of an event: a live civilization. *)
Lemma pick_living (s : Simulation) (j : nat) (living : list nat) :
  Events.living_civs (civilizations s) = j :: living ->
  exists target g1 t,
    random.choice (j :: living) (random_state s) = Ok (target, g1)
    /\ civilizations s !! target = Some t /\ is_alive t = true.
Proof.
  intros Hl.
  destruct (random.choice (j :: living) (random_state s)) as [[target g1]|] eqn:Hch; [|done].
  pose proof Hch as Hin. apply choice_elem in Hin. rewrite <- Hl in Hin.
  apply living_civs_spec in Hin as (t & Ht & Ha). by exists target, g1, t.
Qed.

Lemma random_nonneg (g : RNG) : (0 <= (random.random g).1)%Q.
Proof.
  unfold random.random, random.next_word. cbn [fst].
  pose proof (Z.mod_pos_bound (random.tape g (random.cursor g)) (2 ^ 53) ltac:(lia)) as H.
  unfold Qle. simpl. lia.
Qed.

Lemma uniform_lower (a b : Q) (g : RNG) :
  (a <= b)%Q -> (a <= (random.uniform a b g).1)%Q.
Proof.
  intros Hab. unfold random.uniform. pose proof (random_nonneg g) as Hr.
  destruct (random.random g) as [u g']. cbn [fst] in *.
  assert (0 <= (b - a) * u)%Q as H.
  { apply Qmult_le_0_compat; [|done]. unfold Qminus. rewrite <- (Qplus_opp_r a).
    apply Qplus_le_l. exact Hab. }
  rewrite <- (Qplus_0_r a) at 1. by apply Qplus_le_r.
Qed.

Lemma alter_others {A} (f : A -> A) (i j : nat) (l : list A) :
  j <> i -> alter f i l !! j = l !! j.
Proof. intros H. by apply list_lookup_alter_ne. Qed.

(** X9: a plague never raises.  When no civilization is alive it changes
    nothing.  Otherwise it strikes one live civilization: its population
    becomes max(10, population - deaths) with deaths not negative, so the
    population stays at or above 10 and does not grow when it was at
    least 10; its morale loses 20, floored at 0; nothing else of it and
    no other civilization changes; the world is untouched; and one major
    event is logged. *)
Theorem X9_plague (s : Simulation) :
  exists s',
    Events.PlagueEvent_execute s = Ok s'
    /\ world s' = world s
    /\ ((Forall (fun c => is_alive c = false) (civilizations s) /\ s' = s)
        \/ exists target t deaths,
             civilizations s !! target = Some t /\ is_alive t = true
             /\ civilizations s'
                = <[target := set_morale (Z.max 0 (morale t - 20))
                                (set_population (Z.max 10 (population t - deaths)) t)]>
                    (civilizations s)
             /\ (0 <= population t -> 0 <= deaths)
             /\ 10 <= Z.max 10 (population t - deaths)
             /\ (10 <= population t -> Z.max 10 (population t - deaths) <= population t)
             /\ major_events (chronicle s')
                = major_events (chronicle s)
                  ++ [(current_year (world s), MsgPlague (name t) deaths)]
             /\ events (chronicle s') = events (chronicle s)).
Proof.
  unfold Events.PlagueEvent_execute.
  destruct (Events.living_civs (civilizations s)) as [|j living] eqn:Hl.
  { exists s. split; [done|]. split; [done|]. left. split; [|done].
    by apply living_civs_nil. }
  destruct (pick_living s j living Hl) as (target & g1 & t & -> & Ht & Ha).
  cbn [rbind]. rewrite Ht.
  pose proof (uniform_lower (1 # 10) (3 # 10) g1 ltac:(done)) as Hu.
  destruct (random.uniform (1 # 10) (3 # 10) g1) as [u g2]. cbn [fst] in Hu.
  eexists. split; [reflexivity|]. split; [done|]. right.
  exists target, t, (int_trunc (inject_Z (population t) * u)).
  split; [done|]. split; [done|]. split.
  { cbn [civilizations set_chronicle update_civ set_civilizations set_random_state].
    apply list_eq. intros k. destruct (decide (k = target)) as [->|Hne].
    - rewrite list_lookup_alter_eq, Ht. simpl.
      symmetry. apply list_lookup_insert_eq. by eapply lookup_lt_Some.
    - rewrite list_lookup_alter_ne by done. by rewrite list_lookup_insert_ne. }
  split.
  { intros Hpop. apply int_trunc_nonneg, scale_nonneg; [done|].
    eapply Qle_trans; [|exact Hu]. done. }
  split; [lia|]. split.
  { intros Hpop.
    assert (0 <= int_trunc (inject_Z (population t) * u)) as Hd.
    { apply int_trunc_nonneg, scale_nonneg; [lia|]. eapply Qle_trans; [|exact Hu]. done. }
    lia. }
  done.
Qed.

(** X10: a technological discovery never raises.  When no civilization
    is alive it changes nothing.  Otherwise exactly one live civilization
    gains one technology level and 10 morale, capped at 100; nothing else
    of it and no other civilization changes; the world is untouched; and
    one event is logged with the new level. *)
Theorem X10_discovery (s : Simulation) :
  exists s',
    Events.TechnologicalDiscoveryEvent_execute s = Ok s'
    /\ world s' = world s
    /\ ((Forall (fun c => is_alive c = false) (civilizations s) /\ s' = s)
        \/ exists target t discovery,
             civilizations s !! target = Some t /\ is_alive t = true
             /\ civilizations s'
                = <[target := set_morale (Z.min 100 (morale t + 10))
                                (set_tech_level (tech_level t + 1) t)]>
                    (civilizations s)
             /\ events (chronicle s')
                = events (chronicle s)
                  ++ [(current_year (world s),
                       MsgDiscovery (name t) discovery (tech_level t + 1))]
             /\ major_events (chronicle s') = major_events (chronicle s)).
Proof.
  unfold Events.TechnologicalDiscoveryEvent_execute.
  destruct (Events.living_civs (civilizations s)) as [|j living] eqn:Hl.
  { exists s. split; [done|]. split; [done|]. left. split; [|done].
    by apply living_civs_nil. }
  destruct (pick_living s j living Hl) as (target & g1 & t & -> & Ht & Ha).
  cbn [rbind]. rewrite Ht. cbv zeta.
  destruct (random.choice_ne _ _ g1) as [discovery g2].
  eexists. split; [reflexivity|]. split; [done|]. right.
  exists target, t, discovery. split; [done|]. split; [done|]. split; [|done].
  cbn [civilizations set_chronicle update_civ set_civilizations set_random_state].
  apply list_eq. intros k. destruct (decide (k = target)) as [->|Hne].
  - rewrite list_lookup_alter_eq, Ht. simpl.
    symmetry. apply list_lookup_insert_eq. by eapply lookup_lt_Some.
  - rewrite list_lookup_alter_ne by done. by rewrite list_lookup_insert_ne.
Qed.

(** X11: a morale crisis never raises.  When no civilization is alive it
    changes nothing.  Otherwise exactly one live civilization loses
    between 5 and 15 morale, floored at 0; nothing else of it and no
    other civilization changes; the world is untouched; and one event is
    logged. *)
Theorem X11_morale_crisis (s : Simulation) :
  exists s',
    Events.MoraleCrisisEvent_execute s = Ok s'
    /\ world s' = world s
    /\ ((Forall (fun c => is_alive c = false) (civilizations s) /\ s' = s)
        \/ exists target t loss crisis,
             civilizations s !! target = Some t /\ is_alive t = true
             /\ 5 <= loss <= 15
             /\ civilizations s'
                = <[target := set_morale (Z.max 0 (morale t - loss)) t]> (civilizations s)
             /\ events (chronicle s')
                = events (chronicle s)
                  ++ [(current_year (world s), MsgCrisis crisis (name t) loss)]
             /\ major_events (chronicle s') = major_events (chronicle s)).
Proof.
  unfold Events.MoraleCrisisEvent_execute.
  destruct (Events.living_civs (civilizations s)) as [|j living] eqn:Hl.
  { exists s. split; [done|]. split; [done|]. left. split; [|done].
    by apply living_civs_nil. }
  destruct (pick_living s j living Hl) as (target & g1 & t & -> & Ht & Ha).
  cbn [rbind]. rewrite Ht.
  pose proof (randint_range 5 15 g1 ltac:(lia)) as Hloss.
  destruct (random.randint 5 15 g1) as [loss g2]. cbn [fst] in Hloss. cbv zeta.
  destruct (random.choice_ne _ _ g2) as [crisis g3].
  eexists. split; [reflexivity|]. split; [done|]. right.
  exists target, t, loss, crisis. split; [done|]. split; [done|]. split; [done|].
  split; [|done].
  cbn [civilizations set_chronicle update_civ set_civilizations set_random_state].
  apply list_eq. intros k. destruct (decide (k = target)) as [->|Hne].
  - rewrite list_lookup_alter_eq, Ht. simpl.
    symmetry. apply list_lookup_insert_eq. by eapply lookup_lt_Some.
  - rewrite list_lookup_alter_ne by done. by rewrite list_lookup_insert_ne.
Qed.

(** ** Further properties of civilization.py and simulation.py *)

Lemma claim_step_frame (x y : Z) (st : World * Civilization) (d : Z * Z)
    (t : list (Z * Z)) :
  set_territory t (Civilization.claim_step x y st d).2 = set_territory t st.2.
Proof.
  unfold Civilization.claim_step. destruct st as [w self].
  destruct (World.get_cell w (x + d.1) (y + d.2)) as [cell|]; [|done].
  by destruct (_ && _).
Qed.

Lemma claim_step_length (x y : Z) (st : World * Civilization) (d : Z * Z) :
  (length (territory (Civilization.claim_step x y st d).2)
   <= S (length (territory st.2)))%nat.
Proof.
  unfold Civilization.claim_step. destruct st as [w self].
  destruct (World.get_cell w (x + d.1) (y + d.2)) as [cell|]; [|simpl; lia].
  destruct (_ && _); simpl; [|lia]. rewrite length_app. simpl. lia.
Qed.

Lemma claim_fold_length (x y : Z) (ds : list (Z * Z)) (st : World * Civilization) :
  (length (territory (foldl (Civilization.claim_step x y) st ds).2)
   <= length (territory st.2) + length ds)%nat.
Proof.
  revert st. induction ds as [|d ds IH]; intros st; simpl; [lia|].
  etrans; [apply IH|]. pose proof (claim_step_length x y st d). lia.
Qed.

Lemma claim_fold_frame (x y : Z) (ds : list (Z * Z)) (st : World * Civilization)
    (t : list (Z * Z)) :
  set_territory t (foldl (Civilization.claim_step x y) st ds).2 = set_territory t st.2.
Proof.
  revert st. induction ds as [|d ds IH]; intros st; simpl; [done|].
  by rewrite IH, claim_step_frame.
Qed.

Lemma start_offsets_eq :
  Civilization.start_offsets
  = [(-1, -1); (-1, 0); (-1, 1); (0, -1); (0, 0); (0, 1); (1, -1); (1, 0); (1, 1)].
Proof. reflexivity. Qed.

Lemma start_offsets_near (d : Z * Z) :
  d ∈ Civilization.start_offsets -> Z.abs d.1 <= 1 /\ Z.abs d.2 <= 1.
Proof.
  rewrite start_offsets_eq, !elem_of_cons, elem_of_nil. intros H.
  repeat (destruct H as [H|H]; [subst d; simpl; lia|]). done.
Qed.

Lemma claim_fold_block (x y : Z) (ds : list (Z * Z)) (st : World * Civilization) :
  (forall d, d ∈ ds -> Z.abs d.1 <= 1 /\ Z.abs d.2 <= 1) ->
  coords_ok st.1 ->
  Forall (fun ab => Z.abs (ab.1 - x) <= 1 /\ Z.abs (ab.2 - y) <= 1) (territory st.2) ->
  Forall (fun ab => Z.abs (ab.1 - x) <= 1 /\ Z.abs (ab.2 - y) <= 1)
         (territory (foldl (Civilization.claim_step x y) st ds).2).
Proof.
  revert st. induction ds as [|d ds IH]; intros st Hds Hco Hall; simpl; [done|].
  assert (Z.abs d.1 <= 1 /\ Z.abs d.2 <= 1) as Hd by (apply Hds, list_elem_of_here).
  apply IH.
  - intros d' Hd'. by apply Hds, list_elem_of_further.
  - unfold Civilization.claim_step. destruct st as [w self]. simpl in *.
    destruct (World.get_cell w (x + d.1) (y + d.2)) as [cell|]; [|done].
    destruct (_ && _); [|done]. simpl. by apply coords_ok_update_cell.
  - unfold Civilization.claim_step. destruct st as [w self]. simpl in *.
    destruct (World.get_cell w (x + d.1) (y + d.2)) as [cell|] eqn:Hc; [|done].
    destruct (_ && _); [|done]. simpl. apply Forall_app. split; [done|].
    constructor; [|done]. destruct (Hco _ _ _ Hc) as [-> ->]. simpl. lia.
Qed.

(** What the constructor of a civilization establishes. *)
Lemma civilization_init_spec (nm : string) (x y : Z) (w : World) (g : RNG) :
  let civ := (Civilization.__init__ nm x y w g).1.2 in
  let g' := (Civilization.__init__ nm x y w g).2 in
  (name civ = nm /\ capital civ = (x, y) /\ food civ = 200 /\ tech_level civ = 1
   /\ state civ = IDLE /\ relations civ = ∅ /\ is_alive civ = true
   /\ death_cause civ = None)
  /\ (30 <= population civ <= 60 /\ 70 <= morale civ <= 90)
  /\ random.cursor g' = (random.cursor g + 3)%nat
  /\ (length (territory civ) <= 9)%nat
  /\ (coords_ok w ->
      Forall (fun ab => Z.abs (ab.1 - x) <= 1 /\ Z.abs (ab.2 - y) <= 1) (territory civ)).
Proof.
  cbv zeta. unfold Civilization.__init__.
  pose proof (randint_range 30 60 g ltac:(lia)) as Hp.
  pose proof (randint_cursor 30 60 g) as C1.
  destruct (random.randint 30 60 g) as [pop g1]. cbn [fst snd] in Hp, C1.
  pose proof (randint_range 70 90 g1 ltac:(lia)) as Hm.
  pose proof (randint_cursor 70 90 g1) as C2.
  destruct (random.randint 70 90 g1) as [mor g2]. cbn [fst snd] in Hm, C2.
  pose proof (choice_ne_cursor AGGRESSIVE [PEACEFUL; ISOLATIONIST; EXPANSIONIST; TRADING] g2)
    as C3.
  destruct (random.choice_ne _ _ g2) as [pers g3]. cbn [fst snd] in C3.
  cbv zeta. cbn [fst snd]. unfold Civilization._claim_starting_territory.
  set (self0 := {| name := nm; population := pop; food := 200; morale := mor;
                   tech_level := 1; state := IDLE; personality := pers;
                   capital := (x, y); territory := []; relations := ∅;
                   is_alive := true; death_cause := None |}).
  pose proof (claim_fold_frame x y Civilization.start_offsets (w, self0) []) as Hframe.
  pose proof (claim_fold_length x y Civilization.start_offsets (w, self0)) as Hlen.
  pose proof (claim_fold_block x y Civilization.start_offsets (w, self0)
                start_offsets_near) as Hblock.
  destruct (foldl (Civilization.claim_step x y) (w, self0) Civilization.start_offsets)
    as [w' civ].
  cbn [fst snd] in *. unfold set_territory in Hframe. subst self0. simpl in Hframe.
  injection Hframe as H1 H2 H3 H4 H5 H6 H7 H8 H9 H10 H11.
  split; [done|]. split; [lia|]. split; [lia|]. split; [exact Hlen|].
  intros Hco. by apply Hblock.
Qed.

(** X12: a new civilization has the given name and capital, a population
    drawn in [30, 60], 200 food, a morale drawn in [70, 90], technology
    level 1, the Idle state, no relations, and is alive; its construction
    draws exactly three numbers; claiming the starting territory changes
    no attribute but the territory, which holds at most 9 coordinates,
    all within one step of the capital when the cells of the world carry
    their own coordinates. *)
Theorem X12_civilization_init (nm : string) (x y : Z) (w : World) (g : RNG) :
  let civ := (Civilization.__init__ nm x y w g).1.2 in
  let g' := (Civilization.__init__ nm x y w g).2 in
  (name civ = nm /\ capital civ = (x, y) /\ food civ = 200 /\ tech_level civ = 1
   /\ state civ = IDLE /\ relations civ = ∅ /\ is_alive civ = true
   /\ death_cause civ = None)
  /\ (30 <= population civ <= 60 /\ 70 <= morale civ <= 90)
  /\ random.cursor g' = (random.cursor g + 3)%nat
  /\ (length (territory civ) <= 9)%nat
  /\ (coords_ok w ->
      Forall (fun ab => Z.abs (ab.1 - x) <= 1 /\ Z.abs (ab.2 - y) <= 1) (territory civ)).
Proof. exact (civilization_init_spec nm x y w g). Qed.

(** X13: [add_civilization] called with both coordinates never searches
    and never raises: whatever the cell at the coordinates is (owned,
    impassable, near another capital, outside the grid), the civilization
    built by the constructor at these coordinates is appended to the
    list, exactly three random numbers are drawn and one major event is
    logged. *)
Theorem X13_add_with_coordinates (nm : string) (x y : Z) (s : Simulation) :
  exists s',
    Simulation.add_civilization nm (Some x) (Some y) s = Ok s'
    /\ civilizations s'
       = civilizations s
         ++ [(Civilization.__init__ nm x y (world s) (random_state s)).1.2]
    /\ world s' = (Civilization.__init__ nm x y (world s) (random_state s)).1.1
    /\ random.cursor (random_state s') = (random.cursor (random_state s) + 3)%nat
    /\ (exists civ, last (civilizations s') = Some civ
                    /\ name civ = nm /\ capital civ = (x, y)
                    /\ major_events (chronicle s')
                       = major_events (chronicle s)
                         ++ [(current_year (world s'),
                              MsgFounded nm x y (population civ) (personality civ))])
    /\ events (chronicle s') = events (chronicle s).
Proof.
  unfold Simulation.add_civilization. cbn [rbind].
  pose proof (civilization_init_spec nm x y (world s) (random_state s)) as H.
  cbv zeta in H. destruct H as ((Hn & Hc & _) & _ & Hcur & _).
  destruct (Civilization.__init__ nm x y (world s) (random_state s)) as [[w' civ] g2].
  cbn [fst snd] in *. eexists. split; [reflexivity|].
  cbn [civilizations world random_state chronicle set_chronicle set_random_state
       set_civilizations set_world].
  split; [done|]. split; [done|]. split; [done|]. split; [|done].
  exists civ. rewrite last_snoc. done.
Qed.
